(** * reloader: the media resolver (api/index.js) and the size prober
      (api/filesize.js), embedded in Rocq.

    The two serverless handlers are translated function by function.
    JavaScript values are an inductive type; the handlers' effects (the
    diagnostic log, outbound requests, exceptions) live in a small state and
    exception monad; what the runtime and the outside world decide
    (JSON.parse, the clock, the environment, the network, and the text of a
    size where it hangs on floating-point rounding) is a field of the
    [Runtime] class, so every theorem holds whatever they answer. *)

From Stdlib Require Import ZArith List String Ascii Bool Lia.
From Stdlib Require Import Numbers.DecimalString.
Import ListNotations.
Open Scope string_scope.
Open Scope Z_scope.
Set Warnings "-register-all".

(** ** JavaScript values *)

Module Js.

(** Numbers are the doubles whose value is an integer, NaN and the two
    infinities: all a JSON payload needs here is whether a number is zero
    and how it prints, and sizes are byte counts.  [VNum n] is the double of
    value [n]: every integer up to 2^53 in magnitude is one, and reading a
    numeral beyond that gives the nearest one ([from_integer] below).
    Strings are byte strings, the text in UTF-8; an unpaired surrogate,
    which a JavaScript string may hold (a JSON escape such as \ud800 makes
    one), is encoded like any code point of its range, in the three bytes
    ED, A0 to BF, 80 to BF. *)
Inductive value : Type :=
| VUndefined
| VNull
| VBool (b : bool)
| VNum (n : Z)
| VNaN
| VInf (negative : bool)
| VStr (s : string)
| VArr (items : list value)
| VObj (fields : list (string * value)).

(** What a [throw] carries; [message] is [e.message]. *)
Inductive exn : Type :=
| TypeError (msg : string)
| SyntaxError (msg : string)
| URIError (msg : string)
| FetchError (msg : string).

Definition message (e : exn) : string :=
  match e with
  | TypeError m | SyntaxError m | URIError m | FetchError m => m
  end.

(** Completion of an evaluation: a value or a thrown exception. *)
Inductive outcome (A : Type) : Type :=
| Ret (a : A)
| Throw (e : exn).
Arguments Ret {A} a.
Arguments Throw {A} e.

(** ToBoolean. *)
Definition truthy (v : value) : bool :=
  match v with
  | VUndefined | VNull => false
  | VBool b => b
  | VNum n => negb (n =? 0)
  | VNaN => false
  | VInf _ => true
  | VStr s => negb (s =? "")%string
  | VArr _ | VObj _ => true
  end.

(** [a || b] and [a && b] on already evaluated operands (used only where the
    right operand cannot throw). *)
Definition or_else (a b : value) : value := if truthy a then a else b.
Definition and_then (a b : value) : value := if truthy a then b else a.

(** Own property lookup in an object's field list. *)
Fixpoint lookup {A : Type} (k : string) (fields : list (string * A)) : option A :=
  match fields with
  | [] => None
  | (k', v) :: rest => if (k =? k')%string then Some v else lookup k rest
  end.

(** Name used by V8 in "Cannot read properties of ..." messages. *)
Definition nullish_name (v : value) : string :=
  match v with VNull => "null" | _ => "undefined" end.

(** [v.k] for the property names this program reads.  None of them lives
    on a prototype, so primitives and arrays answer [undefined]; reading a
    property of [undefined] or [null] throws. *)
Definition get (v : value) (k : string) : outcome value :=
  match v with
  | VUndefined | VNull =>
      Throw (TypeError ("Cannot read properties of " ++ nullish_name v
                        ++ " (reading '" ++ k ++ "')"))
  | VObj fields =>
      match lookup k fields with Some x => Ret x | None => Ret VUndefined end
  | _ => Ret VUndefined
  end.

(** [v?.k]. *)
Definition get_opt (v : value) (k : string) : outcome value :=
  match v with
  | VUndefined | VNull => Ret VUndefined
  | _ => get v k
  end.

Definition nullish (v : value) : bool :=
  match v with
  | VUndefined | VNull => true
  | _ => false
  end.

(** What [v.k] evaluates to when [v] is neither [undefined] nor [null]. *)
Definition peek (v : value) (k : string) : value :=
  match v with
  | VObj fields =>
      match lookup k fields with Some x => x | None => VUndefined end
  | _ => VUndefined
  end.

(** [obj.k = x]: replaces the field in place or appends it. *)
Fixpoint assign {A : Type} (k : string) (x : A) (fields : list (string * A))
  : list (string * A) :=
  match fields with
  | [] => [(k, x)]
  | (k', v) :: rest =>
      if (k =? k')%string then (k, x) :: rest else (k', v) :: assign k x rest
  end.

(** Assignment to a property of a primitive is a silent no-op in sloppy
    mode (the module has no "use strict"). *)
Definition set (v : value) (k : string) (x : value) : value :=
  match v with
  | VObj fields => VObj (assign k x fields)
  | _ => v
  end.

(** [a === b] where [b] is a primitive literal (NaN equals nothing). *)
Definition strict_eq (a b : value) : bool :=
  match a, b with
  | VUndefined, VUndefined => true
  | VNull, VNull => true
  | VBool x, VBool y => Bool.eqb x y
  | VNum x, VNum y => x =? y
  | VInf x, VInf y => Bool.eqb x y
  | VStr x, VStr y => (x =? y)%string
  | _, _ => false
  end.

(** [typeof v]. *)
Definition typeof (v : value) : string :=
  match v with
  | VUndefined => "undefined"
  | VNull => "object"
  | VBool _ => "boolean"
  | VNum _ | VNaN | VInf _ => "number"
  | VStr _ => "string"
  | VArr _ | VObj _ => "object"
  end.

Definition string_of_Z (n : Z) : string := NilZero.string_of_int (Z.to_int n).

(** *** Numbers as doubles *)

(** The double nearest to the integer [n >= 0], ties going to the even
    significand; [None] when that is beyond the largest double, where the
    number is [Infinity]. *)
Definition to_double (n : Z) : option Z :=
  if n <? 2 ^ 53 then Some n
  else
    let e := Z.log2 n - 52 in
    let q := n / 2 ^ e in
    let r := n mod 2 ^ e in
    let half := 2 ^ (e - 1) in
    let q := if (half <? r) || ((r =? half) && Z.odd q) then q + 1 else q in
    if q * 2 ^ e <? 2 ^ 1024 then Some (q * 2 ^ e) else None.

(** The Number value of the mathematical integer [n >= 0] under a sign. *)
Definition from_integer (negative : bool) (n : Z) : value :=
  match to_double n with
  | Some m => VNum (if negative then - m else m)
  | None => VInf negative
  end.

(** How many decimal digits [n > 0] has. *)
Fixpoint count_digits (fuel : nat) (n : Z) : Z :=
  match fuel with
  | O => 0
  | S fuel' => if n <=? 0 then 0 else 1 + count_digits fuel' (n / 10)
  end.

(** Number::toString looks for integers [n], [k] and [s] with [s] of [k]
    digits, [s * 10^(n-k)] a numeral of the double [x], and [k] least; among
    several [s] the one nearest to [x], then the even one.  A candidate is
    kept with its distance to [x]. *)
Definition candidate (x k n s : Z) : option (Z * (Z * Z)) :=
  let p := 10 ^ (n - k) in
  if (k <=? n) && (10 ^ (k - 1) <=? s) && (s <? 10 ^ k)
     && match to_double (s * p) with Some y => y =? x | None => false end
  then Some (Z.abs (s * p - x), (s, n))
  else None.

Definition nearer (a b : option (Z * (Z * Z))) : option (Z * (Z * Z)) :=
  match a, b with
  | Some (d, (s, n)), Some (d', (s', n')) =>
      if (d' <? d) || ((d' =? d) && Z.odd s && Z.even s') then b else a
  | Some _, None => a
  | None, _ => b
  end.

Definition shortest_of (x k : Z) : option (Z * (Z * Z)) :=
  let len := count_digits (S (Z.to_nat (Z.log2 x))) x in
  let low := fun n => x / 10 ^ (n - k) in
  nearer (nearer (candidate x k len (low len)) (candidate x k len (low len + 1)))
         (nearer (candidate x k (len + 1) (low (len + 1)))
                 (candidate x k (len + 1) (low (len + 1) + 1))).

Fixpoint shortest (x : Z) (ks : list Z) : option (Z * Z * Z) :=
  match ks with
  | [] => None
  | k :: rest =>
      match shortest_of x k with
      | Some (_, (s, n)) => Some (s, n, k)
      | None => shortest x rest
      end
  end.

Fixpoint zeros_text (n : nat) : string :=
  match n with
  | O => ""
  | S n' => "0" ++ zeros_text n'
  end.

(** The text of the double of value [x >= 0]: the numeral itself up to
    2^53, and beyond it the shortest digits that read back as [x], followed
    by zeros below 10^21 and in exponent notation from there. *)
Definition number_text (x : Z) : string :=
  if x <? 2 ^ 53 then string_of_Z x
  else
    match shortest x (map Z.of_nat (seq 1 17)) with
    | Some (s, n, k) =>
        let ds := string_of_Z s in
        if n <=? 21 then ds ++ zeros_text (Z.to_nat (n - k))
        else
          match ds with
          | String c rest =>
              String c (if (rest =? "")%string then "" else "." ++ rest)
              ++ "e+" ++ string_of_Z (n - 1)
          | EmptyString => ds
          end
    | None => string_of_Z x
    end.

Definition not_primitive : exn :=
  TypeError "Cannot convert object to primitive value".

(** ToString, as string concatenation and template literals apply it.  An
    object converts through [Object.prototype.toString] unless it carries
    an own [toString] field, which for parsed JSON is never callable: the
    conversion then throws.  Arrays convert through [join]. *)
Fixpoint to_string (v : value) : outcome string :=
  match v with
  | VUndefined => Ret "undefined"
  | VNull => Ret "null"
  | VBool true => Ret "true"
  | VBool false => Ret "false"
  | VNum n =>
      Ret (if n <? 0
           then match to_double (- n) with
                | Some x => "-" ++ number_text x
                | None => "-Infinity"
                end
           else match to_double n with
                | Some x => number_text x
                | None => "Infinity"
                end)
  | VNaN => Ret "NaN"
  | VInf negative => Ret (if negative then "-Infinity" else "Infinity")
  | VStr s => Ret s
  | VObj fields =>
      match lookup "toString" fields with
      | Some _ => Throw not_primitive
      | None => Ret "[object Object]"
      end
  | VArr items =>
      let piece (x : value) : outcome string :=
        match x with
        | VUndefined | VNull => Ret ""
        | _ => to_string x
        end in
      (fix join (first : bool) (l : list value) : outcome string :=
         match l with
         | [] => Ret ""
         | x :: rest =>
             match piece x with
             | Throw e => Throw e
             | Ret s =>
                 match join false rest with
                 | Throw e => Throw e
                 | Ret t => Ret ((if first then "" else ",") ++ s ++ t)
                 end
             end
         end) true items
  end.

(** *** String built-ins *)

Definition bytes (codes : list nat) : list ascii := map ascii_of_nat codes.

(** WhiteSpace and LineTerminator code points, in UTF-8: TAB, LF, VT, FF,
    CR, SP, U+00A0, U+1680, U+2000 to U+200A, U+2028, U+2029, U+202F,
    U+205F, U+3000, U+FEFF. *)
Definition white_space : list (list ascii) :=
  map bytes
    [ [9]; [10]; [11]; [12]; [13]; [32]; [194; 160]; [225; 154; 128];
      [226; 128; 128]; [226; 128; 129]; [226; 128; 130]; [226; 128; 131];
      [226; 128; 132]; [226; 128; 133]; [226; 128; 134]; [226; 128; 135];
      [226; 128; 136]; [226; 128; 137]; [226; 128; 138]; [226; 128; 168];
      [226; 128; 169]; [226; 128; 175]; [226; 129; 159]; [227; 128; 128];
      [239; 187; 191] ]%nat.

Fixpoint strip_prefix (p s : list ascii) : option (list ascii) :=
  match p, s with
  | [], _ => Some s
  | c :: p', d :: s' => if Ascii.eqb c d then strip_prefix p' s' else None
  | _ :: _, [] => None
  end.

Fixpoint strip_any (tokens : list (list ascii)) (s : list ascii)
  : option (list ascii) :=
  match tokens with
  | [] => None
  | t :: rest =>
      match strip_prefix t s with
      | Some s' => Some s'
      | None => strip_any rest s
      end
  end.

(** Drops leading tokens; [fuel] bounds the number of tokens dropped. *)
Fixpoint drop_leading (fuel : nat) (tokens : list (list ascii)) (s : list ascii)
  : list ascii :=
  match fuel with
  | O => s
  | S fuel' =>
      match strip_any tokens s with
      | Some s' => drop_leading fuel' tokens s'
      | None => s
      end
  end.

Definition trimStart_bytes (s : list ascii) : list ascii :=
  drop_leading (List.length s) white_space s.

Definition trimEnd_bytes (s : list ascii) : list ascii :=
  rev (drop_leading (List.length s) (map (@rev ascii) white_space) (rev s)).

(** [s.trim()]. *)
Definition trim (s : string) : string :=
  string_of_list_ascii (trimEnd_bytes (trimStart_bytes (list_ascii_of_string s))).

Definition is_digit (c : ascii) : bool :=
  let n := nat_of_ascii c in ((48 <=? n) && (n <=? 57))%nat.

Definition is_alpha (c : ascii) : bool :=
  let n := nat_of_ascii c in
  (((65 <=? n) && (n <=? 90)) || ((97 <=? n) && (n <=? 122)))%nat.

Definition hex_digit (n : nat) : ascii :=
  if (n <? 10)%nat then ascii_of_nat (48 + n) else ascii_of_nat (55 + n).

(** Characters [encodeURIComponent] leaves alone. *)
Definition uri_unreserved (c : ascii) : bool :=
  is_alpha c || is_digit c
  || existsb (Ascii.eqb c) ["-"; "_"; "."; "!"; "~"; "*"; "'"; "("; ")"]%char.

(** Every byte of the UTF-8 encoding other than those becomes a percent
    escape. *)
Fixpoint percent_encode (s : string) : string :=
  match s with
  | EmptyString => EmptyString
  | String c rest =>
      if uri_unreserved c then String c (percent_encode rest)
      else
        let n := nat_of_ascii c in
        String "%" (String (hex_digit (n / 16)) (String (hex_digit (n mod 16))
          (percent_encode rest)))
  end.

(** Whether the text holds an unpaired surrogate: the byte ED followed by a
    byte from A0 to BF (a surrogate pair is one code point of four bytes). *)
Fixpoint lone_surrogate (s : string) : bool :=
  match s with
  | EmptyString => false
  | String c rest =>
      match rest with
      | EmptyString => false
      | String d _ =>
          ((nat_of_ascii c =? 237) && (160 <=? nat_of_ascii d)
           && (nat_of_ascii d <=? 191))%nat
          || lone_surrogate rest
      end
  end.

(** The conversion to a USVString, which [new URLSearchParams] applies to
    the names and values it is given: each unpaired surrogate becomes
    U+FFFD, the bytes EF BF BD. *)
Fixpoint toWellFormed (s : string) : string :=
  match s with
  | EmptyString => EmptyString
  | String c rest =>
      match rest with
      | String d (String _ rest') =>
          if ((nat_of_ascii c =? 237) && (160 <=? nat_of_ascii d)
              && (nat_of_ascii d <=? 191))%nat
          then String (ascii_of_nat 239) (String (ascii_of_nat 191)
                 (String (ascii_of_nat 189) (toWellFormed rest')))
          else String c (toWellFormed rest)
      | _ => String c (toWellFormed rest)
      end
  end.

(** [new URLSearchParams(record)], as the list of its pairs. *)
Definition URLSearchParams (record : list (string * string)) : list (string * string) :=
  map (fun pair => (toWellFormed (fst pair), toWellFormed (snd pair))) record.

(** [encodeURIComponent(s)]: a URIError on an unpaired surrogate. *)
Definition encodeURIComponent (s : string) : outcome string :=
  if lone_surrogate s then Throw (URIError "URI malformed")
  else Ret (percent_encode s).

(** Value of the longest run of decimal digits at the head of [s], if any. *)
Fixpoint leading_digits (acc : option Z) (s : list ascii) : option Z :=
  match s with
  | c :: rest =>
      if is_digit c then
        let d := Z.of_nat (nat_of_ascii c) - 48 in
        leading_digits (Some (match acc with Some a => 10 * a + d | None => d end)) rest
      else acc
  | [] => acc
  end.

(** [parseInt(s, 10)] on a string: the double nearest to the integer the
    leading digits spell. *)
Definition parseInt (s : string) : value :=
  let t := trimStart_bytes (list_ascii_of_string s) in
  let '(negative, t) :=
    match t with
    | "-"%char :: t' => (true, t')
    | "+"%char :: t' => (false, t')
    | _ => (false, t)
    end in
  match leading_digits None t with
  | Some n => from_integer negative n
  | None => VNaN
  end.

Fixpoint all_digits (s : list ascii) : bool :=
  match s with
  | [] => true
  | c :: rest => is_digit c && all_digits rest
  end.

(** StringToNumber where the result is a number of this model: white space
    around an optionally signed run of digits or [Infinity], the empty
    string being 0, and NaN for a text that cannot begin a numeric literal.
    [None] stands for the rest, the numerals in another notation (fraction,
    exponent, hexadecimal) and what only begins like a numeral, which the
    model does not read. *)
Definition string_to_number (s : string) : option value :=
  let t := trimEnd_bytes (trimStart_bytes (list_ascii_of_string s)) in
  match t with
  | [] => Some (VNum 0)
  | c :: _ =>
      if negb (is_digit c || existsb (Ascii.eqb c) ["+"; "-"; "."; "I"]%char)
      then Some VNaN
      else
        let '(negative, ds) :=
          match t with
          | "-"%char :: t' => (true, t')
          | "+"%char :: t' => (false, t')
          | _ => (false, t)
          end in
        if (string_of_list_ascii ds =? "Infinity")%string then Some (VInf negative)
        else
          match ds, all_digits ds, leading_digits None ds with
          | _ :: _, true, Some n => Some (from_integer negative n)
          | _, _, _ => None
          end
  end.

(** ToNumber, as the arithmetic operators and [Math] functions apply it;
    arrays and objects go through their string form. *)
Definition to_number (v : value) : outcome (option value) :=
  match v with
  | VUndefined => Ret (Some VNaN)
  | VNull => Ret (Some (VNum 0))
  | VBool b => Ret (Some (VNum (if b then 1 else 0)))
  | VNum _ | VNaN | VInf _ => Ret (Some v)
  | VStr s => Ret (string_to_number s)
  | VArr _ | VObj _ =>
      match to_string v with
      | Ret s => Ret (string_to_number s)
      | Throw e => Throw e
      end
  end.

End Js.

(** ** Regular expressions

    The fragment the source's patterns are written in, with the matcher
    in continuation style; [test] is [RegExp.prototype.test] on a string
    (an unanchored search).  Under the [i] flag two characters match when
    their upper-case forms agree; bytes outside ASCII have none. *)

Module Regex.

Inductive regex : Type :=
| Eps
| Chr (c : ascii)
| Seq (r1 r2 : regex)
| Alt (r1 r2 : regex)
| Opt (r : regex).

Definition upper (c : ascii) : ascii :=
  let n := nat_of_ascii c in
  if ((97 <=? n) && (n <=? 122))%nat then ascii_of_nat (n - 32) else c.

Definition same (ignore_case : bool) (c d : ascii) : bool :=
  if ignore_case then Ascii.eqb (upper c) (upper d) else Ascii.eqb c d.

Fixpoint accept (i : bool) (r : regex) (s : string) (k : string -> bool) : bool :=
  match r with
  | Eps => k s
  | Chr c =>
      match s with
      | String d rest => same i c d && k rest
      | EmptyString => false
      end
  | Seq r1 r2 => accept i r1 s (fun s' => accept i r2 s' k)
  | Alt r1 r2 => accept i r1 s k || accept i r2 s k
  | Opt r1 => accept i r1 s k || k s
  end.

Fixpoint test (i : bool) (r : regex) (s : string) : bool :=
  accept i r s (fun _ => true)
  || match s with
     | String _ rest => test i r rest
     | EmptyString => false
     end.

(** A run of literal characters. *)
Fixpoint word (w : string) : regex :=
  match w with
  | EmptyString => Eps
  | String c w' => Seq (Chr c) (word w')
  end.

End Regex.

(** ** Effects: the log, the network, exceptions *)

Module Eff.
Import Js.

(** An outbound request as [fetch] receives it: the URL and the options
    object.  A [URLSearchParams] body is kept as its list of pairs. *)
Record request : Type := {
  rq_url : string;
  rq_method : option string;
  rq_headers : list (string * string);
  rq_body : option (list (string * string));
  rq_redirect : option string
}.

(** What the program reads of a [Response]: [ok], [headers.get] and the
    completion of [text()]. *)
Record response : Type := {
  ok : bool;
  headers_get : string -> option string;
  text : outcome string
}.

(** The promise [fetch] returns either rejects (network failure, abort by
    the timeout signal, invalid request) or resolves to a response. *)
Inductive fetched : Type :=
| Rejected (e : exn)
| Resolved (r : response).

(** What the Node runtime and the outside world provide.  [network] answers
    a request knowing the requests sent before it.  [float_text] is what
    lines 79 to 83 of filesize.js print where that rests on floating-point
    rounding the model does not compute: for a number from 2^49 on, where
    the quotient of the logarithms may round across an integer, and for a
    string that [string_to_number] does not read. *)
Class Runtime : Type := {
  JSON_parse : string -> outcome value;
  now_toISOString : string;
  NODE_ENV : value;
  stack : exn -> value;
  network : list request -> request -> fetched;
  float_text : value -> string
}.

(** Mutable state of one invocation: the [debugLog] array, the requests
    sent so far (oldest first) and the lines written by [console.error]. *)
Record state : Type := {
  debugLog : list string;
  sent : list request;
  console : list string
}.

Definition initial : state := {| debugLog := []; sent := []; console := [] |}.

Definition M (A : Type) : Type := state -> outcome A * state.

Definition ret {A} (a : A) : M A := fun st => (Ret a, st).

Definition throw {A} (e : exn) : M A := fun st => (Throw e, st).

Definition bind {A B} (c : M A) (k : A -> M B) : M B :=
  fun st =>
    match c st with
    | (Ret a, st') => k a st'
    | (Throw e, st') => (Throw e, st')
    end.

(** [try { c } catch (e) { h e }]. *)
Definition try_catch {A} (c : M A) (h : exn -> M A) : M A :=
  fun st =>
    match c st with
    | (Ret a, st') => (Ret a, st')
    | (Throw e, st') => h e st'
    end.

Definition lift {A} (o : outcome A) : M A := fun st => (o, st).

(** The state after [debugLog.push(line)], and after a request went out. *)
Definition logged (line : string) (st : state) : state :=
  {| debugLog := debugLog st ++ [line]; sent := sent st; console := console st |}.

Definition sending (rq : request) (st : state) : state :=
  {| debugLog := debugLog st; sent := sent st ++ [rq]; console := console st |}.

(** [debugLog.push(line)]. *)
Definition push (line : string) : M unit :=
  fun st => (Ret tt, logged line st).

(** [const debugLog = []]. *)
Definition new_log : M unit :=
  fun st => (Ret tt, {| debugLog := []; sent := sent st; console := console st |}).

Definition read_log : M (list string) := fun st => (Ret (debugLog st), st).

(** [console.error(a, b)] prints its arguments separated by a space. *)
Definition console_error (a b : string) : M unit :=
  fun st => (Ret tt, {| debugLog := debugLog st; sent := sent st;
                        console := console st ++ [a ++ " " ++ b] |}).

(** [await fetch(url, options)]. *)
Definition fetch `{Runtime} (rq : request) : M response :=
  fun st =>
    match network (sent st) rq with
    | Rejected e => (Throw e, sending rq st)
    | Resolved r => (Ret r, sending rq st)
    end.

Record http_request : Type := {
  req_method : string;
  req_body : value;
  req_query : value
}.

(** What was done to [res]: the headers set, the status, and the object
    handed to [json] ([None] for [end()]). *)
Record http_response : Type := {
  res_headers : list (string * string);
  res_status : Z;
  res_body : option value
}.

Definition respond (headers : list (string * string)) (status : Z)
    (body : option value) : http_response :=
  {| res_headers := headers; res_status := status; res_body := body |}.

Declare Scope js_scope.
Delimit Scope js_scope with js.
Notation "x <- c ;; k" := (bind c (fun x => k))
  (at level 61, c at next level, right associativity) : js_scope.
Notation "c ;; k" := (bind c (fun _ => k))
  (at level 61, right associativity) : js_scope.

(** [v.k], [v?.k] and ToString as steps of a computation. *)
Definition prop (v : value) (k : string) : M value := lift (get v k).
Definition prop_opt (v : value) (k : string) : M value := lift (get_opt v k).
Definition str (v : value) : M string := lift (to_string v).

(** [a || b] and [a && b] with the right operand evaluated on demand. *)
Definition orM (a b : M value) : M value :=
  bind a (fun x => if truthy x then ret x else b).
Definition andM (a b : M value) : M value :=
  bind a (fun x => if truthy x then b else ret x).
Notation "a ||| b" := (orM a b) (at level 50, left associativity) : js_scope.
Notation "a &&& b" := (andM a b) (at level 40, left associativity) : js_scope.

End Eff.

(** ** api/index.js: the resolver *)

Module Index.
Import Js Eff.
Local Open Scope js_scope.

Section Resolver.
Context `{rt : Runtime}.

(** *** Utilities *)

Definition tiktok_re : Regex.regex := Regex.word "tiktok.com".
Definition youtube_re : Regex.regex :=
  Regex.Seq (Regex.word "youtu") (Regex.Seq (Regex.Opt (Regex.Chr ".")) (Regex.word "be")).
Definition instagram_re : Regex.regex := Regex.word "instagram.com".
Definition twitter_re : Regex.regex :=
  Regex.Alt (Regex.word "twitter.com") (Regex.word "x.com").
Definition facebook_re : Regex.regex :=
  Regex.Alt (Regex.word "facebook.com") (Regex.word "fb.watch").

Definition detectPlatform (url : string) : string :=
  if Regex.test true tiktok_re url then "tiktok"
  else if Regex.test true youtube_re url then "youtube"
  else if Regex.test true instagram_re url then "instagram"
  else if Regex.test true twitter_re url then "twitter"
  else if Regex.test true facebook_re url then "facebook"
  else "unknown".

(** The [options] argument of [fetchUrl]. *)
Record fetch_options : Type := {
  method : option string;
  headers : option (list (string * string));
  body : option (list (string * string))
}.

(** The default [options = {}]. *)
Definition no_options : fetch_options :=
  {| method := None; headers := None; body := None |}.

(** [{ ...a, ...b }] on header objects. *)
Definition spread (a b : list (string * string)) : list (string * string) :=
  fold_left (fun acc kv => assign (fst kv) (snd kv) acc) b a.

Definition chrome_agent : string :=
  "Mozilla/5.0 (Windows NT 10.0; Win64; x64) AppleWebKit/537.36 (KHTML, like Gecko) Chrome/120.0.0.0 Safari/537.36".

(** The [finalOptions] object, with the URL it is sent to.  The abort
    signal is the network's business: an abort is a rejected [fetch]. *)
Definition finalOptions (url : string) (options : fetch_options) : request :=
  let defaultHeaders := [("User-Agent", chrome_agent)] in
  {| rq_url := url;
     rq_method := method options;
     rq_headers :=
       spread defaultHeaders
         (match headers options with Some h => h | None => [] end);
     rq_body := body options;
     rq_redirect := Some "follow" |}.

(** The whole body is inside [try]; the handler returns [null]. *)
Definition fetchUrl (url : string) (options : fetch_options) : M value :=
  try_catch
    (response <- fetch (finalOptions url options) ;;
     t <- lift (text response) ;;
     ret (VStr t))
    (fun e => ret VNull). (* Graceful failure on timeout/network error *)

(** [JSON.parse(v)]: the argument is converted to a string first. *)
Definition parse (v : value) : M value :=
  s <- str v ;; lift (JSON_parse s).

(** [if (resp) { try { data = JSON.parse(resp); } catch (e) { } }]:
    the new value of [data]. *)
Definition parse_into (resp data : value) : M value :=
  if truthy resp then try_catch (parse resp) (fun e => ret data)
  else ret data.

Definition error_result (text : string) : value :=
  VObj [("status", VStr "error"); ("text", VStr text)].

Definition variant (type name : string) (url size_bytes : value) : value :=
  VObj [("type", VStr type); ("name", VStr name); ("url", url);
        ("size_bytes", size_bytes)].

(** *** Providers *)

(** Lines 106 to 128 of [providerTikwm]: the POST, then the GET when the
    POST gave nothing usable.  The result is the variable [data]. *)
Definition tikwm_request (url : string) : M value :=
  let apiUrl := "https://www.tikwm.com/api/" in
  let postData := URLSearchParams [("url", url); ("hd", "1")] in
  push "TikWM trying POST" ;;
  resp <- fetchUrl apiUrl
    {| method := Some "POST";
       headers := Some
         [("Content-Type", "application/x-www-form-urlencoded");
          ("Accept", "application/json");
          ("User-Agent", "Mozilla/5.0 (Windows NT 10.0; Win64; x64) AppleWebKit/537.36")];
       body := Some postData |} ;;
  data <- parse_into resp VNull ;;
  (* If POST failed, try GET *)
  retry <- (if negb (truthy data) then ret true
            else code <- prop data "code" ;;
                 ret (negb (strict_eq code VUndefined)
                      && negb (strict_eq code (VNum 0)))) ;;
  if retry : bool then
    push "TikWM POST failed/empty, trying GET" ;;
    query <- lift (encodeURIComponent url) ;;
    resp <- fetchUrl (apiUrl ++ "?url=" ++ query ++ "&hd=1") no_options ;;
    parse_into resp data
  else ret data.

(** Lines 135 to 193 of [providerTikwm]: the result built from
    [video = data.data]. *)
Definition tikwm_media (video : value) : M value :=
  let variants : list value := [] in
  hdUrl <- prop video "hdplay" ||| prop video "play" ||| ret VNull ;;
  sdUrl <- prop video "play" ||| prop video "hdplay" ||| ret VNull ;;
  musicUrl <- prop video "music" ||| ret VNull ;;
  wmUrl <- prop video "wmplay" ||| ret VNull ;;
  variants <- (if truthy hdUrl then
                 size <- prop video "hd_size" ||| prop video "size" ||| ret VNull ;;
                 ret (variants ++ [variant "video-hd" "HD NO WATERMARK (MP4)" hdUrl size])%list
               else ret variants) ;;
  variants <- (if truthy sdUrl then
                 size <- prop video "size" ||| prop video "hd_size" ||| ret VNull ;;
                 ret (variants ++ [variant "video-sd" "NO WATERMARK (MP4)" sdUrl size])%list
               else ret variants) ;;
  let audioUrl := or_else musicUrl hdUrl in
  variants <- (if truthy audioUrl then
                 size <- (info <- prop video "music_info" ;; prop_opt info "size")
                         ||| ret VNull ;;
                 ret (variants ++ [variant "audio" "MP3 AUDIO" audioUrl size])%list
               else ret variants) ;;
  variants <- (if truthy wmUrl then
                 size <- prop video "wm_size" ||| ret VNull ;;
                 ret (variants ++ [variant "video-watermark" "WITH WATERMARK (MP4)" wmUrl size])%list
               else ret variants) ;;
  let mainUrl := or_else (or_else (or_else (or_else hdUrl sdUrl) wmUrl) musicUrl) VNull in
  if truthy mainUrl then
    id <- prop video "id" ||| ret (VStr "video") ;;
    id <- str id ;;
    thumb <- prop video "cover" ||| prop video "origin_cover" ||| ret VNull ;;
    title <- prop video "title" ||| ret (VStr "TikTok Video") ;;
    author <- (prop video "author" &&& (a <- prop video "author" ;; prop a "nickname"))
              ||| ret (VStr "TikTok User") ;;
    ret (VObj [("status", VStr "tunnel");
               ("url", mainUrl);
               ("filename", VStr ("tiktok_" ++ id ++ ".mp4"));
               ("thumb", thumb);
               ("title", title);
               ("author", author);
               ("variants", VArr variants)])
  else ret (error_result "Video URL not found in TikWM").

Definition providerTikwm (url : string) (format quality : value)
    (platform : string) : M value :=
  if negb (platform =? "tiktok")%string then ret VNull else
  data <- tikwm_request url ;;
  if negb (truthy data) then ret (error_result "TikWM no response") else
  code <- prop data "code" ;;
  if strict_eq code VUndefined || negb (strict_eq code (VNum 0)) then
    msg <- prop data "msg" ||| ret (VStr "Unknown error") ;;
    text <- str msg ;;
    ret (error_result ("TikWM: " ++ text))
  else
  video <- prop data "data" ;;
  tikwm_media video.

Definition providerSnaptik (url : string) (format quality : value)
    (platform : string) : M value :=
  if negb (platform =? "tiktok")%string then ret VNull else
  let apiUrl := "https://api.tik.fail/api/grab" in
  push "Snaptik(tik.fail) trying" ;;
  let params := URLSearchParams [("url", url)] in
  resp <- fetchUrl apiUrl
    {| method := Some "POST";
       headers := Some [("Content-Type", "application/x-www-form-urlencoded")];
       body := Some params |} ;;
  if negb (truthy resp) then ret VNull else
  parsed <- try_catch (data <- parse resp ;; ret (Some data)) (fun e => ret None) ;;
  match parsed with
  | None => ret VNull
  | Some data =>
      failed <- (if negb (truthy data) then ret true
                 else status <- prop data "status" ;;
                      ret (negb (strict_eq status (VStr "success")))) ;;
      if failed : bool then
        status <- prop_opt data "status" ||| ret (VStr "unknown") ;;
        status <- str status ;;
        push ("Snaptik failed: " ++ status) ;;
        ret VNull
      else
        url <- prop data "video" ||| prop data "nwm_video_url" ||| ret (VStr "") ;;
        title <- prop data "desc" ||| ret (VStr "TikTok Video") ;;
        ret (VObj [("status", VStr "tunnel");
                   ("url", url);
                   ("filename", VStr "tiktok_snaptik.mp4");
                   ("title", title)])
  end.

(** Disabled to prevent timeouts and blocking. *)
Definition providerDouyin (url : string) (format quality : value)
    (platform : string) : M value :=
  ret VNull.

(** *** The handler *)

(** A provider function together with its [name] property. *)
Record provider : Type := {
  name : string;
  run : string -> value -> value -> string -> M value
}.

Definition providers : list provider :=
  [ {| name := "providerTikwm"; run := providerTikwm |};
    {| name := "providerSnaptik"; run := providerSnaptik |} ].

(** [result && result.status && result.status !== 'error'], as a boolean. *)
Definition usable (result : value) : M bool :=
  c <- ret result &&& prop result "status"
       &&& (status <- prop result "status" ;;
            ret (VBool (negb (strict_eq status (VStr "error"))))) ;;
  ret (truthy c).

(** One pass through the loop body, [try] and [catch] included.  Returns
    whether the loop was left by [break], and the two loop variables. *)
Definition attempt (p : provider) (url : string) (format quality : value)
    (platform : string) (finalResult lastError : value)
  : M (bool * (value * value)) :=
  try_catch
    (if truthy finalResult then ret (true, (finalResult, lastError)) (* Stop if we have a result *)
     else
       push ("Trying provider: " ++ name p) ;;
       result <- run p url format quality platform ;;
       good <- usable result ;;
       if good : bool then
         push ("Success with " ++ name p) ;;
         ret (true, (result, lastError))
       else
         c <- ret result &&& prop result "text" ;;
         if truthy c then
           text <- prop result "text" ;;
           shown <- str text ;;
           push ("Failed " ++ name p ++ ": " ++ shown) ;;
           ret (false, (finalResult, text))
         else ret (false, (finalResult, lastError)))
    (fun e =>
       push ("Exception " ++ name p ++ ": " ++ message e) ;;
       ret (false, (finalResult, VStr (message e)))).

(** [for (const provider of providers) { ... }]. *)
Fixpoint chain (ps : list provider) (url : string) (format quality : value)
    (platform : string) (finalResult lastError : value) : M (value * value) :=
  match ps with
  | [] => ret (finalResult, lastError)
  | p :: rest =>
      r <- attempt p url format quality platform finalResult lastError ;;
      if fst r then ret (snd r)
      else chain rest url format quality platform (fst (snd r)) (snd (snd r))
  end.

Definition cors : list (string * string) :=
  [("Access-Control-Allow-Origin", "*");
   ("Access-Control-Allow-Methods", "GET, POST, OPTIONS");
   ("Access-Control-Allow-Headers", "Content-Type")].

(** [res.status(n).json(payload)] and [res.status(n).end()]. *)
Definition json (status : Z) (payload : value) : http_response :=
  respond cors status (Some payload).

Definition finish (status : Z) : http_response :=
  respond cors status None.

(** [input.url.trim()]: only a string has a [trim] method. *)
Definition call_trim (u : value) : M string :=
  match u with
  | VStr s => ret (trim s)
  | _ => prop u "trim" ;; throw (TypeError "input.url.trim is not a function")
  end.

(** [if (req.query && req.query.debug) target.debug = debugLog]. *)
Definition attach_debug (req : http_request) (target : value) : M value :=
  flag <- ret (req_query req) &&& prop (req_query req) "debug" ;;
  if truthy flag then
    lines <- read_log ;;
    ret (set target "debug" (VArr (map VStr lines)))
  else ret target.

(** Lines 31 to 46 of the handler: the body is decoded and the request
    fields read.  [None] stands for the early "URL diperlukan" return. *)
Definition read_input (req : http_request) : M (option (string * (value * value))) :=
  let input := req_body req in
  input <- (if (typeof input =? "string")%string
            then try_catch (parse input) (fun e => ret input)
            else ret input) ;;
  missing <- (if negb (truthy input) then ret true
              else if negb (typeof input =? "object")%string then ret true
              else u <- prop input "url" ;; ret (negb (truthy u))) ;;
  if missing : bool then ret None else
  u <- prop input "url" ;;
  url <- call_trim u ;;
  format <- prop input "downloadMode" ||| ret (VStr "auto") ;;
  quality <- prop input "videoQuality" ||| ret (VStr "720") ;;
  ret (Some (url, (format, quality))).

(** Lines 47 to 89 of the handler: the provider chain and its response. *)
Definition resolve (req : http_request) (url : string) (format quality : value)
  : M http_response :=
  new_log ;;
  let platform := detectPlatform url in
  (* TikTok providers chain *)
  r <- chain providers url format quality platform VNull (VStr "") ;;
  let finalResult := fst r in
  let lastError := snd r in
  if truthy finalResult then
    finalResult <- attach_debug req finalResult ;;
    ret (json 200 finalResult)
  else
    reason <- str (or_else lastError (VStr "Server sibuk atau timeout")) ;;
    let errResponse :=
      VObj [("status", VStr "error");
            ("text", VStr ("Gagal memproses link. " ++ reason ++ "."))] in
    errResponse <- attach_debug req errResponse ;;
    ret (json 200 errResponse).

Definition handler (req : http_request) : M http_response :=
  (* Handle OPTIONS (Preflight) *)
  if (req_method req =? "OPTIONS")%string then ret (finish 200)
  (* Handle GET (Health Check) *)
  else if (req_method req =? "GET")%string then
    ret (json 200 (VObj [("status", VStr "ok");
                         ("message", VStr "MediaDownloader API V3 is Online");
                         ("server_time", VStr now_toISOString)]))
  (* Handle invalid methods *)
  else if negb (req_method req =? "POST")%string then
    ret (json 405 (error_result "Method not allowed"))
  else
  try_catch
    (input <- read_input req ;;
     match input with
     | None => ret (json 200 (error_result "URL diperlukan"))
     | Some (url, (format, quality)) => resolve req url format quality
     end)
    (fun globalError =>
       (* Critical Error Handler - Ensure JSON is always returned *)
       text <- str (or_else (VStr (message globalError)) (VStr "Unknown error")) ;;
       ret (json 200
              (VObj [("status", VStr "error");
                     ("text", VStr ("Server Error: " ++ text));
                     ("stack", if strict_eq NODE_ENV (VStr "development")
                               then stack globalError else VUndefined)]))).

End Resolver.
End Index.

(** ** api/filesize.js: the size prober *)

Module Filesize.
Import Js Eff.
Local Open Scope js_scope.

(** [x.toFixed(dm)] for the quotient [x = n / d] of positive integers: the
    numerator of the nearest multiple of [10^-dm], ties going up. *)
Definition toFixed (n d dm : Z) : Z := (2 * n * 10 ^ dm + d) / (2 * d).

(** Drops trailing zero decimals, as [parseFloat] of the fixed notation
    followed by number printing does. *)
Fixpoint shorten (r : Z) (dm : nat) : Z * nat :=
  match dm with
  | O => (r, O)
  | S dm' => if r mod 10 =? 0 then shorten (r / 10) dm' else (r, dm)
  end.

Fixpoint zeros (n : nat) : string :=
  match n with
  | O => ""
  | S n' => "0" ++ zeros n'
  end.

(** Prints [r / 10^dm] without trailing zeros. *)
Definition show_decimal (r : Z) (dm : nat) : string :=
  let '(r, dm) := shorten r dm in
  let whole := string_of_Z (r / 10 ^ Z.of_nat dm) in
  match dm with
  | O => whole
  | _ =>
      let frac := string_of_Z (r mod 10 ^ Z.of_nat dm) in
      whole ++ "." ++ zeros (dm - String.length frac) ++ frac
  end.

(** [formatBytes(bytes, decimals = 2)]; the only call leaves [decimals]
    to its default.  Below 2^49 the floor of the quotient of the logarithms
    is the exact magnitude in base 1024 (the quotient is an integer only at
    a power of 1024, where it is computed exactly, and is otherwise far
    from one), the division by a power of two is exact and so is [toFixed];
    from there on the text is the runtime's [float_text].  For a number
    that is zero, negative, NaN or infinite the logarithm, the quotient and
    the index are NaN or infinite and the function prints
    ["NaN undefined"]. *)
Definition formatBytes `{rt : Runtime} (bytes : value) : outcome string :=
  let decimals := 2 in
  if negb (truthy bytes) then Ret "Unknown"
  else if strict_eq bytes (VNum 0) then Ret "0 Bytes"
  else
    let k := 1024 in
    let dm := if decimals <? 0 then 0 else decimals in
    let sizes := ["Bytes"; "KB"; "MB"; "GB"; "TB"] in
    match to_number bytes with
    | Throw e => Throw e
    | Ret (Some (VNum n)) =>
        if 0 <? n then
          if n <? 2 ^ 49 then
            let i := Z.log2 n / Z.log2 k in
            Ret (show_decimal (toFixed n (k ^ i) dm) (Z.to_nat dm)
                 ++ " " ++ nth (Z.to_nat i) sizes "undefined")
          else Ret (float_text (VNum n))
        else Ret "NaN undefined"
    | Ret (Some _) => Ret "NaN undefined"
    | Ret None => Ret (float_text bytes)
    end.

(** [s.match(/\/(\d+)$/)]: the leftmost slash that is followed by one or
    more digits and then the end of the string; the result is capture
    group 1. *)
Fixpoint match_total (s : string) : option string :=
  match s with
  | EmptyString => None
  | String c rest =>
      if Ascii.eqb c "/" && negb (rest =? "")%string
         && all_digits (list_ascii_of_string rest)
      then Some rest
      else match_total rest
  end.

Section Prober.
Context `{rt : Runtime}.

Definition cors : list (string * string) :=
  [("Access-Control-Allow-Origin", "*");
   ("Access-Control-Allow-Methods", "GET, OPTIONS");
   ("Access-Control-Allow-Headers", "Content-Type")].

Definition json (status : Z) (payload : value) : http_response :=
  respond cors status (Some payload).

Definition finish (status : Z) : http_response :=
  respond cors status None.

Definition chrome_agent : string :=
  "Mozilla/5.0 (Windows NT 10.0; Win64; x64) AppleWebKit/537.36 (KHTML, like Gecko) Chrome/120.0.0.0 Safari/537.36".

(** [response.headers.get(name)]: a string or [null]. *)
Definition header (r : response) (name : string) : value :=
  match headers_get r name with
  | Some s => VStr s
  | None => VNull
  end.

(** [const { url } = req.query]. *)
Definition destructure_url (query : value) : M value :=
  match query with
  | VUndefined | VNull =>
      throw (TypeError ("Cannot destructure property 'url' of 'req.query' as it is "
                        ++ nullish_name query ++ "."))
  | _ => prop query "url"
  end.

Definition handler (req : http_request) : M http_response :=
  if (req_method req =? "OPTIONS")%string then ret (finish 200) else
  url <- destructure_url (req_query req) ;;
  if negb (truthy url) then
    ret (json 400 (VObj [("error", VStr "URL parameter is required")]))
  else
  try_catch
    (target <- str url ;;
     response <- fetch {| rq_url := target;
                          rq_method := Some "HEAD";
                          rq_headers := [("User-Agent", chrome_agent)];
                          rq_body := None;
                          rq_redirect := None |} ;;
     let size := header response "content-length" in
     let type := header response "content-type" in
     (* Fallback: If no size from HEAD, try GET with Range: bytes=0-0 *)
     size <- (if negb (truthy size) && ok response then
                try_catch
                  (rangeResponse <- fetch {| rq_url := target;
                                             rq_method := Some "GET";
                                             rq_headers := [("User-Agent", chrome_agent);
                                                            ("Range", "bytes=0-0")];
                                             rq_body := None;
                                             rq_redirect := None |} ;;
                   if ok rangeResponse then
                     (* Check Content-Range: bytes 0-0/12345 *)
                     let contentRange := header rangeResponse "content-range" in
                     let size :=
                       match contentRange with
                       | VStr s =>
                           if truthy contentRange then
                             match match_total s with
                             | Some total => VStr total
                             | None => size
                             end
                           else size
                       | _ => size
                       end in
                     (* Or sometimes Content-Length of full file is sent even with Range *)
                     let size := if negb (truthy size)
                                 then header rangeResponse "content-length"
                                 else size in
                     ret size
                   else ret size)
                  (fun e => console_error "Range fallback failed:" (message e) ;; ret size)
              else ret size) ;;
     parsed <- (if truthy size then s <- str size ;; ret (parseInt s) else ret VNull) ;;
     formatted <- (if truthy size then lift (formatBytes size) else ret "Unknown") ;;
     ret (json 200 (VObj [("size", parsed);
                          ("type", type);
                          ("formatted", VStr formatted)])))
    (fun error =>
       ret (json 500 (VObj [("error", or_else (VStr (message error))
                                              (VStr "Server error"))]))).

End Prober.
End Filesize.

(** ** A runtime to run the handlers on

    A reader for JSON texts (objects, arrays, strings with the simple
    escapes, integers and the three literals), a fixed clock, and a network
    given by a table of canned answers. *)

Module Lab.
Import Js Eff.

Definition dquote : ascii := ascii_of_nat 34.
Definition backslash : ascii := ascii_of_nat 92.

(** JSON texts are written with apostrophes in place of double quotes. *)
Fixpoint q (s : string) : string :=
  match s with
  | EmptyString => EmptyString
  | String c rest => String (if Ascii.eqb c "'" then dquote else c) (q rest)
  end.

Definition blank (c : ascii) : bool :=
  existsb (Ascii.eqb c) (bytes [32; 9; 10; 13]%nat).

Fixpoint skip (s : list ascii) : list ascii :=
  match s with
  | c :: rest => if blank c then skip rest else s
  | [] => []
  end.

(** The characters of a string up to its closing quote. *)
Fixpoint chars (s acc : list ascii) : option (string * list ascii) :=
  match s with
  | [] => None
  | c :: rest =>
      if Ascii.eqb c dquote then Some (string_of_list_ascii (rev acc), rest)
      else if Ascii.eqb c backslash then
        match rest with
        | e :: rest' =>
            if Ascii.eqb e dquote || Ascii.eqb e backslash || Ascii.eqb e "/"
            then chars rest' (e :: acc)
            else if Ascii.eqb e "n" then chars rest' (ascii_of_nat 10 :: acc)
            else if Ascii.eqb e "t" then chars rest' (ascii_of_nat 9 :: acc)
            else None
        | [] => None
        end
      else chars rest (c :: acc)
  end.

Fixpoint digits (s : list ascii) (acc : Z) : Z * list ascii :=
  match s with
  | c :: rest =>
      if is_digit c then digits rest (10 * acc + (Z.of_nat (nat_of_ascii c) - 48))
      else (acc, s)
  | [] => (acc, [])
  end.

Definition number (negative : bool) (s : list ascii) : option (value * list ascii) :=
  match s with
  | c :: _ =>
      if is_digit c then
        let '(n, rest) := digits s 0 in
        Some (from_integer negative n, rest)
      else None
  | [] => None
  end.

Fixpoint element (fuel : nat) (s : list ascii) : option (value * list ascii) :=
  match fuel with
  | O => None
  | S fuel =>
      match skip s with
      | "{"%char :: r =>
          match skip r with
          | "}"%char :: r' => Some (VObj [], r')
          | _ => members fuel r []
          end
      | "["%char :: r =>
          match skip r with
          | "]"%char :: r' => Some (VArr [], r')
          | _ => items fuel r []
          end
      | "t"%char :: "r"%char :: "u"%char :: "e"%char :: r => Some (VBool true, r)
      | "f"%char :: "a"%char :: "l"%char :: "s"%char :: "e"%char :: r =>
          Some (VBool false, r)
      | "n"%char :: "u"%char :: "l"%char :: "l"%char :: r => Some (VNull, r)
      | "-"%char :: r => number true r
      | c :: r =>
          if Ascii.eqb c dquote then
            match chars r [] with
            | Some (text, r') => Some (VStr text, r')
            | None => None
            end
          else number false (c :: r)
      | [] => None
      end
  end
with members (fuel : nat) (s : list ascii) (acc : list (string * value))
  : option (value * list ascii) :=
  match fuel with
  | O => None
  | S fuel =>
      match skip s with
      | c :: r =>
          if Ascii.eqb c dquote then
            match chars r [] with
            | Some (key, r1) =>
                match skip r1 with
                | ":"%char :: r2 =>
                    match element fuel r2 with
                    | Some (v, r3) =>
                        let acc := assign key v acc in
                        match skip r3 with
                        | ","%char :: r4 => members fuel r4 acc
                        | "}"%char :: r4 => Some (VObj acc, r4)
                        | _ => None
                        end
                    | None => None
                    end
                | _ => None
                end
            | None => None
            end
          else None
      | [] => None
      end
  end
with items (fuel : nat) (s : list ascii) (acc : list value)
  : option (value * list ascii) :=
  match fuel with
  | O => None
  | S fuel =>
      match element fuel s with
      | Some (v, r) =>
          match skip r with
          | ","%char :: r' => items fuel r' (acc ++ [v])%list
          | "]"%char :: r' => Some (VArr (acc ++ [v])%list, r')
          | _ => None
          end
      | None => None
      end
  end.

Definition JSON_parse (text : string) : outcome value :=
  let s := list_ascii_of_string text in
  match element (S (List.length s)) s with
  | Some (v, rest) =>
      match skip rest with
      | [] => Ret v
      | _ => Throw (SyntaxError "Unexpected non-whitespace character after JSON")
      end
  | None => Throw (SyntaxError "Unexpected token in JSON")
  end.

(** A response with the given headers and body. *)
Definition reply (is_ok : bool) (headers : list (string * string)) (body : string)
  : fetched :=
  Resolved {| ok := is_ok; headers_get := fun name => lookup name headers;
              text := Ret body |}.

Definition unreachable : fetched := Rejected (FetchError "fetch failed").

Definition same_method (m : option string) (name : string) : bool :=
  match m with
  | Some n => (n =? name)%string
  | None => (name =? "GET")%string
  end.

(** A network that answers by method and URL from a table and is down for
    everything else. *)
Fixpoint serves (table : list (string * string * fetched))
    (history : list request) (rq : request) : fetched :=
  match table with
  | [] => unreachable
  | (m, url, answer) :: rest =>
      if same_method (rq_method rq) m && (rq_url rq =? url)%string then answer
      else serves rest history rq
  end.

(** A runtime for sample runs, none of which formats a size of 2^49 or
    more or a header in another notation. *)
Definition runtime (net : list request -> request -> fetched) : Runtime :=
  {| Eff.JSON_parse := JSON_parse;
     now_toISOString := "2024-01-01T00:00:00.000Z";
     NODE_ENV := VStr "production";
     stack := fun e => VStr ("TypeError: " ++ message e);
     network := net;
     float_text := fun _ => "NaN undefined" |}.

End Lab.

(** ** Sample requests and networks *)

Module Sample.
Import Js Eff Lab.

Definition tiktok_url : string := "https://www.tiktok.com/@a/video/1".

Definition tikwm_api : string := "https://www.tikwm.com/api/".

(** A TikTok URL that ends in an unpaired surrogate (U+D800). *)
Definition broken_url : string :=
  "https://www.tiktok.com/@a/video/"
  ++ String (ascii_of_nat 237) (String (ascii_of_nat 160) (String (ascii_of_nat 128) "")).

Definition media_request : http_request :=
  {| req_method := "POST";
     req_body := VObj [("url", VStr tiktok_url)];
     req_query := VObj [] |}.

(** TikWM answers the POST with a playable video. *)
Definition tikwm_up : Runtime :=
  runtime
    (serves
       [("POST", tikwm_api,
         reply true []
           (q "{'code':0,'data':{'id':'77','play':'https://v.example/a.mp4','music':'https://v.example/a.mp3'}}"))]).

(** TikWM refuses with a message; nothing else is reachable. *)
Definition tikwm_limited : Runtime :=
  runtime
    (serves
       [("POST", tikwm_api, reply true [] (q "{'code':-1,'msg':'rate limit'}"))]).

(** TikWM answers the POST with the JSON text [null]. *)
Definition tikwm_null : Runtime :=
  runtime (serves [("POST", tikwm_api, reply true [] "null")]).

(** Snaptik reports success and gives no URL. *)
Definition snaptik_bare : Runtime :=
  runtime
    (serves
       [("POST", "https://api.tik.fail/api/grab",
         reply true [] (q "{'status':'success'}"))]).

Definition file_url : string := "https://files.example/clip.mp4".

Definition probe_request : http_request :=
  {| req_method := "GET";
     req_body := VUndefined;
     req_query := VObj [("url", VStr file_url)] |}.

(** The HEAD succeeds without a content-length; the ranged GET is answered
    206 with the total in its content-range. *)
Definition ranged_ok : Runtime :=
  runtime
    (serves
       [("HEAD", file_url, reply true [("content-type", "video/mp4")] "");
        ("GET", file_url, reply true [("content-range", "bytes 0-0/500000")] "x")]).

(** The same, but the ranged GET is answered with an error status. *)
Definition ranged_refused : Runtime :=
  runtime
    (serves
       [("HEAD", file_url, reply true [("content-type", "video/mp4")] "");
        ("GET", file_url, reply false [("content-range", "bytes 0-0/500000")] "")]).

End Sample.

(** ** Vocabulary of the statements *)

Module Spec.
Import Js Eff.

(** [c] run from [st] returns [a] and leaves the state alone. *)
Definition yields {A} (c : M A) (st : state) (a : A) : Prop := c st = (Ret a, st).

(** [c] never changes the state. *)
Definition stateless {A} (c : M A) : Prop := forall st, snd (c st) = st.

(** ToString succeeds on [v]. *)
Definition printable (v : value) : Prop := exists s, to_string v = Ret s.

(** The test [result && result.status && result.status !== 'error'] of the
    provider loop on a result already in hand. *)
Definition accepted (result : value) : bool :=
  truthy result && truthy (peek result "status")
  && negb (strict_eq (peek result "status") (VStr "error")).

(** A failure envelope: status "error" and a text. *)
Definition error_envelope (payload : value) : Prop :=
  peek payload "status" = VStr "error" /\ exists t, peek payload "text" = VStr t.

(** Whether the request asks for the trace, and the payload once
    [attach_debug] went over it. *)
Definition debug_requested (req : http_request) : bool :=
  truthy (and_then (req_query req) (peek (req_query req) "debug")).

Definition with_debug (req : http_request) (lines : list string) (payload : value)
  : value :=
  if debug_requested req then set payload "debug" (VArr (map VStr lines))
  else payload.

(** The state in which the provider loop starts: [debugLog] is new. *)
Definition fresh (st : state) : state :=
  {| debugLog := []; sent := sent st; console := console st |}.

(** What a provider that does not succeed returns: [null], or an error
    result with a text. *)
Inductive failure : Type :=
| Declined
| Failed (text : string).

Definition result_of (f : failure) : value :=
  match f with
  | Declined => VNull
  | Failed t => Index.error_result t
  end.

(** The loop records the text of an error result unless it is empty. *)
Definition recorded (f : failure) (previous : string) : string :=
  match f with
  | Failed t => if (t =? "")%string then previous else t
  | Declined => previous
  end.

Definition after_failure (name : string) (f : failure) (st : state) : state :=
  match f with
  | Failed t =>
      if (t =? "")%string then st
      else logged ("Failed " ++ name ++ ": " ++ t) st
  | Declined => st
  end.

(** The result with which a provider's run wins the loop, if it does: one
    that is truthy, with a truthy status other than "error". *)
Definition won (run : outcome value * state) : option value :=
  match fst run with
  | Ret r => if accepted r then Some r else None
  | Throw _ => None
  end.

(** The state in which the loop leaves a run that did not win: a thrown
    exception is logged, and so is the text of a result that has one
    (building that line can throw in turn, which is logged instead). *)
Definition noted (name : string) (run : outcome value * state) : state :=
  match run with
  | (Throw e, s) => logged ("Exception " ++ name ++ ": " ++ message e) s
  | (Ret r, s) =>
      if truthy r && truthy (peek r "text") then
        match to_string (peek r "text") with
        | Ret t => logged ("Failed " ++ name ++ ": " ++ t) s
        | Throw e => logged ("Exception " ++ name ++ ": " ++ message e) s
        end
      else s
  end.

(** The text of the failure envelope for the last recorded message. *)
Definition failure_text (last : string) : string :=
  "Gagal memproses link. "
  ++ (if (last =? "")%string then "Server sibuk atau timeout" else last) ++ ".".

Definition variant_order : list string :=
  ["video-hd"; "video-sd"; "audio"; "video-watermark"].

(** [l] is [order] with some entries left out. *)
Fixpoint subsequence (l order : list string) : bool :=
  match l, order with
  | [], _ => true
  | _ :: _, [] => false
  | x :: l', y :: order' =>
      if (x =? y)%string then subsequence l' order' else subsequence l order'
  end.

(** The [type] of a variant entry. *)
Definition kind (v : value) : string :=
  match peek v "type" with VStr s => s | _ => "" end.

(** The platforms and their patterns, in the order [detectPlatform] tries
    them. *)
Definition platforms : list (Regex.regex * string) :=
  [ (Index.tiktok_re, "tiktok"); (Index.youtube_re, "youtube");
    (Index.instagram_re, "instagram"); (Index.twitter_re, "twitter");
    (Index.facebook_re, "facebook") ].

(** [m] spells the word [w] up to the case of its letters. *)
Fixpoint spells (w m : string) : bool :=
  match w, m with
  | EmptyString, EmptyString => true
  | String c w', String d m' => Regex.same true c d && spells w' m'
  | _, _ => false
  end.

(** [s] contains the word [w], ignoring case. *)
Definition mentions (s w : string) : Prop :=
  exists pre m post, s = pre ++ m ++ post /\ spells w m = true.

Definition snaptik_endpoint : string := "https://api.tik.fail/api/grab".

(** What [fetchUrl] makes of the network's answer. *)
Definition fetched_text (answer : fetched) : value :=
  match answer with
  | Resolved r => match text r with Ret t => VStr t | Throw _ => VNull end
  | Rejected _ => VNull
  end.

Section Attempts.
Context `{rt : Runtime}.

(** The JSON value an attempt yields: the body text, parsed.  An attempt
    with no response, no readable body, an empty body or a body that does
    not parse yields none. *)
Definition json_of (answer : fetched) : option value :=
  match answer with
  | Resolved r =>
      match text r with
      | Ret t =>
          if (t =? "")%string then None
          else match JSON_parse t with Ret v => Some v | Throw _ => None end
      | Throw _ => None
      end
  | Rejected _ => None
  end.

(** The two requests of the TikWM adapter; the second exists when
    [encodeURIComponent] returns. *)
Definition tikwm_post (url : string) : request :=
  Index.finalOptions "https://www.tikwm.com/api/"
    {| Index.method := Some "POST";
       Index.headers := Some
         [("Content-Type", "application/x-www-form-urlencoded");
          ("Accept", "application/json");
          ("User-Agent", "Mozilla/5.0 (Windows NT 10.0; Win64; x64) AppleWebKit/537.36")];
       Index.body := Some (URLSearchParams [("url", url); ("hd", "1")]) |}.

Definition tikwm_get (url : string) : request :=
  Index.finalOptions
    ("https://www.tikwm.com/api/" ++ "?url=" ++ percent_encode url ++ "&hd=1")
    Index.no_options.

(** The answers the network gives to them from state [st]. *)
Definition post_answer (url : string) (st : state) : fetched :=
  network (sent st) (tikwm_post url).

Definition get_answer (url : string) (st : state) : fetched :=
  network (sent st ++ [tikwm_post url]) (tikwm_get url).

(** [data] after the POST, whether the adapter goes on to the GET, and
    [data] as line 130 reads it.  The adapter does not get that far when
    the URL of the GET cannot be built: there is no payload then, and
    [final_data] is [null]. *)
Definition first_data (url : string) (st : state) : value :=
  match json_of (post_answer url st) with Some v => v | None => VNull end.

Definition retried (url : string) (st : state) : bool :=
  negb (truthy (first_data url st))
  || (negb (strict_eq (peek (first_data url st) "code") VUndefined)
      && negb (strict_eq (peek (first_data url st) "code") (VNum 0))).

Definition final_data (url : string) (st : state) : value :=
  if retried url st then
    if lone_surrogate url then VNull
    else
      match json_of (get_answer url st) with
      | Some v => v
      | None => first_data url st
      end
  else first_data url st.

(** The adapter leaves on the URIError of [encodeURIComponent]. *)
Definition gives_up (url : string) (st : state) : bool :=
  retried url st && lone_surrogate url.

Definition malformed : exn := URIError "URI malformed".

Definition tikwm_state (url : string) (st : state) : state :=
  let st1 := sending (tikwm_post url) (logged "TikWM trying POST" st) in
  if retried url st
  then
    let st2 := logged "TikWM POST failed/empty, trying GET" st1 in
    if lone_surrogate url then st2 else sending (tikwm_get url) st2
  else st1.

(** The retry rule as the specification words it: a GET follows exactly
    when the POST yields no parseable JSON, or a payload whose code field
    is defined and not zero. *)
Definition retry_rule_as_stated (url : string) (st : state) : Prop :=
  In (tikwm_get url)
     (sent (snd (Index.providerTikwm url (VStr "auto") (VStr "720") "tiktok" st)))
  <-> (json_of (post_answer url st) = None
       \/ exists payload,
            json_of (post_answer url st) = Some payload
            /\ peek payload "code" <> VUndefined
            /\ peek payload "code" <> VNum 0).

(** The request of the Snaptik adapter. *)
Definition snaptik_post (url : string) : request :=
  Index.finalOptions snaptik_endpoint
    {| Index.method := Some "POST";
       Index.headers := Some [("Content-Type", "application/x-www-form-urlencoded")];
       Index.body := Some (URLSearchParams [("url", url)]) |}.

(** The two requests of the size prober. *)
Definition head_request (target : string) : request :=
  {| rq_url := target;
     rq_method := Some "HEAD";
     rq_headers := [("User-Agent", Filesize.chrome_agent)];
     rq_body := None;
     rq_redirect := None |}.

Definition range_request (target : string) : request :=
  {| rq_url := target;
     rq_method := Some "GET";
     rq_headers := [("User-Agent", Filesize.chrome_agent); ("Range", "bytes=0-0")];
     rq_body := None;
     rq_redirect := None |}.

(** The [size] the range fallback settles on, from [null]. *)
Definition fallback_size (answer : fetched) : value :=
  match answer with
  | Rejected _ => VNull
  | Resolved ranged =>
      if ok ranged then
        let size :=
          match headers_get ranged "content-range" with
          | Some s =>
              if (s =? "")%string then VNull
              else match Filesize.match_total s with
                   | Some total => VStr total
                   | None => VNull
                   end
          | None => VNull
          end in
        if truthy size then size else Filesize.header ranged "content-length"
      else VNull
  end.

(** A field of the payload a handler run answered with. *)
Definition reported {S : Type} (field : string) (run : outcome http_response * S)
  : option value :=
  match fst run with
  | Ret res =>
      match res_body res with
      | Some payload => Some (peek payload field)
      | None => None
      end
  | Throw _ => None
  end.

(** The size rule as the specification words it: after a HEAD that
    succeeded without a content-length, a ranged GET whose content-range is
    "bytes 0-0/500000" makes the reported size 500000. *)
Definition range_rule_as_stated (req : http_request) (target : string) (st : state)
  : Prop :=
  forall head ranged,
    network (sent st) (head_request target) = Resolved head ->
    ok head = true ->
    headers_get head "content-length" = None ->
    network (sent st ++ [head_request target]) (range_request target)
      = Resolved ranged ->
    headers_get ranged "content-range" = Some "bytes 0-0/500000" ->
    reported "size" (Filesize.handler req st) = Some (VNum 500000).

(** A run of the provider loop in which no provider succeeds: each one
    in turn, started after its "Trying provider" line, returns [null] or an
    error result.  The run leads from a state and the message recorded so
    far to the state and the message recorded in the end. *)
Inductive all_fail (url : string) (format quality : value) (platform : string)
  : list Index.provider -> state -> string -> state -> string -> Prop :=
| all_fail_nil st last : all_fail url format quality platform [] st last st last
| all_fail_cons p ps st last f s1 st' last' :
    Index.run p url format quality platform
      (logged ("Trying provider: " ++ Index.name p) st) = (Ret (result_of f), s1) ->
    all_fail url format quality platform ps
      (after_failure (Index.name p) f s1) (recorded f last) st' last' ->
    all_fail url format quality platform (p :: ps) st last st' last'.

End Attempts.

End Spec.

(** ** Vocabulary for the rest of the code *)

Module Cover.
Import Js Eff Spec.

Section Decoding.
Context `{rt : Runtime}.

(** The request body once the handler has decoded it: a string body is
    replaced by what it parses to, and kept when it does not parse. *)
Definition decoded (body : value) : value :=
  match body with
  | VStr s => match JSON_parse s with Ret v => v | Throw _ => body end
  | _ => body
  end.

End Decoding.

(** The error the handler's last resort reports, with the stack only in
    development. *)
Definition server_error `{rt : Runtime} (e : exn) : value :=
  VObj [("status", VStr "error");
        ("text", VStr ("Server Error: "
                       ++ (if (message e =? "")%string then "Unknown error"
                           else message e)));
        ("stack", if strict_eq NODE_ENV (VStr "development")
                  then stack e else VUndefined)].

Definition not_a_function : exn := TypeError "input.url.trim is not a function".

(** The failure envelope of the resolver. *)
Definition envelope (last : string) : value :=
  VObj [("status", VStr "error"); ("text", VStr (failure_text last))].

(** The [url] of a variant entry. *)
Definition link (v : value) : value := peek v "url".

(** The lists of variant types a tunnel result can carry. *)
Definition variant_shapes : list (list string) :=
  [ ["video-hd"; "video-sd"; "audio"];
    ["video-hd"; "video-sd"; "audio"; "video-watermark"];
    ["audio"];
    ["video-watermark"];
    ["audio"; "video-watermark"] ].

(** The first non-empty of the four URL fields, in the order the primary
    URL is chosen. *)
Definition primary (video : value) : value :=
  or_else (or_else (or_else (peek video "hdplay") (peek video "play"))
                   (peek video "wmplay"))
          (peek video "music").

(** [c] sends nothing. *)
Definition keeps_sent {A} (c : M A) : Prop := forall st, sent (snd (c st)) = sent st.

(** The sequences of requests one invocation of the resolver can send for
    the URL [url]: TikWM's POST, then perhaps its GET, then perhaps
    Snaptik's POST. *)
Definition request_patterns `{rt : Runtime} (url : string) : list (list request) :=
  [ [];
    [tikwm_post url];
    [tikwm_post url; tikwm_get url];
    [tikwm_post url; snaptik_post url];
    [tikwm_post url; tikwm_get url; snaptik_post url] ].

(** The integer a run of decimal digits spells. *)
Definition spelled (d : string) : Z :=
  fold_left (fun a c => 10 * a + (Z.of_nat (nat_of_ascii c) - 48))
    (list_ascii_of_string d) 0.

(** The state after [console.error(a, b)]. *)
Definition printed (a b : string) (st : state) : state :=
  {| debugLog := debugLog st; sent := sent st;
     console := console st ++ [a ++ " " ++ b] |}.

(** The payload of the prober for a settled [size] and [type]. *)
Definition probe_payload (size type : value) (formatted : string) : value :=
  VObj [("size", size); ("type", type); ("formatted", VStr formatted)].

End Cover.

(** ** More sample requests and networks *)

Module Trial.
Import Js Eff Lab Sample.

(** Nothing can be reached. *)
Definition offline : Runtime := runtime (serves []).

(** A POST whose body is a string that is not JSON. *)
Definition malformed_request : http_request :=
  {| req_method := "POST"; req_body := VStr "{oops"; req_query := VObj [] |}.

(** A POST whose [url] is a number. *)
Definition numeric_request : http_request :=
  {| req_method := "POST";
     req_body := VObj [("url", VNum 5)];
     req_query := VObj [] |}.

Definition youtube_url : string := "https://youtu.be/abc".

(** A POST for a YouTube link that asks for the trace. *)
Definition youtube_request : http_request :=
  {| req_method := "POST";
     req_body := VObj [("url", VStr youtube_url)];
     req_query := VObj [("debug", VStr "1")] |}.

(** TikWM is down; Snaptik has the video. *)
Definition snaptik_only : Runtime :=
  runtime
    (serves
       [("POST", "https://api.tik.fail/api/grab",
         reply true []
           (q "{'status':'success','video':'https://v.example/b.mp4'}"))]).

(** TikWM reports code 0 without any data; Snaptik is down. *)
Definition tikwm_empty : Runtime :=
  runtime (serves [("POST", tikwm_api, reply true [] (q "{'code':0}"))]).

(** Snaptik answers with a status other than "success". *)
Definition snaptik_refuses : Runtime :=
  runtime
    (serves
       [("POST", "https://api.tik.fail/api/grab",
         reply true [] (q "{'status':'error'}"))]).

(** A probe without the [url] parameter, and one without any query. *)
Definition bare_probe : http_request :=
  {| req_method := "GET"; req_body := VUndefined; req_query := VObj [] |}.

Definition queryless_probe : http_request :=
  {| req_method := "GET"; req_body := VUndefined; req_query := VUndefined |}.

(** The HEAD is answered 404, with the length of the error page. *)
Definition sized_error : Runtime :=
  runtime (serves [("HEAD", file_url, reply false [("content-length", "2048")] "")]).

(** The HEAD is answered 404 without a length. *)
Definition missing_file : Runtime :=
  runtime (serves [("HEAD", file_url, reply false [("content-type", "text/html")] "")]).

(** The HEAD succeeds without a content-length; the ranged GET fails. *)
Definition head_only : Runtime :=
  runtime (serves [("HEAD", file_url, reply true [("content-type", "video/mp4")] "")]).

End Trial.

(** ** Facts about the monad and the value operations *)

Import Js Eff Spec.
Local Open Scope js_scope.

Section MonadFacts.

Lemma bind_yields {A B} (c : M A) (k : A -> M B) st a :
  yields c st a -> bind c k st = k a st.
Proof. unfold yields, bind. intros ->. reflexivity. Qed.

Lemma yields_ret {A} (a : A) st : yields (ret a) st a.
Proof. reflexivity. Qed.

Lemma yields_bind {A B} (c : M A) (k : A -> M B) st a b :
  yields c st a -> yields (k a) st b -> yields (bind c k) st b.
Proof. unfold yields. intros Hc Hk. rewrite (bind_yields _ _ _ _ Hc). exact Hk. Qed.

Lemma bind_lift {A B} (o : outcome A) (k : A -> M B) st :
  bind (lift o) k st = match o with Ret a => k a st | Throw e => (Throw e, st) end.
Proof. destruct o; reflexivity. Qed.

Lemma get_peek v k : nullish v = false -> get v k = Ret (peek v k).
Proof.
  destruct v; simpl; try discriminate; try reflexivity.
  intros _. destruct (lookup k fields); reflexivity.
Qed.

Lemma get_opt_peek v k : get_opt v k = Ret (peek v k).
Proof.
  destruct v; simpl; try reflexivity.
  destruct (lookup k fields); reflexivity.
Qed.

Lemma truthy_not_nullish v : truthy v = true -> nullish v = false.
Proof. destruct v; simpl; congruence. Qed.

Lemma yields_prop v k st : nullish v = false -> yields (prop v k) st (peek v k).
Proof. intros H. unfold yields, prop, lift. rewrite (get_peek _ _ H). reflexivity. Qed.

Lemma yields_prop_opt v k st : yields (prop_opt v k) st (peek v k).
Proof. unfold yields, prop_opt, lift. rewrite get_opt_peek. reflexivity. Qed.

Lemma yields_str v st s : to_string v = Ret s -> yields (str v) st s.
Proof. intros H. unfold yields, str, lift. rewrite H. reflexivity. Qed.

Lemma yields_or (a b : M value) st x y :
  yields a st x -> yields b st y -> yields (a ||| b) st (or_else x y).
Proof.
  unfold orM, or_else, yields. intros Ha Hb. rewrite (bind_yields _ _ _ _ Ha).
  destruct (truthy x); [reflexivity | exact Hb].
Qed.

Lemma yields_and (a b : M value) st x y :
  yields a st x -> (truthy x = true -> yields b st y) ->
  yields (a &&& b) st (and_then x y).
Proof.
  unfold andM, and_then, yields. intros Ha Hb. rewrite (bind_yields _ _ _ _ Ha).
  destruct (truthy x); [exact (Hb eq_refl) | reflexivity].
Qed.

(** Statelessness is preserved by every combinator. *)

Lemma stateless_ret {A} (a : A) : stateless (ret a).
Proof. intros st. reflexivity. Qed.

Lemma stateless_throw {A} e : stateless (@throw A e).
Proof. intros st. reflexivity. Qed.

Lemma stateless_lift {A} (o : outcome A) : stateless (lift o).
Proof. intros st. reflexivity. Qed.

Lemma stateless_bind {A B} (c : M A) (k : A -> M B) :
  stateless c -> (forall a, stateless (k a)) -> stateless (bind c k).
Proof.
  intros Hc Hk st. unfold bind. specialize (Hc st).
  destruct (c st) as [[a | e] st1]; simpl in *; subst; [apply Hk | reflexivity].
Qed.

Lemma stateless_try {A} (c : M A) (h : exn -> M A) :
  stateless c -> (forall e, stateless (h e)) -> stateless (try_catch c h).
Proof.
  intros Hc Hh st. unfold try_catch. specialize (Hc st).
  destruct (c st) as [[a | e] st1]; simpl in *; subst; [reflexivity | apply Hh].
Qed.

Lemma stateless_or (a b : M value) : stateless a -> stateless b -> stateless (a ||| b).
Proof.
  intros Ha Hb. apply stateless_bind; [exact Ha |].
  intros x. destruct (truthy x); [apply stateless_ret | exact Hb].
Qed.

Lemma stateless_and (a b : M value) : stateless a -> stateless b -> stateless (a &&& b).
Proof.
  intros Ha Hb. apply stateless_bind; [exact Ha |].
  intros x. destruct (truthy x); [exact Hb | apply stateless_ret].
Qed.

Lemma stateless_prop v k : stateless (prop v k).
Proof. apply stateless_lift. Qed.

Lemma stateless_prop_opt v k : stateless (prop_opt v k).
Proof. apply stateless_lift. Qed.

Lemma stateless_str v : stateless (str v).
Proof. apply stateless_lift. Qed.

Lemma stateless_if {A} (b : bool) (c d : M A) :
  stateless c -> stateless d -> stateless (if b then c else d).
Proof. destruct b; auto. Qed.

(** A stateless computation is determined by its completion. *)
Lemma stateless_run {A} (c : M A) st : stateless c -> c st = (fst (c st), st).
Proof. intros H. specialize (H st). destruct (c st); simpl in *; subst; reflexivity. Qed.

End MonadFacts.

Create HintDb yields.
#[export] Hint Resolve yields_ret yields_prop yields_prop_opt yields_str yields_or
  yields_and yields_bind truthy_not_nullish : yields.

Create HintDb stateless.
#[export] Hint Resolve stateless_ret stateless_throw stateless_lift stateless_bind
  stateless_try stateless_or stateless_and stateless_prop stateless_prop_opt
  stateless_str stateless_if : stateless.

Ltac pure_in H :=
  erewrite bind_yields in H by (eauto 10 with yields).

Ltac pure_goal :=
  erewrite bind_yields by (eauto 10 with yields).

Ltac branch_in H :=
  match type of H with
  | context [if truthy ?x then _ else _] => destruct (truthy x) eqn:?
  end.

(** ** The utilities: [fetchUrl], [detectPlatform], [formatBytes] *)

Section UtilityFacts.
Context `{rt : Runtime}.

(** What a call of [fetchUrl] amounts to: the request goes out, and the
    result is the body text if there is one and [null] otherwise. *)
Lemma fetchUrl_run (url : string) (options : Index.fetch_options) (st : state) :
  Index.fetchUrl url options st =
    (Ret (fetched_text (network (sent st) (Index.finalOptions url options))),
     sending (Index.finalOptions url options) st).
Proof.
  unfold Index.fetchUrl, try_catch, bind, fetch, lift, ret, fetched_text.
  destruct (network (sent st) (Index.finalOptions url options)) as [e | r];
    [reflexivity |].
  destruct (text r); reflexivity.
Qed.

(** C9. [fetchUrl] returns normally from every state, for every URL and
    options and whatever the network does: when [fetch] rejects (network
    error, abort by the timer) or the body cannot be read it returns
    [null], otherwise the body text.  No exception reaches the caller. *)
Theorem fetchUrl_never_throws (url : string) (options : Index.fetch_options)
    (st : state) :
  exists result : value,
    Index.fetchUrl url options st
      = (Ret result, sending (Index.finalOptions url options) st)
    /\ result
       = match network (sent st) (Index.finalOptions url options) with
         | Rejected _ => VNull
         | Resolved r =>
             match text r with
             | Ret body => VStr body
             | Throw _ => VNull
             end
         end.
Proof.
  eexists. split; [apply fetchUrl_run |].
  unfold fetched_text.
  destruct (network (sent st) (Index.finalOptions url options)); reflexivity.
Qed.

(** The matcher on a literal word: a case-insensitive substring search. *)

Lemma accept_word (w s : string) (k : string -> bool) :
  Regex.accept true (Regex.word w) s k = true
  <-> exists m rest, s = m ++ rest /\ spells w m = true /\ k rest = true.
Proof.
  revert s k. induction w as [| c w IH]; intros s k; simpl.
  - split.
    + intros H. exists "", s. auto.
    + intros (m & rest & -> & Hm & Hk). destruct m; [exact Hk | discriminate].
  - destruct s as [| d s]; simpl.
    + split; [discriminate |].
      intros (m & rest & Hs & Hm & _). destruct m; discriminate.
    + rewrite andb_true_iff, IH. split.
      * intros (Hc & m & rest & -> & Hm & Hk).
        exists (String d m), rest. simpl. rewrite Hc, Hm. auto.
      * intros (m & rest & Hs & Hm & Hk).
        destruct m as [| d' m]; [discriminate |].
        simpl in Hs. injection Hs as <- ->.
        apply andb_true_iff in Hm. destruct Hm as [Hc Hm].
        split; [exact Hc |]. exists m, rest. auto.
Qed.

Lemma test_search (r : Regex.regex) (s : string) :
  Regex.test true r s = true
  <-> exists pre post,
        s = pre ++ post /\ Regex.accept true r post (fun _ => true) = true.
Proof.
  induction s as [| c s IH]; simpl.
  - rewrite orb_false_r. split.
    + intros H. exists "", "". auto.
    + intros (pre & post & Hs & H).
      destruct pre; [| discriminate]. simpl in Hs. subst post. exact H.
  - rewrite orb_true_iff, IH. split.
    + intros [H | (pre & post & -> & H)].
      * exists "", (String c s). auto.
      * exists (String c pre), post. auto.
    + intros (pre & post & Hs & H). destruct pre as [| c' pre]; simpl in Hs.
      * left. subst post. exact H.
      * injection Hs as <- ->. right. exists pre, post. auto.
Qed.

Lemma test_word (w s : string) :
  Regex.test true (Regex.word w) s = true <-> mentions s w.
Proof.
  unfold mentions. rewrite test_search. split.
  - intros (pre & post & -> & H). apply accept_word in H.
    destruct H as (m & rest & -> & Hm & _). exists pre, m, rest. auto.
  - intros (pre & m & post & -> & Hm). exists pre, (m ++ post).
    split; [reflexivity |]. apply accept_word. exists m, post. auto.
Qed.

(** A URL is TikTok's exactly when it mentions tiktok.com. *)
Lemma detectPlatform_tiktok (url : string) :
  Index.detectPlatform url = "tiktok" <-> mentions url "tiktok.com".
Proof.
  rewrite <- test_word. unfold Index.detectPlatform.
  change (Regex.word "tiktok.com") with Index.tiktok_re.
  destruct (Regex.test true Index.tiktok_re url); [tauto |].
  repeat match goal with
         | |- context [if ?b then _ else _] => destruct b
         end; split; discriminate.
Qed.

Lemma detectPlatform_find (url : string) :
  Index.detectPlatform url =
    match find (fun p => Regex.test true (fst p) url) platforms with
    | Some p => snd p
    | None => "unknown"
    end.
Proof.
  unfold Index.detectPlatform, platforms. simpl.
  repeat match goal with
         | |- context [if Regex.test true ?r url then _ else _] =>
             destruct (Regex.test true r url); [reflexivity |]
         end.
  reflexivity.
Qed.

(** C5. For every string [detectPlatform] returns (it is a total
    function, nothing is thrown) one of the six platform names: the name
    of the first pattern, in the order tiktok, youtube, instagram, twitter,
    facebook, that matches the string ignoring case, and "unknown" when no
    pattern matches. *)
Theorem detectPlatform_first_match (url : string) :
  In (Index.detectPlatform url)
     ["tiktok"; "youtube"; "instagram"; "twitter"; "facebook"; "unknown"]
  /\ Index.detectPlatform url =
       match find (fun p => Regex.test true (fst p) url) platforms with
       | Some p => snd p
       | None => "unknown"
       end
  /\ (forallb (fun p => negb (Regex.test true (fst p) url)) platforms = true ->
      Index.detectPlatform url = "unknown").
Proof.
  split; [| split].
  - unfold Index.detectPlatform.
    repeat match goal with
           | |- context [if ?b then _ else _] => destruct b
           end; simpl; tauto.
  - apply detectPlatform_find.
  - intros Hnone. rewrite detectPlatform_find.
    destruct (find _ platforms) as [p |] eqn:Hfind; [| reflexivity].
    apply find_some in Hfind. destruct Hfind as [Hin Hp].
    rewrite forallb_forall in Hnone. specialize (Hnone p Hin).
    rewrite Hp in Hnone. discriminate.
Qed.

End UtilityFacts.

(** C5, on a URL of no known platform. *)
Lemma detectPlatform_first_match_witness :
  forallb (fun p => negb (Regex.test true (fst p) "https://example.org/clip"))
          platforms = true
  /\ Index.detectPlatform "https://example.org/clip" = "unknown".
Proof.
  split; [reflexivity |].
  apply (proj2 (proj2 (detectPlatform_first_match "https://example.org/clip"))).
  reflexivity.
Defined.

Example detectPlatform_ignores_case :
  Index.detectPlatform "HTTPS://VM.TikTok.COM/abc" = "tiktok".
Proof. reflexivity. Qed.

Example detectPlatform_short_youtube :
  Index.detectPlatform "https://youtu.be/abc" = "youtube".
Proof. reflexivity. Qed.

Example detectPlatform_priority :
  Index.detectPlatform "https://www.youtube.com/redirect?q=tiktok.com" = "tiktok".
Proof. reflexivity. Qed.

Example detectPlatform_substring :
  Index.detectPlatform "https://netflix.com/title/1" = "twitter".
Proof. reflexivity. Qed.

(** Numbers beyond 2^53 are read and printed as doubles are. *)
Example parseInt_rounds :
  parseInt "9007199254740993" = VNum 9007199254740992
  /\ parseInt (string_of_list_ascii (repeat "9"%char 309)) = VInf false.
Proof. split; vm_compute; reflexivity. Qed.

Example to_string_of_doubles :
  map to_string [VNum 7123456789012345678; VNum (2 ^ 53); VNum (10 ^ 21);
                 VNum (12345 * 10 ^ 21); VNum (- 2 ^ 64)]
  = map Ret ["7123456789012346000"; "9007199254740992"; "1e+21"; "1.2345e+25";
             "-18446744073709552000"].
Proof. vm_compute. reflexivity. Qed.

Example string_to_number_notations :
  map string_to_number [""; " 12 "; "-Infinity"; "abc"; "1e3"; "12.5"; "0x10"]
  = [Some (VNum 0); Some (VNum 12); Some (VInf true); Some VNaN; None; None; None].
Proof. vm_compute. reflexivity. Qed.

Example encodeURIComponent_escapes :
  encodeURIComponent "https://a.b/c d?e=f&g" = Ret "https%3A%2F%2Fa.b%2Fc%20d%3Fe%3Df%26g".
Proof. reflexivity. Qed.

Example encodeURIComponent_surrogate :
  encodeURIComponent
    (String (ascii_of_nat 237) (String (ascii_of_nat 160) (String (ascii_of_nat 128) "")))
  = Throw (URIError "URI malformed").
Proof. reflexivity. Qed.

(** A text without unpaired surrogate is its own USVString, so the body of
    the adapters' POST then holds the URL as given. *)
Lemma toWellFormed_id (s : string) :
  lone_surrogate s = false -> toWellFormed s = s.
Proof.
  induction s as [| c rest IH]; [reflexivity |].
  intros Hnone. destruct rest as [| d rest']; [reflexivity |].
  change (lone_surrogate (String c (String d rest')))
    with (((nat_of_ascii c =? 237) && (160 <=? nat_of_ascii d)
           && (nat_of_ascii d <=? 191))%nat
          || lone_surrogate (String d rest')) in Hnone.
  apply Bool.orb_false_iff in Hnone as [Htest Hrest].
  specialize (IH Hrest).
  destruct rest' as [| e rest''].
  - change (toWellFormed (String c (String d "")))
      with (String c (toWellFormed (String d ""))).
    rewrite IH. reflexivity.
  - change (toWellFormed (String c (String d (String e rest''))))
      with (if ((nat_of_ascii c =? 237) && (160 <=? nat_of_ascii d)
                && (nat_of_ascii d <=? 191))%nat
            then String (ascii_of_nat 239) (String (ascii_of_nat 191)
                   (String (ascii_of_nat 189) (toWellFormed rest'')))
            else String c (toWellFormed (String d (String e rest'')))).
    rewrite Htest, IH. reflexivity.
Qed.

Example URLSearchParams_surrogate :
  URLSearchParams
    [("url", String (ascii_of_nat 237) (String (ascii_of_nat 160)
               (String (ascii_of_nat 128) "x")))]
  = [("url", String (ascii_of_nat 239) (String (ascii_of_nat 191)
               (String (ascii_of_nat 189) "x")))].
Proof. reflexivity. Qed.

Section FormatFacts.
Context `{rt : Runtime}.

(** C4. [formatBytes] at the inputs the sentence names.  The number 0 is
    falsy, so the first guard answers "Unknown" and the branch that would
    answer "0 Bytes" is never reached; the other three inputs give what the
    sentence says. *)
Theorem formatBytes_at_named_inputs :
  Filesize.formatBytes (VNum 0) = Ret "Unknown"
  /\ Filesize.formatBytes (VNum 1024) = Ret "1 KB"
  /\ Filesize.formatBytes (VNum 1048576) = Ret "1 MB"
  /\ Filesize.formatBytes VNull = Ret "Unknown".
Proof. repeat split; reflexivity. Qed.

(** The guard for 0 is dead: whatever passes the first test is not 0. *)
Lemma formatBytes_zero_branch_dead (bytes : value) :
  truthy bytes = true -> strict_eq bytes (VNum 0) = false.
Proof.
  destruct bytes; simpl; try reflexivity; try discriminate.
  intros H. destruct (n =? 0); [discriminate | reflexivity].
Qed.

(** The index [formatBytes] computes is the magnitude in base 1024. *)
Lemma magnitude_floor (n : Z) :
  0 < n ->
  1024 ^ (Z.log2 n / Z.log2 1024) <= n < 1024 ^ (Z.log2 n / Z.log2 1024 + 1).
Proof.
  intros Hn. change (Z.log2 1024) with 10. change 1024 with (2 ^ 10).
  pose proof (Z.log2_spec n Hn) as [Hlow Hhigh].
  pose proof (Z.log2_nonneg n) as Hlog.
  assert (Hq : 0 <= Z.log2 n / 10) by (apply Z.div_pos; lia).
  rewrite <- !Z.pow_mul_r by lia.
  pose proof (Z.mul_div_le (Z.log2 n) 10 ltac:(lia)) as Hdown.
  pose proof (Z.mul_succ_div_gt (Z.log2 n) 10 ltac:(lia)) as Hup.
  split.
  - apply Z.le_trans with (2 ^ Z.log2 n); [| exact Hlow].
    apply Z.pow_le_mono_r; lia.
  - apply Z.lt_le_trans with (2 ^ Z.succ (Z.log2 n)); [exact Hhigh |].
    apply Z.pow_le_mono_r; lia.
Qed.

Example formatBytes_units :
  map Filesize.formatBytes [VNum 1; VNum 1536; VNum 123456789; VNum (1024 ^ 3); VNum (1024 ^ 4)]
  = map Ret ["1 Bytes"; "1.5 KB"; "117.74 MB"; "1 GB"; "1 TB"].
Proof. reflexivity. Qed.

End FormatFacts.

(** ** The TikWM adapter *)

Section TikwmFacts.
Context `{rt : Runtime}.

Lemma bind_run {A B} (c : M A) (k : A -> M B) st a st' :
  c st = (Ret a, st') -> bind c k st = k a st'.
Proof. unfold bind. intros ->. reflexivity. Qed.

Lemma bind_throw {A B} (c : M A) (k : A -> M B) st e st' :
  c st = (Throw e, st') -> bind c k st = (Throw e, st').
Proof. unfold bind. intros ->. reflexivity. Qed.

Lemma parse_into_run (answer : fetched) (data : value) (st : state) :
  Index.parse_into (fetched_text answer) data st
  = (Ret (match json_of answer with Some v => v | None => data end), st).
Proof.
  unfold Index.parse_into, json_of, fetched_text.
  destruct answer as [e | r]; [reflexivity |].
  destruct (text r) as [t | e]; [| reflexivity].
  simpl. destruct (t =? "")%string; [reflexivity |].
  simpl. unfold try_catch, Index.parse, str, bind, lift. simpl.
  destruct (JSON_parse t); reflexivity.
Qed.

Lemma strict_eq_undefined v : strict_eq v VUndefined = true <-> v = VUndefined.
Proof. destruct v; simpl; split; congruence. Qed.

Lemma strict_eq_zero v : strict_eq v (VNum 0) = true <-> v = VNum 0.
Proof.
  destruct v; simpl; split; try congruence.
  - intros H. apply Z.eqb_eq in H. congruence.
  - intros H. injection H as ->. reflexivity.
Qed.

(** Lines 123 to 127: the GET, entered with [data] from the POST. *)
Lemma tikwm_retry_run (url : string) (st : state) :
  (push "TikWM POST failed/empty, trying GET" ;;
   query <- lift (encodeURIComponent url) ;;
   resp <- Index.fetchUrl ("https://www.tikwm.com/api/" ++ "?url=" ++ query ++ "&hd=1")
             Index.no_options ;;
   Index.parse_into resp (first_data url st))%js
    (sending (tikwm_post url) (logged "TikWM trying POST" st))
  = (if lone_surrogate url then Throw malformed
     else Ret (match json_of (get_answer url st) with
               | Some v => v
               | None => first_data url st
               end),
     let st2 := logged "TikWM POST failed/empty, trying GET"
                  (sending (tikwm_post url) (logged "TikWM trying POST" st)) in
     if lone_surrogate url then st2 else sending (tikwm_get url) st2).
Proof.
  unfold bind at 1. unfold push at 1.
  unfold encodeURIComponent.
  destruct (lone_surrogate url); [reflexivity |].
  rewrite bind_lift.
  erewrite bind_run by apply fetchUrl_run.
  rewrite parse_into_run. reflexivity.
Qed.

Lemma tikwm_request_run (url : string) (st : state) :
  Index.tikwm_request url st
  = (if gives_up url st then Throw malformed else Ret (final_data url st),
     tikwm_state url st).
Proof.
  unfold Index.tikwm_request.
  unfold bind at 1. unfold push at 1.
  erewrite bind_run by apply fetchUrl_run.
  erewrite bind_run by apply parse_into_run.
  fold (tikwm_post url).
  change (network (sent (logged "TikWM trying POST" st)) (tikwm_post url))
    with (post_answer url st).
  fold (first_data url st).
  unfold gives_up, final_data, tikwm_state, retried.
  destruct (truthy (first_data url st)) eqn:Hdata; simpl negb; cbv iota.
  - pose proof (truthy_not_nullish _ Hdata) as Hobj.
    pure_goal. simpl orb.
    destruct (negb (strict_eq (peek (first_data url st) "code") VUndefined)
              && negb (strict_eq (peek (first_data url st) "code") (VNum 0)));
      [| reflexivity].
    rewrite tikwm_retry_run. cbv zeta.
    destruct (lone_surrogate url); reflexivity.
  - pure_goal. simpl orb. cbv iota.
    rewrite tikwm_retry_run. cbv zeta.
    destruct (lone_surrogate url); reflexivity.
Qed.

(** A run of the adapter that returns did not give up. *)
Lemma tikwm_request_returns (url : string) (st : state) :
  gives_up url st = false ->
  Index.tikwm_request url st = (Ret (final_data url st), tikwm_state url st).
Proof. intros H. rewrite tikwm_request_run, H. reflexivity. Qed.

Lemma tikwm_media_stateless (video : value) : stateless (Index.tikwm_media video).
Proof.
  unfold Index.tikwm_media.
  repeat (apply stateless_bind; [| intros ?]);
    repeat first [ apply stateless_if
                 | apply stateless_bind; [| intros ?]
                 | solve [auto 10 with stateless] ].
Qed.

(** The adapter once [data] is known: lines 130 to 193. *)
Lemma truthy_final (url : string) (st : state) :
  truthy (final_data url st) = true -> gives_up url st = false.
Proof.
  unfold gives_up, final_data.
  destruct (retried url st); [| reflexivity].
  destruct (lone_surrogate url); [discriminate | reflexivity].
Qed.

Lemma providerTikwm_run (url : string) (format quality : value) (st : state) :
  Index.providerTikwm url format quality "tiktok" st
  = (if gives_up url st then Throw malformed else
     let data := final_data url st in
     if negb (truthy data) then Ret (Index.error_result "TikWM no response")
     else if strict_eq (peek data "code") VUndefined
             || negb (strict_eq (peek data "code") (VNum 0))
     then match to_string (or_else (peek data "msg") (VStr "Unknown error")) with
          | Ret text => Ret (Index.error_result ("TikWM: " ++ text))
          | Throw e => Throw e
          end
     else fst (Index.tikwm_media (peek data "data") (tikwm_state url st)),
     tikwm_state url st).
Proof.
  unfold Index.providerTikwm. simpl.
  destruct (gives_up url st) eqn:Hgone.
  { apply bind_throw. rewrite tikwm_request_run, Hgone. reflexivity. }
  rewrite (bind_run _ _ _ _ _ (tikwm_request_returns url st Hgone)).
  destruct (truthy (final_data url st)) eqn:Hdata; simpl; [| reflexivity].
  pose proof (truthy_not_nullish _ Hdata) as Hobj.
  pure_goal.
  destruct (strict_eq (peek (final_data url st) "code") VUndefined
            || negb (strict_eq (peek (final_data url st) "code") (VNum 0))).
  - pure_goal. unfold str. rewrite bind_lift.
    destruct (to_string _); reflexivity.
  - pure_goal. apply stateless_run, tikwm_media_stateless.
Qed.

Lemma providerTikwm_state (url : string) (format quality : value) (st : state) :
  snd (Index.providerTikwm url format quality "tiktok" st) = tikwm_state url st.
Proof. rewrite providerTikwm_run. reflexivity. Qed.

Lemma tikwm_media_variants (video : value) (st : state) (r : value) (st' : state) :
  Index.tikwm_media video st = (Ret r, st') ->
  peek r "status" = VStr "tunnel" ->
  exists vs,
    peek r "variants" = VArr vs
    /\ subsequence (map kind vs) variant_order = true
    /\ Forall (fun v => truthy (peek v "url") = true) vs.
Proof.
  intros Hrun Hstatus.
  destruct (nullish video) eqn:Hv.
  { destruct video; try discriminate; discriminate Hrun. }
  unfold Index.tikwm_media in Hrun.
  repeat (pure_in Hrun || branch_in Hrun).
  all: try (unfold str in Hrun; rewrite bind_lift in Hrun;
            match type of Hrun with
            | context [match to_string ?v with _ => _ end] => destruct (to_string v)
            end; [| discriminate Hrun]).
  all: repeat pure_in Hrun.
  all: injection Hrun as <- _.
  all: try discriminate Hstatus.
  all: eexists; split; [reflexivity |]; split; [reflexivity |].
  all: repeat constructor; simpl; assumption.
Qed.

(** C6. Whenever the TikWM adapter returns a tunnel result, its variants
    are a selection of video-hd, video-sd, audio, video-watermark in that
    order, and every entry present carries a non-empty URL. *)
Theorem tikwm_variants_ordered (url : string) (format quality : value)
    (platform : string) (st st' : state) (r : value) :
  Index.providerTikwm url format quality platform st = (Ret r, st') ->
  peek r "status" = VStr "tunnel" ->
  exists vs,
    peek r "variants" = VArr vs
    /\ subsequence (map kind vs) variant_order = true
    /\ Forall (fun v => truthy (peek v "url") = true) vs.
Proof.
  intros Hrun Hstatus.
  unfold Index.providerTikwm in Hrun.
  destruct (negb (platform =? "tiktok")%string).
  { injection Hrun as <- _. discriminate Hstatus. }
  destruct (gives_up url st) eqn:Hgone.
  { erewrite bind_throw in Hrun by (rewrite tikwm_request_run, Hgone; reflexivity).
    discriminate Hrun. }
  rewrite (bind_run _ _ _ _ _ (tikwm_request_returns url st Hgone)) in Hrun.
  destruct (truthy (final_data url st)) eqn:Hdata; simpl in Hrun.
  2:{ injection Hrun as <- _. discriminate Hstatus. }
  pose proof (truthy_not_nullish _ Hdata) as Hobj.
  pure_in Hrun.
  destruct (strict_eq (peek (final_data url st) "code") VUndefined
            || negb (strict_eq (peek (final_data url st) "code") (VNum 0))).
  - pure_in Hrun. unfold str in Hrun. rewrite bind_lift in Hrun.
    destruct (to_string _); [| discriminate Hrun].
    injection Hrun as <- _. discriminate Hstatus.
  - pure_in Hrun. eapply tikwm_media_variants; eassumption.
Qed.

Lemma retried_iff (url : string) (st : state) :
  retried url st = true
  <-> (json_of (post_answer url st) = None
       \/ (exists v, json_of (post_answer url st) = Some v /\ truthy v = false)
       \/ (exists v, json_of (post_answer url st) = Some v /\ truthy v = true
                     /\ peek v "code" <> VUndefined /\ peek v "code" <> VNum 0)).
Proof.
  unfold retried, first_data.
  destruct (json_of (post_answer url st)) as [v |]; simpl.
  2:{ split; [left; reflexivity | reflexivity]. }
  destruct (truthy v) eqn:Hv; simpl.
  - rewrite andb_true_iff, !negb_true_iff. split.
    + intros [Hu Hz]. right; right. exists v. repeat split; try assumption.
      * intros E. apply strict_eq_undefined in E. congruence.
      * intros E. apply strict_eq_zero in E. congruence.
    + intros [H | [[w [E Hw]] | [w [E [_ [Hu Hz]]]]]]; try discriminate H.
      * injection E as <-. congruence.
      * injection E as <-. split.
        -- destruct (strict_eq (peek v "code") VUndefined) eqn:E; [| reflexivity].
           apply strict_eq_undefined in E. contradiction.
        -- destruct (strict_eq (peek v "code") (VNum 0)) eqn:E; [| reflexivity].
           apply strict_eq_zero in E. contradiction.
  - split; [| reflexivity]. intros _. right; left. exists v. split; [reflexivity | assumption].
Qed.

Lemma tikwm_sent (url : string) (st : state) :
  sent (tikwm_state url st)
  = (sent st ++ tikwm_post url
       :: (if retried url st && negb (lone_surrogate url) then [tikwm_get url]
           else []))%list.
Proof.
  unfold tikwm_state. destruct (retried url st), (lone_surrogate url); simpl;
    rewrite <- ?app_assoc; reflexivity.
Qed.

(** C3, amended.  The TikWM adapter goes on to the GET exactly when the
    POST yields no JSON value, a falsy one (null, false, 0, the empty
    string), or a payload whose code field is defined and not 0.  The GET
    then goes out, unless the URL holds an unpaired surrogate: there
    [encodeURIComponent] throws a URIError, so does the adapter, and only
    the POST was sent.  If the payload is in the end absent or falsy (in
    particular when neither attempt yields JSON) the result is the generic
    error "TikWM no response".  Otherwise, if the final payload's code
    field is missing or not 0, the result is an error whose text is
    "TikWM: " followed by the string form of the payload's msg, or by
    "Unknown error" when msg is falsy; when msg has no string form (an
    object with a field named toString) the adapter throws the TypeError
    of the conversion instead. *)
Theorem tikwm_retry_and_errors (url : string) (format quality : value) (st : state) :
  let post := json_of (post_answer url st) in
  let final := final_data url st in
  let run := Index.providerTikwm url format quality "tiktok" st in
  let retry_condition :=
    post = None
    \/ (exists v, post = Some v /\ truthy v = false)
    \/ (exists v, post = Some v /\ truthy v = true
                  /\ peek v "code" <> VUndefined /\ peek v "code" <> VNum 0) in
  (retry_condition -> lone_surrogate url = false ->
   sent (snd run) = (sent st ++ [tikwm_post url; tikwm_get url])%list)
  /\ (retry_condition -> lone_surrogate url = true ->
      fst run = Throw (URIError "URI malformed")
      /\ sent (snd run) = (sent st ++ [tikwm_post url])%list)
  /\ (~ retry_condition ->
      sent (snd run) = (sent st ++ [tikwm_post url])%list)
  /\ (truthy final = false ->
      (retry_condition -> lone_surrogate url = false) ->
      fst run = Ret (Index.error_result "TikWM no response"))
  /\ (post = None -> json_of (get_answer url st) = None ->
      lone_surrogate url = false ->
      fst run = Ret (Index.error_result "TikWM no response"))
  /\ (truthy final = true ->
      peek final "code" = VUndefined \/ peek final "code" <> VNum 0 ->
      fst run
      = match to_string (or_else (peek final "msg") (VStr "Unknown error")) with
        | Ret text => Ret (Index.error_result ("TikWM: " ++ text))
        | Throw e => Throw e
        end).
Proof.
  intros post final run retry_condition.
  assert (Hrun : run = _) by apply providerTikwm_run.
  assert (Hretry : retried url st = true <-> retry_condition) by apply retried_iff.
  assert (Hgone : forall b, (retry_condition -> lone_surrogate url = b) ->
                            b = false -> gives_up url st = false).
  { intros b H ->. unfold gives_up.
    destruct (retried url st) eqn:E; [| reflexivity].
    rewrite (H (proj1 Hretry eq_refl)). reflexivity. }
  split; [| split; [| split; [| split; [| split]]]].
  - intros H Hurl. apply Hretry in H. rewrite Hrun. simpl.
    rewrite tikwm_sent, H, Hurl. reflexivity.
  - intros H Hurl. apply Hretry in H. rewrite Hrun. simpl.
    unfold gives_up. rewrite tikwm_sent, H, Hurl. split; reflexivity.
  - intros H. rewrite Hrun. simpl. rewrite tikwm_sent.
    destruct (retried url st); [| reflexivity].
    exfalso. apply H, Hretry. reflexivity.
  - intros H Hurl. rewrite Hrun. simpl. fold final.
    rewrite (Hgone false Hurl eq_refl), H. reflexivity.
  - intros Hpost Hget Hurl. rewrite Hrun. simpl.
    assert (Hfinal : truthy (final_data url st) = false).
    { unfold final_data, first_data. fold post. rewrite Hpost, Hget, Hurl.
      destruct (retried url st); reflexivity. }
    rewrite (Hgone false (fun _ => Hurl) eq_refl), Hfinal. reflexivity.
  - intros Htruthy Hcode. rewrite Hrun. simpl. fold final.
    rewrite (truthy_final url st Htruthy), Htruthy. simpl.
    assert (Hc : strict_eq (peek final "code") VUndefined
                 || negb (strict_eq (peek final "code") (VNum 0)) = true).
    { destruct Hcode as [E | E].
      - rewrite E. reflexivity.
      - destruct (strict_eq (peek final "code") (VNum 0)) eqn:Ez.
        + apply strict_eq_zero in Ez. contradiction.
        + apply orb_true_r. }
    rewrite Hc. reflexivity.
Qed.

End TikwmFacts.

(** ** The provider loop *)

Section ChainFacts.
Context `{rt : Runtime}.
Variables (url : string) (format quality : value) (platform : string).

Lemma usable_run (r : value) (st : state) :
  Index.usable r st = (Ret (accepted r), st).
Proof.
  unfold Index.usable, accepted.
  destruct (truthy r) eqn:Hr.
  - pose proof (truthy_not_nullish _ Hr) as Hobj.
    destruct (truthy (peek r "status")) eqn:Hs.
    + pure_goal. unfold and_then. rewrite Hr, Hs. simpl.
      destruct (strict_eq (peek r "status") (VStr "error")); reflexivity.
    + erewrite bind_yields.
      2:{ apply yields_and with (y := VNull).
          - apply yields_and; [apply yields_ret | intros _; apply yields_prop, Hobj].
          - unfold and_then. rewrite Hr, Hs. discriminate. }
      unfold and_then, ret. rewrite Hr, Hs, Hs. reflexivity.
  - unfold andM, bind, ret. rewrite Hr. simpl. rewrite ?Hr. simpl. rewrite ?Hr.
    reflexivity.
Qed.

Lemma accepted_truthy (r : value) : accepted r = true -> truthy r = true.
Proof. unfold accepted. destruct (truthy r); [reflexivity | discriminate]. Qed.

Lemma accepted_result_of (f : failure) : accepted (result_of f) = false.
Proof. destruct f; reflexivity. Qed.

(** The loop body when the provider returns an acceptable result. *)
Lemma attempt_success (p : Index.provider) (fr le r : value) (st s1 : state) :
  truthy fr = false ->
  Index.run p url format quality platform
    (logged ("Trying provider: " ++ Index.name p) st) = (Ret r, s1) ->
  accepted r = true ->
  Index.attempt p url format quality platform fr le st
  = (Ret (true, (r, le)), logged ("Success with " ++ Index.name p) s1).
Proof.
  intros Hfr Hrun Hok. unfold Index.attempt, try_catch. rewrite Hfr.
  unfold bind at 1. unfold push at 1.
  rewrite (bind_run _ _ _ _ _ Hrun).
  rewrite (bind_run _ _ _ _ _ (usable_run r s1)). rewrite Hok.
  reflexivity.
Qed.

(** The loop body when the provider returns [null] or an error result. *)
Lemma attempt_failure (p : Index.provider) (fr : value) (last : string)
    (f : failure) (st s1 : state) :
  truthy fr = false ->
  Index.run p url format quality platform
    (logged ("Trying provider: " ++ Index.name p) st) = (Ret (result_of f), s1) ->
  Index.attempt p url format quality platform fr (VStr last) st
  = (Ret (false, (fr, VStr (recorded f last))), after_failure (Index.name p) f s1).
Proof.
  intros Hfr Hrun. unfold Index.attempt, try_catch. rewrite Hfr.
  unfold bind at 1. unfold push at 1.
  rewrite (bind_run _ _ _ _ _ Hrun).
  rewrite (bind_run _ _ _ _ _ (usable_run _ s1)). rewrite accepted_result_of.
  destruct f as [| t]; [reflexivity |].
  assert (Hobj : nullish (result_of (Failed t)) = false) by reflexivity.
  pure_goal.
  change (and_then (result_of (Failed t)) (peek (result_of (Failed t)) "text"))
    with (VStr t).
  unfold recorded, after_failure.
  change (truthy (VStr t)) with (negb (t =? "")%string).
  destruct (t =? "")%string; cbn [negb]; [reflexivity |].
  pure_goal. change (peek (result_of (Failed t)) "text") with (VStr t).
  unfold str. rewrite bind_lift. reflexivity.
Qed.

Lemma chain_success (p : Index.provider) (ps : list Index.provider)
    (fr le r : value) (st s1 : state) :
  truthy fr = false ->
  Index.run p url format quality platform
    (logged ("Trying provider: " ++ Index.name p) st) = (Ret r, s1) ->
  accepted r = true ->
  Index.chain (p :: ps) url format quality platform fr le st
  = (Ret (r, le), logged ("Success with " ++ Index.name p) s1).
Proof.
  intros Hfr Hrun Hok. simpl.
  rewrite (bind_run _ _ _ _ _ (attempt_success p fr le r st s1 Hfr Hrun Hok)).
  reflexivity.
Qed.

Lemma chain_all_fail (ps : list Index.provider) (st st' : state) (last last' : string) :
  all_fail url format quality platform ps st last st' last' ->
  forall fr, truthy fr = false ->
  Index.chain ps url format quality platform fr (VStr last) st
  = (Ret (fr, VStr last'), st').
Proof.
  induction 1 as [st last | p ps st last f s1 st' last' Hrun _ IH]; intros fr Hfr.
  - reflexivity.
  - simpl.
    rewrite (bind_run _ _ _ _ _ (attempt_failure p fr last f st s1 Hfr Hrun)).
    simpl. apply IH, Hfr.
Qed.

Lemma printable_str (s : string) : printable (VStr s).
Proof. exists s. reflexivity. Qed.

(** The loop body always returns: what a provider throws is caught. *)
Lemma attempt_returns (p : Index.provider) (fr le : value) (st : state) :
  printable le ->
  exists stop fr' le' st',
    Index.attempt p url format quality platform fr le st
    = (Ret (stop, (fr', le')), st')
    /\ printable le'
    /\ (fr' = fr \/ accepted fr' = true).
Proof.
  intros Hle. unfold Index.attempt, try_catch.
  destruct (truthy fr) eqn:Hfr.
  { simpl. do 4 eexists. split; [reflexivity |]. split; [exact Hle | left; reflexivity]. }
  unfold bind at 1. unfold push at 1.
  destruct (Index.run p url format quality platform
              (logged ("Trying provider: " ++ Index.name p) st)) as [[r | e] s1] eqn:Hrun.
  2:{ unfold bind at 1. rewrite Hrun. simpl.
      do 4 eexists. split; [reflexivity |].
      split; [apply printable_str | left; reflexivity]. }
  rewrite (bind_run _ _ _ _ _ Hrun).
  rewrite (bind_run _ _ _ _ _ (usable_run r s1)).
  destruct (accepted r) eqn:Hok.
  { simpl. do 4 eexists. split; [reflexivity |]. split; [exact Hle | right; exact Hok]. }
  destruct (truthy r) eqn:Hr.
  2:{ unfold andM, bind, ret. rewrite Hr. simpl. rewrite Hr.
      do 4 eexists. split; [reflexivity |]. split; [exact Hle | left; reflexivity]. }
  pose proof (truthy_not_nullish _ Hr) as Hobj.
  pure_goal. unfold and_then. rewrite Hr.
  destruct (truthy (peek r "text")) eqn:Ht.
  2:{ do 4 eexists. split; [reflexivity |]. split; [exact Hle | left; reflexivity]. }
  pure_goal. unfold str. rewrite bind_lift.
  destruct (to_string (peek r "text")) as [shown | e] eqn:Hshown.
  - simpl. do 4 eexists. split; [reflexivity |].
    split; [exists shown; exact Hshown | left; reflexivity].
  - simpl. do 4 eexists. split; [reflexivity |].
    split; [apply printable_str | left; reflexivity].
Qed.

(** The loop body when the provider's run does not win. *)
Lemma attempt_moves_on (p : Index.provider) (fr le : value) (st : state) :
  truthy fr = false ->
  printable le ->
  won (Index.run p url format quality platform
         (logged ("Trying provider: " ++ Index.name p) st)) = None ->
  exists le',
    Index.attempt p url format quality platform fr le st
    = (Ret (false, (fr, le')),
       noted (Index.name p)
         (Index.run p url format quality platform
            (logged ("Trying provider: " ++ Index.name p) st)))
    /\ printable le'.
Proof.
  intros Hfr Hle Hlost. unfold Index.attempt, try_catch. rewrite Hfr.
  unfold bind at 1. unfold push at 1. unfold won in Hlost.
  destruct (Index.run p url format quality platform
              (logged ("Trying provider: " ++ Index.name p) st)) as [[r | e] s1] eqn:Hrun.
  2:{ unfold bind at 1. rewrite Hrun. simpl.
      eexists. split; [reflexivity | apply printable_str]. }
  cbn [fst] in Hlost.
  rewrite (bind_run _ _ _ _ _ Hrun).
  rewrite (bind_run _ _ _ _ _ (usable_run r s1)).
  destruct (accepted r) eqn:Hok; [discriminate Hlost |].
  unfold noted.
  destruct (truthy r) eqn:Hr.
  2:{ unfold andM, bind, ret. rewrite Hr. simpl. rewrite Hr.
      eexists. split; [reflexivity | exact Hle]. }
  pose proof (truthy_not_nullish _ Hr) as Hobj.
  pure_goal. unfold and_then. rewrite Hr. cbn [andb].
  destruct (truthy (peek r "text")) eqn:Ht.
  2:{ eexists. split; [reflexivity | exact Hle]. }
  pure_goal. unfold str. rewrite bind_lift.
  destruct (to_string (peek r "text")) as [shown | e] eqn:Hshown.
  - simpl. eexists. split; [reflexivity | exists shown; exact Hshown].
  - simpl. eexists. split; [reflexivity | apply printable_str].
Qed.

Lemma won_accepted (run : outcome value * state) (r : value) :
  won run = Some r -> run = (Ret r, snd run) /\ accepted r = true.
Proof.
  unfold won. destruct run as [[r' | e] s]; cbn [fst snd]; [| discriminate].
  destruct (accepted r') eqn:E; [| discriminate].
  intros [= <-]. split; [reflexivity | exact E].
Qed.

Lemma chain_returns (ps : list Index.provider) :
  forall (fr le : value) (st : state),
  printable le ->
  exists fr' le' st',
    Index.chain ps url format quality platform fr le st = (Ret (fr', le'), st')
    /\ printable le'
    /\ (fr' = fr \/ accepted fr' = true).
Proof.
  induction ps as [| p ps IH]; intros fr le st Hle.
  - simpl. do 3 eexists. split; [reflexivity |]. split; [exact Hle | left; reflexivity].
  - simpl.
    destruct (attempt_returns p fr le st Hle)
      as (stop & fr1 & le1 & s1 & Hrun & Hle1 & Hfr1).
    rewrite (bind_run _ _ _ _ _ Hrun). simpl.
    destruct stop.
    + do 3 eexists. split; [reflexivity |]. split; assumption.
    + destruct (IH fr1 le1 s1 Hle1) as (fr2 & le2 & s2 & Hrest & Hle2 & Hfr2).
      do 3 eexists. split; [exact Hrest |]. split; [exact Hle2 |].
      destruct Hfr2 as [-> | Hacc]; [exact Hfr1 | right; exact Hacc].
Qed.

End ChainFacts.

(** ** The resolver's handler *)

Section HandlerFacts.
Context `{rt : Runtime}.

Lemma attach_debug_run (req : http_request) (target : value) (st : state) :
  Index.attach_debug req target st
  = (Ret (with_debug req (debugLog st) target), st).
Proof.
  unfold Index.attach_debug, with_debug, debug_requested.
  erewrite bind_yields.
  2:{ apply yields_and; [apply yields_ret |].
      intros H. apply yields_prop, truthy_not_nullish, H. }
  destruct (truthy (and_then (req_query req) (peek (req_query req) "debug")));
    reflexivity.
Qed.

Lemma lookup_assign_other {A} (k k' : string) (x : A) (fields : list (string * A)) :
  (k' =? k)%string = false -> lookup k' (assign k x fields) = lookup k' fields.
Proof.
  intros Hk. induction fields as [| [k0 v0] rest IH]; simpl.
  - rewrite Hk. reflexivity.
  - destruct (k =? k0)%string eqn:E; simpl.
    + apply String.eqb_eq in E. subst k0. rewrite Hk. reflexivity.
    + destruct (k' =? k0)%string; [reflexivity | exact IH].
Qed.

Lemma peek_set_other (v : value) (k k' : string) (x : value) :
  (k' =? k)%string = false -> peek (set v k x) k' = peek v k'.
Proof.
  intros Hk. destruct v; try reflexivity.
  simpl. rewrite lookup_assign_other by exact Hk. reflexivity.
Qed.

Lemma truthy_set (v : value) (k : string) (x : value) : truthy (set v k x) = truthy v.
Proof. destruct v; reflexivity. Qed.

Lemma accepted_with_debug (req : http_request) (lines : list string) (r : value) :
  accepted (with_debug req lines r) = accepted r.
Proof.
  unfold with_debug. destruct (debug_requested req); [| reflexivity].
  unfold accepted. rewrite truthy_set, peek_set_other by reflexivity. reflexivity.
Qed.

Lemma envelope_with_debug (req : http_request) (lines : list string) (payload : value) :
  error_envelope payload -> error_envelope (with_debug req lines payload).
Proof.
  unfold with_debug. destruct (debug_requested req); [| trivial].
  unfold error_envelope. rewrite !peek_set_other by reflexivity. trivial.
Qed.

(** [resolve] when the first provider succeeds. *)
Lemma resolve_success (req : http_request) (url : string) (format quality : value)
    (st s1 : state) (r : value) :
  Index.providerTikwm url format quality (Index.detectPlatform url)
    (logged "Trying provider: providerTikwm" (fresh st)) = (Ret r, s1) ->
  accepted r = true ->
  Index.resolve req url format quality st
  = (Ret (Index.json 200
            (with_debug req (debugLog (logged "Success with providerTikwm" s1)) r)),
     logged "Success with providerTikwm" s1).
Proof.
  intros Hrun Hok. unfold Index.resolve.
  unfold bind at 1. unfold new_log at 1. fold (fresh st).
  erewrite bind_run.
  2:{ apply (chain_success url format quality (Index.detectPlatform url)
               {| Index.name := "providerTikwm"; Index.run := Index.providerTikwm |}
               _ VNull (VStr "") r (fresh st) s1); [reflexivity | exact Hrun | exact Hok]. }
  cbv zeta. cbn [fst snd]. rewrite (accepted_truthy _ Hok).
  rewrite (bind_run _ _ _ _ _ (attach_debug_run req r _)).
  reflexivity.
Qed.

(** [resolve] when no provider succeeds. *)
Lemma resolve_failure (req : http_request) (url : string) (format quality : value)
    (st st' : state) (last : string) :
  all_fail url format quality (Index.detectPlatform url) Index.providers
    (fresh st) "" st' last ->
  Index.resolve req url format quality st
  = (Ret (Index.json 200
            (with_debug req (debugLog st')
               (VObj [("status", VStr "error"); ("text", VStr (failure_text last))]))),
     st').
Proof.
  intros Hfail. unfold Index.resolve.
  unfold bind at 1. unfold new_log at 1. fold (fresh st).
  rewrite (bind_run _ _ _ _ _
             (chain_all_fail url format quality _ _ _ _ _ _ Hfail VNull eq_refl)).
  cbv zeta. cbn [fst snd]. cbn [truthy].
  unfold failure_text, or_else.
  change (truthy (VStr last)) with (negb (last =? "")%string).
  destruct (last =? "")%string; cbn [negb]; unfold str; rewrite bind_lift; simpl to_string;
    cbv iota; rewrite (bind_run _ _ _ _ _ (attach_debug_run req _ _)); reflexivity.
Qed.

(** [resolve] always answers 200, with an accepted result or a failure
    envelope. *)
Lemma resolve_returns (req : http_request) (url : string) (format quality : value)
    (st : state) :
  exists payload st',
    Index.resolve req url format quality st = (Ret (Index.json 200 payload), st')
    /\ (accepted payload = true \/ error_envelope payload).
Proof.
  unfold Index.resolve.
  unfold bind at 1. unfold new_log at 1. fold (fresh st).
  destruct (chain_returns url format quality (Index.detectPlatform url)
              Index.providers VNull (VStr "") (fresh st) (printable_str ""))
    as (fr & le & s1 & Hrun & [shown Hle] & Hfr).
  rewrite (bind_run _ _ _ _ _ Hrun). cbv zeta. cbn [fst snd].
  destruct (truthy fr) eqn:Htruthy.
  - rewrite (bind_run _ _ _ _ _ (attach_debug_run req fr _)).
    do 2 eexists. split; [reflexivity |]. left.
    rewrite accepted_with_debug.
    destruct Hfr as [-> | Hacc]; [discriminate Htruthy | exact Hacc].
  - unfold str. rewrite bind_lift.
    assert (Hreason : exists reason,
               to_string (or_else le (VStr "Server sibuk atau timeout")) = Ret reason).
    { unfold or_else. destruct (truthy le); [exists shown; exact Hle | eexists; reflexivity]. }
    destruct Hreason as [reason ->].
    rewrite (bind_run _ _ _ _ _ (attach_debug_run req _ _)).
    do 2 eexists. split; [reflexivity |]. right.
    apply envelope_with_debug. split; [reflexivity | eexists; reflexivity].
Qed.

Lemma read_input_stateless (req : http_request) : stateless (Index.read_input req).
Proof.
  unfold Index.read_input.
  repeat first [ apply stateless_bind; [| intros ?]
               | apply stateless_if
               | apply stateless_try; [| intros ?]
               | solve [auto 10 with stateless] ].
  unfold Index.call_trim.
  match goal with |- context [match ?u with _ => _ end] => destruct u end;
    auto 10 with stateless.
Qed.

Lemma handler_post (req : http_request) (st : state) :
  req_method req = "POST" ->
  Index.handler req st
  = try_catch
      (input <- Index.read_input req ;;
       match input with
       | None => ret (Index.json 200 (Index.error_result "URL diperlukan"))
       | Some (url, (format, quality)) => Index.resolve req url format quality
       end)
      (fun globalError =>
         text <- str (or_else (VStr (message globalError)) (VStr "Unknown error")) ;;
         ret (Index.json 200
                (VObj [("status", VStr "error");
                       ("text", VStr ("Server Error: " ++ text));
                       ("stack", if strict_eq NODE_ENV (VStr "development")
                                 then stack globalError else VUndefined)]))) st.
Proof. intros Hm. unfold Index.handler. rewrite Hm. reflexivity. Qed.

(** C1. For a POST request carrying a TikTok URL, if the TikWM adapter
    returns a result that the loop accepts (status present and not
    "error"), the handler answers 200 with that very result as payload (with
    the trace attached to it when the request asks for it), and nothing
    happens after the adapter returned but the "Success" log line: no
    request ever goes to the Snaptik endpoint and the log shows no attempt
    of the Snaptik adapter. *)
Theorem first_success_short_circuits (req : http_request) (url : string)
    (format quality : value) (r : value) (s1 : state) :
  req_method req = "POST" ->
  Index.read_input req initial = (Ret (Some (url, (format, quality))), initial) ->
  Index.detectPlatform url = "tiktok" ->
  Index.providerTikwm url format quality "tiktok"
    (logged "Trying provider: providerTikwm" initial) = (Ret r, s1) ->
  accepted r = true ->
  let final := logged "Success with providerTikwm" s1 in
  Index.handler req initial
  = (Ret (Index.json 200 (with_debug req (debugLog final) r)), final)
  /\ (debug_requested req = false -> with_debug req (debugLog final) r = r)
  /\ Forall (fun rq => rq_url rq <> snaptik_endpoint) (sent final)
  /\ ~ In "Trying provider: providerSnaptik" (debugLog final)
  /\ ~ In "Snaptik(tik.fail) trying" (debugLog final).
Proof.
  intros Hmethod Hinput Hplatform Hrun Hok final.
  split; [| split].
  - rewrite (handler_post req initial Hmethod). unfold try_catch.
    rewrite (bind_run _ _ _ _ _ Hinput).
    rewrite (resolve_success req url format quality initial s1 r);
      [reflexivity | | exact Hok].
    rewrite Hplatform. exact Hrun.
  - intros Hd. unfold with_debug. rewrite Hd. reflexivity.
  - pose proof (providerTikwm_state url format quality
                  (logged "Trying provider: providerTikwm" initial)) as Hstate.
    rewrite Hrun in Hstate. simpl in Hstate. subst s1. subst final.
    unfold tikwm_state.
    destruct (retried url (logged "Trying provider: providerTikwm" initial)).
    + cbv zeta. destruct (lone_surrogate url).
      * split; [| split].
        -- repeat constructor; simpl; discriminate.
        -- simpl. intros [H | [H | [H | [H | []]]]]; discriminate H.
        -- simpl. intros [H | [H | [H | [H | []]]]]; discriminate H.
      * split; [| split].
        -- repeat constructor; simpl; discriminate.
        -- simpl. intros [H | [H | [H | [H | []]]]]; discriminate H.
        -- simpl. intros [H | [H | [H | [H | []]]]]; discriminate H.
    + split; [| split].
      * repeat constructor; simpl; discriminate.
      * simpl. intros [H | [H | [H | []]]]; discriminate H.
      * simpl. intros [H | [H | [H | []]]]; discriminate H.
Qed.

(** C2. For a POST request whose URL reaches the provider loop, if every
    provider returns [null] or an error result, the handler answers 200
    with a payload of status "error" whose text is "Gagal memproses link. "
    followed by the message recorded last and a full stop, the default
    "Server sibuk atau timeout" standing in when no message was recorded. *)
Theorem all_providers_fail (req : http_request) (url : string)
    (format quality : value) (st' : state) (last : string) :
  req_method req = "POST" ->
  Index.read_input req initial = (Ret (Some (url, (format, quality))), initial) ->
  all_fail url format quality (Index.detectPlatform url) Index.providers
    initial "" st' last ->
  Index.handler req initial
  = (Ret (Index.json 200
            (with_debug req (debugLog st')
               (VObj [("status", VStr "error");
                      ("text",
                       VStr ("Gagal memproses link. "
                             ++ (if (last =? "")%string
                                 then "Server sibuk atau timeout" else last)
                             ++ "."))]))),
     st').
Proof.
  intros Hmethod Hinput Hfail.
  rewrite (handler_post req initial Hmethod). unfold try_catch.
  rewrite (bind_run _ _ _ _ _ Hinput).
  rewrite (resolve_failure req url format quality initial st' last Hfail).
  reflexivity.
Qed.

(** The provider loop by the runs of the two providers. *)
Lemma chain_turns (url : string) (format quality : value) (st : state) :
  let platform := Index.detectPlatform url in
  let first := Index.providerTikwm url format quality platform
                 (logged "Trying provider: providerTikwm" (fresh st)) in
  let second := Index.providerSnaptik url format quality platform
                  (logged "Trying provider: providerSnaptik"
                     (noted "providerTikwm" first)) in
  exists fr le st',
    Index.chain Index.providers url format quality platform VNull (VStr "") (fresh st)
    = (Ret (fr, le), st')
    /\ printable le
    /\ match won first with
       | Some r => fr = r /\ st' = logged "Success with providerTikwm" (snd first)
       | None =>
           match won second with
           | Some r => fr = r /\ st' = logged "Success with providerSnaptik" (snd second)
           | None => fr = VNull /\ st' = noted "providerSnaptik" second
           end
       end.
Proof.
  intros platform first second.
  set (T := {| Index.name := "providerTikwm"; Index.run := Index.providerTikwm |}).
  set (S := {| Index.name := "providerSnaptik"; Index.run := Index.providerSnaptik |}).
  unfold Index.providers. fold T S. cbn [Index.chain].
  destruct (won first) as [r |] eqn:Hfirst.
  { destruct (won_accepted _ _ Hfirst) as [Hrun Hok].
    rewrite (bind_run _ _ _ _ _
               (attempt_success url format quality platform T VNull (VStr "") r _ _
                  eq_refl Hrun Hok)).
    do 3 eexists. split; [reflexivity |].
    split; [apply printable_str | split; reflexivity]. }
  destruct (attempt_moves_on url format quality platform T VNull (VStr "") (fresh st)
              eq_refl (printable_str "") Hfirst) as (le1 & Hone & Hle1).
  change (Index.run T url format quality platform
            (logged ("Trying provider: " ++ Index.name T) (fresh st)))
    with first in Hone.
  change (Index.name T) with "providerTikwm" in Hone.
  rewrite (bind_run _ _ _ _ _ Hone). cbn [fst snd].
  destruct (won second) as [r |] eqn:Hsecond.
  - destruct (won_accepted _ _ Hsecond) as [Hrun Hok].
    rewrite (bind_run _ _ _ _ _
               (attempt_success url format quality platform S VNull le1 r _ _
                  eq_refl Hrun Hok)).
    do 3 eexists. split; [reflexivity |].
    split; [exact Hle1 | split; reflexivity].
  - destruct (attempt_moves_on url format quality platform S VNull le1
                (noted "providerTikwm" first) eq_refl Hle1 Hsecond)
      as (le2 & Htwo & Hle2).
    change (Index.run S url format quality platform
              (logged ("Trying provider: " ++ Index.name S)
                 (noted "providerTikwm" first)))
      with second in Htwo.
    change (Index.name S) with "providerSnaptik" in Htwo.
    rewrite (bind_run _ _ _ _ _ Htwo).
    do 3 eexists. split; [reflexivity |].
    split; [exact Hle2 | split; reflexivity].
Qed.

(** [resolve] by the runs of the two providers. *)
Lemma resolve_turns (req : http_request) (url : string) (format quality : value)
    (st : state) :
  let platform := Index.detectPlatform url in
  let first := Index.providerTikwm url format quality platform
                 (logged "Trying provider: providerTikwm" (fresh st)) in
  let second := Index.providerSnaptik url format quality platform
                  (logged "Trying provider: providerSnaptik"
                     (noted "providerTikwm" first)) in
  exists payload st',
    Index.resolve req url format quality st = (Ret (Index.json 200 payload), st')
    /\ match won first with
       | Some r =>
           payload = with_debug req (debugLog st') r
           /\ st' = logged "Success with providerTikwm" (snd first)
       | None =>
           match won second with
           | Some r =>
               payload = with_debug req (debugLog st') r
               /\ st' = logged "Success with providerSnaptik" (snd second)
           | None =>
               st' = noted "providerSnaptik" second
               /\ peek payload "status" = VStr "error"
               /\ exists reason,
                    peek payload "text"
                    = VStr ("Gagal memproses link. " ++ reason ++ ".")
           end
       end.
Proof.
  intros platform first second.
  destruct (chain_turns url format quality st)
    as (fr & le & st' & Hchain & [shown Hle] & Hturns).
  fold platform first second in Hturns. fold platform in Hchain.
  unfold Index.resolve.
  unfold bind at 1. unfold new_log at 1. fold (fresh st). fold platform.
  rewrite (bind_run _ _ _ _ _ Hchain). cbv zeta. cbn [fst snd].
  assert (Hsuccess : forall r, fr = r -> accepted r = true ->
            (if truthy fr
             then finalResult <- Index.attach_debug req fr ;;
                  ret (Index.json 200 finalResult)
             else reason <- str (or_else le (VStr "Server sibuk atau timeout")) ;;
                  errResponse <- Index.attach_debug req
                    (VObj [("status", VStr "error");
                           ("text", VStr ("Gagal memproses link. " ++ reason ++ "."))]) ;;
                  ret (Index.json 200 errResponse))%js st'
            = (Ret (Index.json 200 (with_debug req (debugLog st') r)), st')).
  { intros r -> Hok. rewrite (accepted_truthy _ Hok).
    rewrite (bind_run _ _ _ _ _ (attach_debug_run req r _)). reflexivity. }
  destruct (won first) as [r |] eqn:Hfirst.
  { destruct Hturns as [Hfr Hst].
    rewrite (Hsuccess r Hfr (proj2 (won_accepted _ _ Hfirst))).
    do 2 eexists. split; [reflexivity | split; [reflexivity | exact Hst]]. }
  destruct (won second) as [r |] eqn:Hsecond.
  { destruct Hturns as [Hfr Hst].
    rewrite (Hsuccess r Hfr (proj2 (won_accepted _ _ Hsecond))).
    do 2 eexists. split; [reflexivity | split; [reflexivity | exact Hst]]. }
  destruct Hturns as [-> Hst]. cbn [truthy].
  unfold str. rewrite bind_lift.
  assert (Hreason : exists reason,
             to_string (or_else le (VStr "Server sibuk atau timeout")) = Ret reason).
  { unfold or_else. destruct (truthy le); [exists shown; exact Hle | eexists; reflexivity]. }
  destruct Hreason as [reason ->].
  rewrite (bind_run _ _ _ _ _ (attach_debug_run req _ _)).
  do 2 eexists. split; [reflexivity |]. split; [exact Hst |].
  unfold with_debug. destruct (debug_requested req).
  - rewrite !peek_set_other by reflexivity.
    split; [reflexivity | exists reason; reflexivity].
  - split; [reflexivity | exists reason; reflexivity].
Qed.

(** C8. The handler always answers, and with 200 or 405: 405 exactly when
    the method is none of GET, POST and OPTIONS, hence 200 for each of the
    three.  For a POST the payload is an accepted provider result or a
    failure envelope (status "error" and a text).  It is the envelope
    "URL diperlukan" when the URL is missing, and an envelope with status
    "error" and a "Server Error: ..." text when reading the input throws.
    When the input is read, the payload is the result of the first of
    TikWM and Snaptik whose run wins the loop (returns a truthy result with
    a truthy status other than "error"), and when neither does, because it
    returns something else or throws, the payload has status "error" and a
    text "Gagal memproses link. ... .". *)
Theorem handler_status_codes (req : http_request) (st : state) :
  exists res st',
    Index.handler req st = (Ret res, st')
    /\ (res_status res = 200 \/ res_status res = 405)
    /\ (res_status res = 405 <-> ~ In (req_method req) ["GET"; "POST"; "OPTIONS"])
    /\ (req_method req = "POST" ->
        exists payload,
          res_body res = Some payload
          /\ (accepted payload = true \/ error_envelope payload)
          /\ (fst (Index.read_input req st) = Ret None ->
              payload = Index.error_result "URL diperlukan")
          /\ (forall e, fst (Index.read_input req st) = Throw e ->
              peek payload "text"
              = VStr ("Server Error: "
                      ++ (if (message e =? "")%string then "Unknown error"
                          else message e)))
          /\ (forall e, fst (Index.read_input req st) = Throw e ->
              peek payload "status" = VStr "error")
          /\ (forall url format quality,
                fst (Index.read_input req st) = Ret (Some (url, (format, quality))) ->
                let platform := Index.detectPlatform url in
                let first := Index.providerTikwm url format quality platform
                               (logged "Trying provider: providerTikwm" (fresh st)) in
                let second := Index.providerSnaptik url format quality platform
                                (logged "Trying provider: providerSnaptik"
                                   (noted "providerTikwm" first)) in
                match won first with
                | Some r =>
                    payload = with_debug req (debugLog st') r
                    /\ st' = logged "Success with providerTikwm" (snd first)
                | None =>
                    match won second with
                    | Some r =>
                        payload = with_debug req (debugLog st') r
                        /\ st' = logged "Success with providerSnaptik" (snd second)
                    | None =>
                        st' = noted "providerSnaptik" second
                        /\ peek payload "status" = VStr "error"
                        /\ exists reason,
                             peek payload "text"
                             = VStr ("Gagal memproses link. " ++ reason ++ ".")
                    end
                end)).
Proof.
  destruct (req_method req =? "OPTIONS")%string eqn:Hopt.
  { apply String.eqb_eq in Hopt. unfold Index.handler. rewrite Hopt. simpl.
    do 2 eexists. split; [reflexivity |]. split; [left; reflexivity |].
    split; [| intros H; discriminate H].
    split; [intros H; discriminate H | intros H; exfalso; apply H; simpl; auto]. }
  destruct (req_method req =? "GET")%string eqn:Hget.
  { apply String.eqb_eq in Hget. unfold Index.handler. rewrite Hget. simpl.
    do 2 eexists. split; [reflexivity |]. split; [left; reflexivity |].
    split; [| intros H; discriminate H].
    split; [intros H; discriminate H | intros H; exfalso; apply H; simpl; auto]. }
  destruct (req_method req =? "POST")%string eqn:Hpost.
  2:{ unfold Index.handler. rewrite Hopt, Hget, Hpost. simpl.
      do 2 eexists. split; [reflexivity |]. split; [right; reflexivity |].
      split.
      - split; [| reflexivity]. intros _ [H | [H | [H | []]]]; symmetry in H.
        + apply String.eqb_eq in H. congruence.
        + apply String.eqb_eq in H. congruence.
        + apply String.eqb_eq in H. congruence.
      - intros H. apply String.eqb_eq in H. congruence. }
  apply String.eqb_eq in Hpost.
  rewrite (handler_post req st Hpost). unfold try_catch.
  pose proof (stateless_run (Index.read_input req) st (read_input_stateless req))
    as Hin.
  destruct (fst (Index.read_input req st)) as [[[url [format quality]] |] | e] eqn:Hinput.
  - rewrite (bind_run _ _ _ _ _ Hin).
    destruct (resolve_turns req url format quality st)
      as (payload & st' & Hrun & Hturns).
    rewrite Hrun. do 2 eexists. split; [reflexivity |]. split; [left; reflexivity |].
    split.
    { split; [intros H; discriminate H |]. intros H. exfalso. apply H.
      rewrite Hpost. simpl. auto. }
    intros _. exists payload. split; [reflexivity |]. split.
    { cbv zeta in Hturns.
      destruct (won _) as [r |] eqn:Hfirst in Hturns.
      - destruct Hturns as [-> _]. left. rewrite accepted_with_debug.
        apply (won_accepted _ _ Hfirst).
      - destruct (won _) as [r |] eqn:Hsecond in Hturns.
        + destruct Hturns as [-> _]. left. rewrite accepted_with_debug.
          apply (won_accepted _ _ Hsecond).
        + destruct Hturns as (_ & Hstatus & reason & Htext). right.
          split; [exact Hstatus | eexists; exact Htext]. }
    split; [intros H; discriminate H |].
    split; [intros e H; discriminate H |].
    split; [intros e H; discriminate H |].
    intros url' format' quality' [= <- <- <-]. exact Hturns.
  - rewrite (bind_run _ _ _ _ _ Hin). simpl.
    do 2 eexists. split; [reflexivity |]. split; [left; reflexivity |].
    split.
    { split; [intros H; discriminate H |]. intros H. exfalso. apply H.
      rewrite Hpost. simpl. auto. }
    intros _. eexists. split; [reflexivity |].
    split; [right; split; [reflexivity | eexists; reflexivity] |].
    split; [reflexivity |].
    split; [intros e H; discriminate H |].
    split; [intros e H; discriminate H |].
    intros url format quality H. discriminate H.
  - unfold bind at 1. rewrite Hin. unfold str. rewrite bind_lift.
    assert (Htext : to_string (or_else (VStr (message e)) (VStr "Unknown error"))
                    = Ret (if (message e =? "")%string then "Unknown error" else message e)).
    { unfold or_else. simpl. destruct (message e =? "")%string; reflexivity. }
    rewrite Htext. simpl.
    do 2 eexists. split; [reflexivity |]. split; [left; reflexivity |].
    split.
    { split; [intros H; discriminate H |]. intros H. exfalso. apply H.
      rewrite Hpost. simpl. auto. }
    intros _. eexists. split; [reflexivity |].
    split; [right; split; [reflexivity | eexists; reflexivity] |].
    split; [intros H; discriminate H |].
    split; [intros e' E; injection E as <-; reflexivity |].
    split; [intros e' E; reflexivity |].
    intros url format quality H. discriminate H.
Qed.

End HandlerFacts.

(** ** The Snaptik adapter *)

Section SnaptikFacts.
Context `{rt : Runtime}.

Lemma try_parse_run (resp : value) (st : state) :
  try_catch (data <- Index.parse resp ;; ret (Some data)) (fun e => ret None) st
  = (Ret (match to_string resp with
          | Ret s => match JSON_parse s with Ret v => Some v | Throw _ => None end
          | Throw _ => None
          end), st).
Proof.
  unfold try_catch, Index.parse, str, bind, lift, ret.
  destruct (to_string resp) as [s | e]; [| reflexivity].
  destruct (JSON_parse s); reflexivity.
Qed.

Lemma snaptik_bare_payload (url : string) (format quality : value) (st : state)
    (resp : response) (body : string) (data : value) :
  network (sent st) (snaptik_post url) = Resolved resp ->
  text resp = Ret body ->
  body <> "" ->
  JSON_parse body = Ret data ->
  peek data "status" = VStr "success" ->
  truthy (peek data "video") = false ->
  truthy (peek data "nwm_video_url") = false ->
  fst (Index.providerSnaptik url format quality "tiktok" st)
  = Ret (VObj [("status", VStr "tunnel");
               ("url", VStr "");
               ("filename", VStr "tiktok_snaptik.mp4");
               ("title", or_else (peek data "desc") (VStr "TikTok Video"))]).
Proof.
  intros Hnet Htext Hbody Hparse Hstatus Hvideo Hnwm.
  unfold Index.providerSnaptik. cbn [negb String.eqb Ascii.eqb Bool.eqb]. cbv zeta.
  unfold bind at 1. unfold push at 1.
  erewrite bind_run by apply fetchUrl_run.
  fold snaptik_endpoint. fold (snaptik_post url).
  change (sent (logged "Snaptik(tik.fail) trying" st)) with (sent st).
  rewrite Hnet. unfold fetched_text. rewrite Htext.
  change (truthy (VStr body)) with (negb (body =? "")%string).
  destruct (body =? "")%string eqn:E; [apply String.eqb_eq in E; contradiction |].
  cbn [negb].
  rewrite (bind_run _ _ _ _ _ (try_parse_run _ _)).
  cbn [to_string]. rewrite Hparse.
  assert (Hobj : nullish data = false).
  { destruct data; try reflexivity; discriminate Hstatus. }
  assert (Htruthy : truthy data = true).
  { destruct data; try reflexivity; discriminate Hstatus. }
  cbv iota beta. rewrite Htruthy. cbn [negb].
  pure_goal. rewrite Hstatus.
  change (strict_eq (VStr "success") (VStr "success")) with true. cbn [negb].
  pure_goal. pure_goal.
  assert (Hurl : or_else (or_else (peek data "video") (peek data "nwm_video_url"))
                         (VStr "") = VStr "").
  { unfold or_else. rewrite Hvideo, Hnwm. reflexivity. }
  rewrite Hurl. reflexivity.
Qed.

Lemma snaptik_shape (url : string) (format quality : value) (platform : string)
    (st st' : state) (r : value) :
  Index.providerSnaptik url format quality platform st = (Ret r, st') ->
  r <> VNull ->
  exists u t,
    r = VObj [("status", VStr "tunnel"); ("url", u);
              ("filename", VStr "tiktok_snaptik.mp4"); ("title", t)].
Proof.
  intros Hrun Hr.
  unfold Index.providerSnaptik in Hrun. cbv zeta in Hrun.
  destruct (negb (platform =? "tiktok")%string).
  { injection Hrun as <- _. contradiction. }
  unfold bind at 1 in Hrun. unfold push at 1 in Hrun.
  erewrite bind_run in Hrun by apply fetchUrl_run.
  destruct (truthy (fetched_text _)) eqn:Hresp; cbn [negb] in Hrun.
  2:{ injection Hrun as <- _. contradiction. }
  rewrite (bind_run _ _ _ _ _ (try_parse_run _ _)) in Hrun.
  destruct (to_string (fetched_text _)) as [s | e].
  2:{ injection Hrun as <- _. contradiction. }
  destruct (JSON_parse s) as [data | e].
  2:{ injection Hrun as <- _. contradiction. }
  destruct (truthy data) eqn:Hdata; cbn [negb] in Hrun.
  - pose proof (truthy_not_nullish _ Hdata) as Hobj.
    pure_in Hrun.
    destruct (strict_eq (peek data "status") (VStr "success")); cbn [negb] in Hrun.
    + repeat pure_in Hrun. injection Hrun as <- _. do 2 eexists. reflexivity.
    + pure_in Hrun. unfold str in Hrun. rewrite bind_lift in Hrun.
      destruct (to_string _); [| discriminate Hrun].
      injection Hrun as <- _. contradiction.
  - pure_in Hrun. cbv iota in Hrun. pure_in Hrun.
    unfold str in Hrun. rewrite bind_lift in Hrun.
    destruct (to_string _); [| discriminate Hrun].
    injection Hrun as <- _. contradiction.
Qed.

(** C10. A Snaptik payload whose status is "success" and whose two video
    URL fields are both empty makes the adapter return a tunnel result
    with the empty string as URL; and every result the adapter returns
    other than [null] has exactly the fields status, url, filename and
    title: no variants, no author, no thumb. *)
Theorem snaptik_success_results (url : string) (format quality : value)
    (platform : string) (st st' : state) (r : value) :
  (forall resp body data,
      platform = "tiktok" ->
      network (sent st) (snaptik_post url) = Resolved resp ->
      text resp = Ret body ->
      body <> "" ->
      JSON_parse body = Ret data ->
      peek data "status" = VStr "success" ->
      truthy (peek data "video") = false ->
      truthy (peek data "nwm_video_url") = false ->
      exists result,
        fst (Index.providerSnaptik url format quality platform st) = Ret result
        /\ peek result "status" = VStr "tunnel"
        /\ peek result "url" = VStr "")
  /\ (Index.providerSnaptik url format quality platform st = (Ret r, st') ->
      r <> VNull ->
      exists fields,
        r = VObj fields
        /\ map fst fields = ["status"; "url"; "filename"; "title"]
        /\ peek r "status" = VStr "tunnel"
        /\ lookup "variants" fields = None
        /\ lookup "author" fields = None
        /\ lookup "thumb" fields = None).
Proof.
  split.
  - intros resp body data -> Hnet Htext Hbody Hparse Hstatus Hvideo Hnwm.
    eexists. split; [| split].
    + eapply snaptik_bare_payload; eassumption.
    + reflexivity.
    + reflexivity.
  - intros Hrun Hr.
    destruct (snaptik_shape _ _ _ _ _ _ _ Hrun Hr) as (u & t & ->).
    eexists. repeat split.
Qed.

End SnaptikFacts.

(** ** The size prober *)

Section ProberFacts.
Context `{rt : Runtime}.

Lemma formatBytes_of_string (s : string) : exists t, Filesize.formatBytes (VStr s) = Ret t.
Proof.
  unfold Filesize.formatBytes.
  destruct (negb (truthy (VStr s))); [eexists; reflexivity |].
  cbn [strict_eq to_number].
  destruct (string_to_number s) as [[] |]; try (eexists; reflexivity).
  destruct (0 <? n); [| eexists; reflexivity].
  destruct (n <? 2 ^ 49); eexists; reflexivity.
Qed.

(** The answer of the handler once [size] is settled: lines 65 to 69. *)
Lemma size_answer (size type : value) (st : state) :
  (size = VNull \/ exists s, size = VStr s) ->
  exists formatted,
    (parsed <- (if truthy size then s <- str size ;; ret (parseInt s) else ret VNull) ;;
     formatted <- (if truthy size then lift (Filesize.formatBytes size)
                   else ret "Unknown") ;;
     ret (Filesize.json 200 (VObj [("size", parsed); ("type", type);
                                   ("formatted", VStr formatted)]))) st
    = (Ret (Filesize.json 200
              (VObj [("size", match size with
                              | VStr s => if (s =? "")%string then VNull else parseInt s
                              | _ => VNull
                              end);
                     ("type", type); ("formatted", VStr formatted)])), st).
Proof.
  intros [-> | [s ->]].
  - eexists. reflexivity.
  - change (truthy (VStr s)) with (negb (s =? "")%string).
    destruct (s =? "")%string; cbn [negb].
    + eexists. reflexivity.
    + destruct (formatBytes_of_string s) as [t Ht].
      exists t. pure_goal. rewrite Ht. reflexivity.
Qed.

Lemma fetch_run (rq : request) (st : state) (r : response) :
  network (sent st) rq = Resolved r -> fetch rq st = (Ret r, sending rq st).
Proof. intros H. unfold fetch. rewrite H. reflexivity. Qed.

Lemma fallback_size_shape (answer : fetched) :
  fallback_size answer = VNull \/ exists s, fallback_size answer = VStr s.
Proof.
  unfold fallback_size, Filesize.header.
  destruct answer as [e | ranged]; [left; reflexivity |].
  destruct (ok ranged); [| left; reflexivity].
  destruct (headers_get ranged "content-range") as [s |]; cbv zeta.
  - destruct (s =? "")%string.
    + cbn [truthy].
      destruct (headers_get ranged "content-length"); [right; eexists |  left]; reflexivity.
    + destruct (Filesize.match_total s) as [total |].
      * destruct (truthy (VStr total)); [right; eexists; reflexivity |].
        destruct (headers_get ranged "content-length"); [right; eexists |  left]; reflexivity.
      * cbn [truthy].
        destruct (headers_get ranged "content-length"); [right; eexists |  left]; reflexivity.
  - cbn [truthy].
    destruct (headers_get ranged "content-length"); [right; eexists |  left]; reflexivity.
Qed.

(** The fallback block of the handler, lines 36 to 62, entered with
    [size] still [null]. *)
Lemma fallback_run (target : string) (st : state) :
  exists st',
    try_catch
      (rangeResponse <- fetch (range_request target) ;;
       if ok rangeResponse then
         let contentRange := Filesize.header rangeResponse "content-range" in
         let size :=
           match contentRange with
           | VStr s =>
               if truthy contentRange then
                 match Filesize.match_total s with
                 | Some total => VStr total
                 | None => VNull
                 end
               else VNull
           | _ => VNull
           end in
         let size := if negb (truthy size)
                     then Filesize.header rangeResponse "content-length"
                     else size in
         ret size
       else ret VNull)
      (fun e => console_error "Range fallback failed:" (message e) ;; ret VNull) st
    = (Ret (fallback_size (network (sent st) (range_request target))), st')
    /\ sent st' = (sent st ++ [range_request target])%list.
Proof.
  unfold try_catch, bind, fetch, fallback_size.
  destruct (network (sent st) (range_request target)) as [e | ranged].
  - eexists. split; reflexivity.
  - destruct (ok ranged); [| eexists; split; reflexivity].
    cbv zeta. unfold Filesize.header.
    destruct (headers_get ranged "content-length") as [len |];
      destruct (headers_get ranged "content-range") as [s |];
      try (eexists; split; reflexivity).
    all: change (truthy (VStr s)) with (negb (s =? "")%string).
    all: destruct (s =? "")%string; cbn [negb truthy];
      try (eexists; split; reflexivity).
    all: destruct (Filesize.match_total s) as [total |];
      try (eexists; split; reflexivity).
    all: destruct (truthy (VStr total)); eexists; split; reflexivity.
Qed.

(** A probe whose HEAD succeeded without a content-length. *)
Lemma probe_run (req : http_request) (url : value) (target : string) (st : state)
    (head : response) :
  req_method req <> "OPTIONS" ->
  get (req_query req) "url" = Ret url ->
  truthy url = true ->
  to_string url = Ret target ->
  network (sent st) (head_request target) = Resolved head ->
  ok head = true ->
  headers_get head "content-length" = None ->
  exists formatted st',
    Filesize.handler req st
    = (Ret (Filesize.json 200
              (VObj [("size",
                      match fallback_size
                              (network (sent st ++ [head_request target])
                                       (range_request target)) with
                      | VStr s => if (s =? "")%string then VNull else parseInt s
                      | _ => VNull
                      end);
                     ("type", Filesize.header head "content-type");
                     ("formatted", VStr formatted)])), st')
    /\ sent st' = (sent st ++ [head_request target; range_request target])%list.
Proof.
  intros Hmethod Hget Htruthy Htarget Hhead Hok Hlength.
  unfold Filesize.handler.
  destruct (req_method req =? "OPTIONS")%string eqn:E;
    [apply String.eqb_eq in E; contradiction |].
  assert (Hurl : Filesize.destructure_url (req_query req) st = (Ret url, st)).
  { unfold Filesize.destructure_url, prop, lift.
    destruct (req_query req); try discriminate Hget; rewrite Hget; reflexivity. }
  rewrite (bind_run _ _ _ _ _ Hurl). rewrite Htruthy. cbn [negb].
  unfold try_catch at 1.
  erewrite bind_yields by (apply yields_str, Htarget).
  fold (head_request target).
  rewrite (bind_run _ _ _ _ _ (fetch_run _ _ _ Hhead)).
  cbv zeta.
  assert (Hsize : Filesize.header head "content-length" = VNull).
  { unfold Filesize.header. rewrite Hlength. reflexivity. }
  rewrite Hsize, Hok. cbn [truthy negb andb].
  fold (range_request target).
  destruct (fallback_run target (sending (head_request target) st))
    as (st1 & Hfallback & Hsent).
  rewrite (bind_run _ _ _ _ _ Hfallback).
  change (sent (sending (head_request target) st))
    with (sent st ++ [head_request target])%list in *.
  destruct (size_answer _ (Filesize.header head "content-type") st1
              (fallback_size_shape
                 (network (sent st ++ [head_request target]) (range_request target))))
    as [formatted Hans].
  rewrite Hans. do 2 eexists. split; [reflexivity |].
  rewrite Hsent, <- app_assoc. reflexivity.
Qed.

(** C7, amended.  When the HEAD response is ok and carries no
    content-length, the ranged GET goes out.  If its response is ok in
    turn, then with the content-range "bytes 0-0/500000" the reported size
    is the number 500000, and with no content-range the reported size is
    that response's own content-length read as an integer (null when that
    header is absent or empty too). *)
Theorem range_fallback_size (req : http_request) (url : value) (target : string)
    (st : state) (head : response) :
  req_method req <> "OPTIONS" ->
  get (req_query req) "url" = Ret url ->
  truthy url = true ->
  to_string url = Ret target ->
  network (sent st) (head_request target) = Resolved head ->
  ok head = true ->
  headers_get head "content-length" = None ->
  sent (snd (Filesize.handler req st))
  = (sent st ++ [head_request target; range_request target])%list
  /\ forall ranged,
       network (sent st ++ [head_request target]) (range_request target)
         = Resolved ranged ->
       ok ranged = true ->
       (headers_get ranged "content-range" = Some "bytes 0-0/500000" ->
        reported "size" (Filesize.handler req st) = Some (VNum 500000))
       /\ (headers_get ranged "content-range" = None ->
           reported "size" (Filesize.handler req st)
           = Some (match headers_get ranged "content-length" with
                   | Some s => if (s =? "")%string then VNull else parseInt s
                   | None => VNull
                   end)).
Proof.
  intros Hmethod Hget Htruthy Htarget Hhead Hok Hlength.
  destruct (probe_run req url target st head Hmethod Hget Htruthy Htarget Hhead Hok
              Hlength) as (formatted & st' & Hrun & Hsent).
  rewrite Hrun. split; [exact Hsent |].
  intros ranged Hranged Hok2. unfold reported. cbn [fst Filesize.json respond res_body peek lookup String.eqb Ascii.eqb Bool.eqb].
  rewrite Hranged. unfold fallback_size. rewrite Hok2.
  split.
  - intros ->. reflexivity.
  - intros ->. cbv zeta. cbn [truthy]. unfold Filesize.header.
    destruct (headers_get ranged "content-length"); reflexivity.
Qed.

End ProberFacts.

(** ** The theorems on sample runs *)

Import Sample.

(** C1 on a run where TikWM answers the POST with a playable video: one
    request goes out, and it is the POST to TikWM. *)
Lemma first_success_short_circuits_witness :
  exists r s1,
    Index.providerTikwm (rt := tikwm_up) tiktok_url (VStr "auto") (VStr "720") "tiktok"
      (logged "Trying provider: providerTikwm" initial) = (Ret r, s1)
    /\ accepted r = true
    /\ Index.handler (rt := tikwm_up) media_request initial
       = (Ret (Index.json 200 r), logged "Success with providerTikwm" s1)
    /\ sent (logged "Success with providerTikwm" s1) = [tikwm_post tiktok_url].
Proof.
  do 2 eexists.
  pose proof (first_success_short_circuits (rt := tikwm_up) media_request tiktok_url
                (VStr "auto") (VStr "720") _ _ eq_refl eq_refl eq_refl eq_refl eq_refl)
    as [Hrun _].
  split; [reflexivity |]. split; [reflexivity |]. split; [exact Hrun | reflexivity].
Defined.

(** C2 on a run where TikWM refuses with "rate limit" and Snaptik is
    unreachable. *)
Lemma all_providers_fail_witness :
  exists st',
    all_fail tiktok_url (VStr "auto") (VStr "720") (Index.detectPlatform tiktok_url)
      (Index.providers (rt := tikwm_limited)) initial "" st' "TikWM: rate limit"
    /\ Index.handler (rt := tikwm_limited) media_request initial
       = (Ret (Index.json 200
                 (VObj [("status", VStr "error");
                        ("text", VStr "Gagal memproses link. TikWM: rate limit.")])),
          st').
Proof.
  assert (Hfail : exists st',
             all_fail tiktok_url (VStr "auto") (VStr "720")
               (Index.detectPlatform tiktok_url) (Index.providers (rt := tikwm_limited))
               initial "" st' "TikWM: rate limit").
  { eexists.
    eapply all_fail_cons with (f := Failed "TikWM: rate limit");
      [vm_compute; reflexivity |].
    eapply all_fail_cons with (f := Declined); [vm_compute; reflexivity |].
    apply all_fail_nil. }
  destruct Hfail as [st' Hfail]. exists st'. split; [exact Hfail |].
  exact (all_providers_fail (rt := tikwm_limited) media_request tiktok_url
           (VStr "auto") (VStr "720") st' "TikWM: rate limit" eq_refl eq_refl Hfail).
Defined.

(** C3, amended, on the same run: the refusal triggers the GET, and its
    message ends up in the error result; for a URL with an unpaired
    surrogate the adapter throws after the POST. *)
Lemma tikwm_retry_and_errors_witness :
  truthy (final_data (rt := tikwm_limited) tiktok_url initial) = true
  /\ peek (final_data (rt := tikwm_limited) tiktok_url initial) "code" = VNum (-1)
  /\ fst (Index.providerTikwm (rt := tikwm_limited) tiktok_url (VStr "auto") (VStr "720")
            "tiktok" initial)
     = Ret (Index.error_result "TikWM: rate limit")
  /\ sent (snd (Index.providerTikwm (rt := tikwm_limited) tiktok_url (VStr "auto")
                  (VStr "720") "tiktok" initial))
     = [tikwm_post tiktok_url; tikwm_get tiktok_url]
  /\ fst (Index.providerTikwm (rt := tikwm_limited) broken_url (VStr "auto") (VStr "720")
            "tiktok" initial)
     = Throw (URIError "URI malformed")
  /\ sent (snd (Index.providerTikwm (rt := tikwm_limited) broken_url (VStr "auto")
                  (VStr "720") "tiktok" initial))
     = [tikwm_post broken_url].
Proof.
  pose proof (tikwm_retry_and_errors (rt := tikwm_limited) tiktok_url (VStr "auto")
                (VStr "720") initial) as (Hretry & _ & _ & _ & _ & Herror).
  pose proof (tikwm_retry_and_errors (rt := tikwm_limited) broken_url (VStr "auto")
                (VStr "720") initial) as (_ & Hbroken & _).
  split; [reflexivity |]. split; [reflexivity |]. split; [| split].
  - rewrite Herror; [reflexivity | reflexivity | right; discriminate].
  - apply Hretry; [| reflexivity]. right; right. eexists. split; [reflexivity |].
    split; [reflexivity |]. split; discriminate.
  - apply Hbroken; [| reflexivity]. right; right. eexists. split; [reflexivity |].
    split; [reflexivity |]. split; discriminate.
Defined.

(** C3 as worded fails when TikWM answers the POST with the JSON text
    [null]: that is parseable JSON and it has no code field, yet the GET
    follows. *)
Lemma tikwm_retry_counterexample :
  json_of (rt := tikwm_null) (post_answer (rt := tikwm_null) tiktok_url initial)
  = Some VNull
  /\ peek VNull "code" = VUndefined
  /\ In (tikwm_get tiktok_url)
        (sent (snd (Index.providerTikwm (rt := tikwm_null) tiktok_url (VStr "auto")
                      (VStr "720") "tiktok" initial)))
  /\ (retry_rule_as_stated (rt := tikwm_null) tiktok_url initial -> False).
Proof.
  assert (Hin : In (tikwm_get tiktok_url)
                   (sent (snd (Index.providerTikwm (rt := tikwm_null) tiktok_url
                                 (VStr "auto") (VStr "720") "tiktok" initial)))).
  { right. left. reflexivity. }
  split; [reflexivity |]. split; [reflexivity |]. split; [exact Hin |].
  intros [Hclaim _]. destruct (Hclaim Hin) as [Hnone | (payload & Hsome & Hdef & _)].
  - discriminate Hnone.
  - injection Hsome as <-. apply Hdef. reflexivity.
Qed.

(** C6 on a payload with a play and a music URL and no watermarked one. *)
Lemma tikwm_variants_ordered_witness :
  exists r st' vs,
    Index.providerTikwm (rt := tikwm_up) tiktok_url (VStr "auto") (VStr "720") "tiktok"
      initial = (Ret r, st')
    /\ peek r "status" = VStr "tunnel"
    /\ peek r "variants" = VArr vs
    /\ map kind vs = ["video-hd"; "video-sd"; "audio"]
    /\ subsequence (map kind vs) variant_order = true.
Proof.
  destruct (tikwm_variants_ordered (rt := tikwm_up) tiktok_url (VStr "auto") (VStr "720")
              "tiktok" initial _ _ eq_refl eq_refl) as (vs & Hvs & Hsub & _).
  do 3 eexists. split; [reflexivity |]. split; [reflexivity |].
  split; [exact Hvs |].
  injection Hvs as <-. split; [reflexivity | exact Hsub].
Defined.

(** C7, amended, on a HEAD without content-length followed by a 206 with
    the content-range "bytes 0-0/500000". *)
Lemma range_fallback_size_witness :
  reported "size" (Filesize.handler (rt := ranged_ok) probe_request initial)
  = Some (VNum 500000)
  /\ sent (snd (Filesize.handler (rt := ranged_ok) probe_request initial))
     = [head_request file_url; range_request file_url].
Proof.
  destruct (range_fallback_size (rt := ranged_ok) probe_request (VStr file_url) file_url
              initial
              {| ok := true;
                 headers_get := fun name => lookup name [("content-type", "video/mp4")];
                 text := Ret "" |}
              ltac:(discriminate) eq_refl eq_refl eq_refl eq_refl eq_refl eq_refl)
    as [Hsent Hsize].
  split; [| exact Hsent].
  apply (Hsize {| ok := true;
                  headers_get := fun name =>
                    lookup name [("content-range", "bytes 0-0/500000")];
                  text := Ret "x" |}); reflexivity.
Defined.

(** C7 as worded fails when the ranged GET is answered with an error
    status: its content-range is not read and no size is reported. *)
Lemma range_fallback_counterexample :
  (exists head ranged,
      network (Runtime := ranged_refused) [] (head_request file_url) = Resolved head
      /\ ok head = true
      /\ headers_get head "content-length" = None
      /\ network (Runtime := ranged_refused) [head_request file_url]
           (range_request file_url) = Resolved ranged
      /\ headers_get ranged "content-range" = Some "bytes 0-0/500000")
  /\ reported "size" (Filesize.handler (rt := ranged_refused) probe_request initial)
     = Some VNull
  /\ (range_rule_as_stated (rt := ranged_refused) probe_request file_url initial
      -> False).
Proof.
  split; [| split].
  - do 2 eexists. repeat split; reflexivity.
  - reflexivity.
  - intros Hclaim.
    specialize (Hclaim _ _ eq_refl eq_refl eq_refl eq_refl eq_refl).
    discriminate Hclaim.
Qed.

(** C10 on the payload with status "success" and nothing else. *)
Lemma snaptik_success_results_witness :
  exists r st',
    Index.providerSnaptik (rt := snaptik_bare) tiktok_url (VStr "auto") (VStr "720")
      "tiktok" initial = (Ret r, st')
    /\ peek r "status" = VStr "tunnel"
    /\ peek r "url" = VStr ""
    /\ peek r "variants" = VUndefined
    /\ peek r "author" = VUndefined
    /\ peek r "thumb" = VUndefined.
Proof.
  destruct (snaptik_success_results (rt := snaptik_bare) tiktok_url (VStr "auto")
              (VStr "720") "tiktok" initial
              (snd (Index.providerSnaptik (rt := snaptik_bare) tiktok_url (VStr "auto")
                      (VStr "720") "tiktok" initial))
              (VObj [("status", VStr "tunnel"); ("url", VStr "");
                     ("filename", VStr "tiktok_snaptik.mp4");
                     ("title", VStr "TikTok Video")]))
    as [Hbare Hshape].
  destruct (Hbare {| ok := true; headers_get := fun name => lookup name [];
                     text := Ret (Lab.q "{'status':'success'}") |}
              (Lab.q "{'status':'success'}") (VObj [("status", VStr "success")])
              eq_refl eq_refl eq_refl ltac:(discriminate) eq_refl eq_refl
              eq_refl eq_refl) as (result & Hrun & Hstatus & Hurl).
  destruct (Hshape eq_refl ltac:(discriminate))
    as (fields & Hfields & _ & _ & Hv & Ha & Ht).
  do 2 eexists. split; [vm_compute; reflexivity |].
  repeat split; reflexivity.
Defined.

(** C8 on a POST whose body has no URL. *)
Lemma handler_status_codes_witness :
  exists res st',
    Index.handler (rt := tikwm_limited)
      {| req_method := "POST"; req_body := VObj []; req_query := VObj [] |} initial
    = (Ret res, st')
    /\ res_status res = 200
    /\ res_body res = Some (Index.error_result "URL diperlukan").
Proof.
  destruct (handler_status_codes (rt := tikwm_limited)
              {| req_method := "POST"; req_body := VObj []; req_query := VObj [] |}
              initial)
    as (res & st' & Hrun & _ & _ & Hpost).
  exists res, st'. split; [exact Hrun |].
  injection Hrun as <- <-. split; reflexivity.
Defined.

(** ** The resolver beyond the provider loop: input handling *)

Import Cover.

Section InputFacts.
Context `{rt : Runtime}.

Lemma decode_run (body : value) (st : state) :
  (if (typeof body =? "string")%string
   then try_catch (Index.parse body) (fun e => ret body)
   else ret body) st
  = (Ret (decoded body), st).
Proof.
  destruct body; try reflexivity.
  simpl. unfold try_catch, Index.parse, str, bind, lift. simpl.
  destruct (JSON_parse s); reflexivity.
Qed.

(** What [read_input] makes of a request. *)
Lemma read_input_run (req : http_request) (st : state) :
  Index.read_input req st
  = (let input := decoded (req_body req) in
     if negb (truthy input) || negb (typeof input =? "object")%string
        || negb (truthy (peek input "url"))
     then Ret None
     else match peek input "url" with
          | VStr s =>
              Ret (Some (trim s,
                         (or_else (peek input "downloadMode") (VStr "auto"),
                          or_else (peek input "videoQuality") (VStr "720"))))
          | _ => Throw not_a_function
          end,
     st).
Proof.
  unfold Index.read_input. cbv zeta.
  rewrite (bind_run _ _ _ _ _ (decode_run (req_body req) st)).
  set (input := decoded (req_body req)).
  destruct (truthy input) eqn:Hin; cbn [negb orb].
  2:{ pure_goal. reflexivity. }
  pose proof (truthy_not_nullish _ Hin) as Hobj.
  destruct (typeof input =? "object")%string; cbn [negb orb].
  2:{ pure_goal. reflexivity. }
  pure_goal.
  destruct (truthy (peek input "url")) eqn:Hurl; cbn [negb].
  2:{ reflexivity. }
  pose proof (truthy_not_nullish _ Hurl) as Hu.
  pure_goal.
  destruct (peek input "url") eqn:Hpeek; try discriminate Hu;
    unfold Index.call_trim.
  all: try (erewrite bind_throw;
            [reflexivity
            | erewrite bind_yields by (apply yields_prop; reflexivity); reflexivity]).
  repeat pure_goal. reflexivity.
Qed.

Lemma handler_cases (req : http_request) (st : state) :
  req_method req = "POST" ->
  Index.handler req st
  = match fst (Index.read_input req st) with
    | Ret None => (Ret (Index.json 200 (Index.error_result "URL diperlukan")), st)
    | Ret (Some (url, (format, quality))) => Index.resolve req url format quality st
    | Throw e => (Ret (Index.json 200 (server_error e)), st)
    end.
Proof.
  intros Hpost. rewrite (handler_post req st Hpost). unfold try_catch.
  pose proof (stateless_run (Index.read_input req) st (read_input_stateless req))
    as Hin.
  destruct (fst (Index.read_input req st)) as [[[url [format quality]] |] | e].
  - rewrite (bind_run _ _ _ _ _ Hin).
    destruct (resolve_returns req url format quality st) as (payload & st' & Hrun & _).
    rewrite Hrun. reflexivity.
  - rewrite (bind_run _ _ _ _ _ Hin). reflexivity.
  - rewrite (bind_throw _ _ _ _ _ Hin).
    unfold server_error, str. rewrite bind_lift.
    unfold or_else. simpl truthy.
    destruct (message e =? "")%string; reflexivity.
Qed.

(** X1. A POST whose decoded body is falsy, is not an object, or has no
    non-empty [url] is answered 200 with the error "URL diperlukan", and the
    state is untouched: nothing is logged and no request goes out.  A body
    that is a string of malformed JSON is one such case. *)
Theorem missing_url_is_rejected (req : http_request) (st : state) :
  req_method req = "POST" ->
  truthy (decoded (req_body req)) = false
  \/ typeof (decoded (req_body req)) <> "object"
  \/ truthy (peek (decoded (req_body req)) "url") = false ->
  Index.handler req st
  = (Ret (Index.json 200 (Index.error_result "URL diperlukan")), st).
Proof.
  intros Hpost Hmissing. rewrite (handler_cases req st Hpost), read_input_run.
  cbv zeta. cbn [fst].
  assert (Hcond : negb (truthy (decoded (req_body req)))
                  || negb (typeof (decoded (req_body req)) =? "object")%string
                  || negb (truthy (peek (decoded (req_body req)) "url")) = true).
  { destruct Hmissing as [H | [H | H]].
    - rewrite H. reflexivity.
    - destruct (typeof (decoded (req_body req)) =? "object")%string eqn:E.
      + apply String.eqb_eq in E. contradiction.
      + rewrite orb_true_r. reflexivity.
    - rewrite H. apply orb_true_r. }
  rewrite Hcond. reflexivity.
Qed.

(** X2. A POST whose body is an object with a [url] that is truthy but not
    a string (a number, [true], an array, an object) makes [input.url.trim()]
    throw; the last-resort handler answers 200 with the error
    "Server Error: input.url.trim is not a function", the stack being
    included only when NODE_ENV is "development".  No request goes out. *)
Theorem non_string_url_is_server_error (req : http_request) (st : state) :
  req_method req = "POST" ->
  truthy (peek (decoded (req_body req)) "url") = true ->
  (forall s, peek (decoded (req_body req)) "url" <> VStr s) ->
  Index.handler req st
  = (Ret (Index.json 200
            (VObj [("status", VStr "error");
                   ("text", VStr "Server Error: input.url.trim is not a function");
                   ("stack", if strict_eq NODE_ENV (VStr "development")
                             then stack not_a_function else VUndefined)])),
     st).
Proof.
  intros Hpost Hurl Hstr. rewrite (handler_cases req st Hpost), read_input_run.
  cbv zeta. cbn [fst].
  assert (Hobj : exists fields, decoded (req_body req) = VObj fields).
  { destruct (decoded (req_body req)); try discriminate Hurl. eexists. reflexivity. }
  destruct Hobj as [fields Hobj]. rewrite Hobj in *.
  rewrite Hurl. cbn [truthy typeof negb orb String.eqb Ascii.eqb Bool.eqb].
  destruct (peek (VObj fields) "url") eqn:Hpeek; try reflexivity.
  exfalso. exact (Hstr s eq_refl).
Qed.

(** X3. A POST whose URL is not detected as TikTok's makes both adapters
    decline at once: the answer is 200 with the failure envelope carrying
    the default message, the log holds the two "Trying provider" lines, and
    no request goes out. *)
Theorem other_platforms_are_declined (req : http_request) (url : string)
    (format quality : value) (st : state) :
  req_method req = "POST" ->
  Index.read_input req st = (Ret (Some (url, (format, quality))), st) ->
  Index.detectPlatform url <> "tiktok" ->
  let final := logged "Trying provider: providerSnaptik"
                 (logged "Trying provider: providerTikwm" (fresh st)) in
  Index.handler req st
  = (Ret (Index.json 200
            (with_debug req (debugLog final)
               (VObj [("status", VStr "error");
                      ("text",
                       VStr "Gagal memproses link. Server sibuk atau timeout.")]))),
     final)
  /\ sent final = sent st.
Proof.
  intros Hpost Hinput Hother final. split; [| reflexivity].
  rewrite (handler_cases req st Hpost), Hinput. cbn [fst].
  assert (Hneq : negb (Index.detectPlatform url =? "tiktok")%string = true).
  { destruct (Index.detectPlatform url =? "tiktok")%string eqn:E; [| reflexivity].
    apply String.eqb_eq in E. contradiction. }
  apply (resolve_failure req url format quality st final "").
  eapply all_fail_cons with (f := Declined).
  { simpl. unfold Index.providerTikwm. rewrite Hneq. reflexivity. }
  eapply all_fail_cons with (f := Declined).
  { simpl. unfold Index.providerSnaptik. rewrite Hneq. reflexivity. }
  apply all_fail_nil.
Qed.

End InputFacts.

(** ** The provider loop beyond the first success and the plain failure *)

Section LoopFacts.
Context `{rt : Runtime}.

(** The loop body when the provider throws. *)
Lemma attempt_throw (p : Index.provider) (url : string) (format quality : value)
    (platform : string) (fr le : value) (e : exn) (st s1 : state) :
  truthy fr = false ->
  Index.run p url format quality platform
    (logged ("Trying provider: " ++ Index.name p) st) = (Throw e, s1) ->
  Index.attempt p url format quality platform fr le st
  = (Ret (false, (fr, VStr (message e))),
     logged ("Exception " ++ Index.name p ++ ": " ++ message e) s1).
Proof.
  intros Hfr Hrun. unfold Index.attempt, try_catch. rewrite Hfr.
  unfold bind at 1. unfold push at 1.
  rewrite (bind_throw _ _ _ _ _ Hrun). reflexivity.
Qed.

(** The answer of [resolve], from the outcome of the loop. *)
Lemma resolve_of_chain (req : http_request) (url : string) (format quality : value)
    (st s' : state) (fr : value) (last : string) :
  Index.chain Index.providers url format quality (Index.detectPlatform url)
    VNull (VStr "") (fresh st) = (Ret (fr, VStr last), s') ->
  Index.resolve req url format quality st
  = (Ret (Index.json 200
            (with_debug req (debugLog s')
               (if truthy fr then fr else envelope last))), s').
Proof.
  intros Hchain. unfold Index.resolve.
  unfold bind at 1. unfold new_log at 1. fold (fresh st).
  rewrite (bind_run _ _ _ _ _ Hchain). cbv zeta. cbn [fst snd].
  destruct (truthy fr).
  - rewrite (bind_run _ _ _ _ _ (attach_debug_run req fr _)). reflexivity.
  - unfold envelope, failure_text, or_else.
    change (truthy (VStr last)) with (negb (last =? "")%string).
    destruct (last =? "")%string; cbn [negb]; unfold str; rewrite bind_lift;
      simpl to_string; cbv iota;
      rewrite (bind_run _ _ _ _ _ (attach_debug_run req _ _)); reflexivity.
Qed.

(** X4. When TikWM returns [null] or an error result and Snaptik then
    returns a result the loop accepts, the handler answers 200 with
    Snaptik's result (the trace attached when asked for); the log shows the
    failure of the first adapter, if it reported one, before the success of
    the second. *)
Theorem second_provider_takes_over (req : http_request) (url : string)
    (format quality : value) (f : failure) (st s1 s2 : state) (r : value) :
  req_method req = "POST" ->
  Index.read_input req st = (Ret (Some (url, (format, quality))), st) ->
  Index.providerTikwm url format quality (Index.detectPlatform url)
    (logged "Trying provider: providerTikwm" (fresh st)) = (Ret (result_of f), s1) ->
  Index.providerSnaptik url format quality (Index.detectPlatform url)
    (logged "Trying provider: providerSnaptik"
       (after_failure "providerTikwm" f s1)) = (Ret r, s2) ->
  accepted r = true ->
  let final := logged "Success with providerSnaptik" s2 in
  Index.handler req st
  = (Ret (Index.json 200 (with_debug req (debugLog final) r)), final).
Proof.
  intros Hpost Hinput Hfirst Hsecond Hok final.
  rewrite (handler_cases req st Hpost), Hinput. cbn [fst].
  rewrite (resolve_of_chain req url format quality st final r (recorded f "")).
  - rewrite (accepted_truthy _ Hok). reflexivity.
  - unfold Index.providers. cbn [Index.chain].
    rewrite (bind_run _ _ _ _ _
               (attempt_failure url format quality (Index.detectPlatform url)
                  {| Index.name := "providerTikwm"; Index.run := Index.providerTikwm |}
                  VNull "" f (fresh st) s1 eq_refl Hfirst)).
    cbn [fst snd].
    rewrite (bind_run _ _ _ _ _
               (attempt_success url format quality (Index.detectPlatform url)
                  {| Index.name := "providerSnaptik"; Index.run := Index.providerSnaptik |}
                  VNull _ r _ s2 eq_refl Hsecond Hok)).
    reflexivity.
Qed.

(** X5. When TikWM throws, the loop records the exception's message and
    goes on; if Snaptik then returns [null] or an error result, the handler
    answers 200 with the failure envelope, whose text carries the message
    of the exception unless Snaptik reported a message of its own. *)
Theorem provider_exception_is_recorded (req : http_request) (url : string)
    (format quality : value) (e : exn) (f : failure) (st s1 s2 : state) :
  req_method req = "POST" ->
  Index.read_input req st = (Ret (Some (url, (format, quality))), st) ->
  Index.providerTikwm url format quality (Index.detectPlatform url)
    (logged "Trying provider: providerTikwm" (fresh st)) = (Throw e, s1) ->
  Index.providerSnaptik url format quality (Index.detectPlatform url)
    (logged "Trying provider: providerSnaptik"
       (logged ("Exception providerTikwm: " ++ message e) s1))
    = (Ret (result_of f), s2) ->
  let final := after_failure "providerSnaptik" f s2 in
  Index.handler req st
  = (Ret (Index.json 200
            (with_debug req (debugLog final)
               (VObj [("status", VStr "error");
                      ("text",
                       VStr ("Gagal memproses link. "
                             ++ (if (recorded f (message e) =? "")%string
                                 then "Server sibuk atau timeout"
                                 else recorded f (message e))
                             ++ "."))]))),
     final).
Proof.
  intros Hpost Hinput Hfirst Hsecond final.
  rewrite (handler_cases req st Hpost), Hinput. cbn [fst].
  rewrite (resolve_of_chain req url format quality st final VNull
             (recorded f (message e))).
  - reflexivity.
  - unfold Index.providers. cbn [Index.chain].
    rewrite (bind_run _ _ _ _ _
               (attempt_throw
                  {| Index.name := "providerTikwm"; Index.run := Index.providerTikwm |}
                  url format quality (Index.detectPlatform url)
                  VNull (VStr "") e (fresh st) s1 eq_refl Hfirst)).
    cbn [fst snd].
    rewrite (bind_run _ _ _ _ _
               (attempt_failure url format quality (Index.detectPlatform url)
                  {| Index.name := "providerSnaptik"; Index.run := Index.providerSnaptik |}
                  VNull (message e) f _ s2 eq_refl Hsecond)).
    reflexivity.
Qed.

End LoopFacts.

(** ** The TikWM adapter beyond the retry rule and the order of variants *)

Section TikwmMore.
Context `{rt : Runtime}.

(** A tunnel result of the adapter is the one built from [data.data]. *)
Lemma tunnel_from_media (url : string) (format quality : value) (platform : string)
    (st st' : state) (r : value) :
  Index.providerTikwm url format quality platform st = (Ret r, st') ->
  peek r "status" = VStr "tunnel" ->
  Index.tikwm_media (peek (final_data url st) "data") (tikwm_state url st)
  = (Ret r, st').
Proof.
  intros Hrun Hstatus.
  unfold Index.providerTikwm in Hrun.
  destruct (negb (platform =? "tiktok")%string).
  { injection Hrun as <- _. discriminate Hstatus. }
  destruct (gives_up url st) eqn:Hgone.
  { erewrite bind_throw in Hrun by (rewrite tikwm_request_run, Hgone; reflexivity).
    discriminate Hrun. }
  rewrite (bind_run _ _ _ _ _ (tikwm_request_returns url st Hgone)) in Hrun.
  destruct (truthy (final_data url st)) eqn:Hdata; simpl in Hrun.
  2:{ injection Hrun as <- _. discriminate Hstatus. }
  pose proof (truthy_not_nullish _ Hdata) as Hobj.
  pure_in Hrun.
  destruct (strict_eq (peek (final_data url st) "code") VUndefined
            || negb (strict_eq (peek (final_data url st) "code") (VNum 0))).
  - pure_in Hrun. unfold str in Hrun. rewrite bind_lift in Hrun.
    destruct (to_string _); [| discriminate Hrun].
    injection Hrun as <- _. discriminate Hstatus.
  - pure_in Hrun. exact Hrun.
Qed.

(** Everything a tunnel result says about its URLs. *)
Lemma tikwm_media_tunnel (video : value) (st st' : state) (r : value) :
  Index.tikwm_media video st = (Ret r, st') ->
  peek r "status" = VStr "tunnel" ->
  exists vs,
    peek r "variants" = VArr vs
    /\ In (map kind vs) variant_shapes
    /\ peek r "url" = primary video
    /\ truthy (primary video) = true
    /\ Exists (fun v => link v = peek r "url") vs.
Proof.
  intros Hrun Hstatus.
  destruct (nullish video) eqn:Hv.
  { destruct video; try discriminate; discriminate Hrun. }
  unfold Index.tikwm_media in Hrun. unfold primary.
  destruct (truthy (peek video "hdplay")) eqn:Hhd,
           (truthy (peek video "play")) eqn:Hplay,
           (truthy (peek video "wmplay")) eqn:Hwm,
           (truthy (peek video "music")) eqn:Hmusic.
  all: repeat first
         [ pure_in Hrun
         | progress (unfold or_else in Hrun;
                     rewrite ?Hhd, ?Hplay, ?Hwm, ?Hmusic in Hrun;
                     cbn [truthy] in Hrun) ].
  all: try (unfold str in Hrun; rewrite bind_lift in Hrun;
            match type of Hrun with
            | context [match to_string ?v with _ => _ end] => destruct (to_string v)
            end; [| discriminate Hrun]).
  all: repeat pure_in Hrun.
  all: injection Hrun as <- _.
  all: try discriminate Hstatus.
  all: unfold or_else; rewrite ?Hhd, ?Hplay, ?Hwm, ?Hmusic; cbn [truthy];
       rewrite ?Hhd, ?Hplay, ?Hwm, ?Hmusic.
  all: eexists; split; [reflexivity |].
  all: split; [simpl; tauto |].
  all: split; [reflexivity |].
  all: split; [reflexivity |].
  all: unfold link; cbn [peek lookup String.eqb Ascii.eqb Bool.eqb].
  all: first [ apply Exists_cons_hd; reflexivity
             | apply Exists_cons_tl, Exists_cons_hd; reflexivity
             | apply Exists_cons_tl, Exists_cons_tl, Exists_cons_hd; reflexivity
             | apply Exists_cons_tl, Exists_cons_tl, Exists_cons_tl, Exists_cons_hd;
               reflexivity ].
Qed.

Lemma tikwm_media_not_found (video : value) (st : state) :
  nullish video = false ->
  truthy (primary video) = false ->
  Index.tikwm_media video st
  = (Ret (Index.error_result "Video URL not found in TikWM"), st).
Proof.
  intros Hv Hnone. unfold primary in Hnone.
  destruct (truthy (peek video "hdplay")) eqn:Hhd,
           (truthy (peek video "play")) eqn:Hplay,
           (truthy (peek video "wmplay")) eqn:Hwm,
           (truthy (peek video "music")) eqn:Hmusic.
  all: unfold or_else in Hnone; rewrite ?Hhd, ?Hplay, ?Hwm, ?Hmusic in Hnone;
       cbn [truthy] in Hnone; rewrite ?Hhd, ?Hplay, ?Hwm, ?Hmusic in Hnone;
       try discriminate Hnone.
  unfold Index.tikwm_media.
  repeat first
    [ pure_goal
    | progress (unfold or_else; rewrite ?Hhd, ?Hplay, ?Hwm, ?Hmusic;
                cbn [truthy]) ].
  reflexivity.
Qed.

(** X6. When the final TikWM payload reports code 0 but its [data] field is
    missing or [null], the adapter does not return: reading [video.hdplay]
    throws a TypeError (which the provider loop then records). *)
Theorem tikwm_throws_without_data (url : string) (format quality : value)
    (st : state) :
  truthy (final_data url st) = true ->
  peek (final_data url st) "code" = VNum 0 ->
  nullish (peek (final_data url st) "data") = true ->
  Index.providerTikwm url format quality "tiktok" st
  = (Throw (TypeError ("Cannot read properties of "
                       ++ nullish_name (peek (final_data url st) "data")
                       ++ " (reading 'hdplay')")),
     tikwm_state url st).
Proof.
  intros Hdata Hcode Hvideo. rewrite providerTikwm_run. cbv zeta.
  rewrite (truthy_final url st Hdata), Hdata, Hcode. cbn [negb strict_eq orb Z.eqb].
  destruct (peek (final_data url st) "data"); try discriminate Hvideo; reflexivity.
Qed.

(** X7. The primary URL of a TikWM tunnel result is the first non-empty of
    the payload's hdplay, play, wmplay and music fields; when all four are
    empty the adapter returns the error "Video URL not found in TikWM". *)
Theorem tikwm_primary_url (url : string) (format quality : value) (st : state) :
  let video := peek (final_data url st) "data" in
  let run := Index.providerTikwm url format quality "tiktok" st in
  (truthy (final_data url st) = true ->
   peek (final_data url st) "code" = VNum 0 ->
   nullish video = false ->
   truthy (primary video) = false ->
   fst run = Ret (Index.error_result "Video URL not found in TikWM"))
  /\ (forall r,
        fst run = Ret r ->
        peek r "status" = VStr "tunnel" ->
        truthy (peek r "url") = true /\ peek r "url" = primary video).
Proof.
  intros video run. split.
  - intros Hdata Hcode Hvideo Hnone. unfold run. rewrite providerTikwm_run.
    cbv zeta. rewrite (truthy_final url st Hdata), Hdata, Hcode.
    cbn [negb strict_eq orb Z.eqb fst].
    fold video. rewrite (tikwm_media_not_found video _ Hvideo Hnone). reflexivity.
  - intros r Hrun Hstatus.
    assert (Hfull : run = (Ret r, snd run)).
    { destruct run as [o s]. simpl in *. subst o. reflexivity. }
    pose proof (tunnel_from_media _ _ _ _ _ _ _ Hfull Hstatus) as Hmedia.
    destruct (tikwm_media_tunnel _ _ _ _ Hmedia Hstatus)
      as (vs & _ & _ & Hurl & Htruthy & _).
    fold video in Hurl, Htruthy. rewrite Hurl. auto.
Qed.

(** X8. The variants of a TikWM tunnel result come in one of five shapes:
    hd, sd and audio together (the HD and SD entries fall back on each
    other's URL, and audio falls back on the HD URL), with or without the
    watermarked entry; or, without any video URL, audio alone, the
    watermarked entry alone, or both. *)
Theorem tikwm_variant_shapes (url : string) (format quality : value)
    (platform : string) (st st' : state) (r : value) :
  Index.providerTikwm url format quality platform st = (Ret r, st') ->
  peek r "status" = VStr "tunnel" ->
  exists vs,
    peek r "variants" = VArr vs
    /\ In (map kind vs)
         [ ["video-hd"; "video-sd"; "audio"];
           ["video-hd"; "video-sd"; "audio"; "video-watermark"];
           ["audio"];
           ["video-watermark"];
           ["audio"; "video-watermark"] ].
Proof.
  intros Hrun Hstatus.
  pose proof (tunnel_from_media _ _ _ _ _ _ _ Hrun Hstatus) as Hmedia.
  destruct (tikwm_media_tunnel _ _ _ _ Hmedia Hstatus) as (vs & Hvs & Hshape & _).
  exists vs. split; [exact Hvs | exact Hshape].
Qed.

(** X9. The primary URL of a TikWM tunnel result is always the URL of one
    of its variants; in particular the list of variants is never empty. *)
Theorem tikwm_primary_among_variants (url : string) (format quality : value)
    (platform : string) (st st' : state) (r : value) :
  Index.providerTikwm url format quality platform st = (Ret r, st') ->
  peek r "status" = VStr "tunnel" ->
  exists vs v,
    peek r "variants" = VArr vs
    /\ In v vs
    /\ peek v "url" = peek r "url".
Proof.
  intros Hrun Hstatus.
  pose proof (tunnel_from_media _ _ _ _ _ _ _ Hrun Hstatus) as Hmedia.
  destruct (tikwm_media_tunnel _ _ _ _ Hmedia Hstatus)
    as (vs & Hvs & _ & _ & _ & Hex).
  apply Exists_exists in Hex. destruct Hex as (v & Hin & Hlink).
  exists vs, v. auto.
Qed.

End TikwmMore.

(** ** What the resolver sends *)

Section RequestFacts.
Context `{rt : Runtime}.

Lemma keeps_ret {A} (a : A) : keeps_sent (ret a).
Proof. intros st. reflexivity. Qed.

Lemma keeps_stateless {A} (c : M A) : stateless c -> keeps_sent c.
Proof. intros H st. rewrite (H st). reflexivity. Qed.

Lemma keeps_push (line : string) : keeps_sent (push line).
Proof. intros st. reflexivity. Qed.

Lemma keeps_bind {A B} (c : M A) (k : A -> M B) :
  keeps_sent c -> (forall a, keeps_sent (k a)) -> keeps_sent (bind c k).
Proof.
  intros Hc Hk st. unfold bind. specialize (Hc st).
  destruct (c st) as [[a | e] st1]; simpl in *; [rewrite Hk |]; exact Hc.
Qed.

Lemma keeps_try {A} (c : M A) (h : exn -> M A) :
  keeps_sent c -> (forall e, keeps_sent (h e)) -> keeps_sent (try_catch c h).
Proof.
  intros Hc Hh st. unfold try_catch. specialize (Hc st).
  destruct (c st) as [[a | e] st1]; simpl in *; [| rewrite Hh]; exact Hc.
Qed.

Lemma keeps_if {A} (b : bool) (c d : M A) :
  keeps_sent c -> keeps_sent d -> keeps_sent (if b then c else d).
Proof. destruct b; auto. Qed.

(** After a computation that sends [l], a continuation that sends nothing. *)
Lemma bind_sent {A B} (c : M A) (k : A -> M B) (st : state) :
  (forall a, keeps_sent (k a)) ->
  sent (snd (bind c k st)) = sent (snd (c st)).
Proof.
  intros Hk. unfold bind.
  destruct (c st) as [[a | e] st1]; simpl; [apply Hk | reflexivity].
Qed.

Lemma try_sent {A} (c : M A) (h : exn -> M A) (st : state) :
  (forall e, keeps_sent (h e)) ->
  sent (snd (try_catch c h st)) = sent (snd (c st)).
Proof.
  intros Hh. unfold try_catch.
  destruct (c st) as [[a | e] st1]; simpl; [reflexivity | apply Hh].
Qed.

End RequestFacts.

Create HintDb keeps.
#[export] Hint Resolve keeps_ret keeps_push keeps_bind keeps_try keeps_if : keeps.
#[export] Hint Extern 5 (keeps_sent _) =>
  (apply keeps_stateless; solve [auto 10 with stateless]) : keeps.

Section RequestFacts2.
Context `{rt : Runtime}.

Lemma snaptik_sent (url : string) (format quality : value) (st : state) :
  sent (snd (Index.providerSnaptik url format quality "tiktok" st))
  = (sent st ++ [snaptik_post url])%list.
Proof.
  unfold Index.providerSnaptik. cbn [negb String.eqb Ascii.eqb Bool.eqb]. cbv zeta.
  unfold bind at 1. unfold push at 1.
  rewrite bind_sent.
  - rewrite fetchUrl_run. reflexivity.
  - intros resp. apply keeps_if; [solve [auto with keeps] |].
    apply keeps_bind; [unfold Index.parse; solve [auto 10 with keeps] |].
    intros [data |]; [| solve [auto with keeps]].
    apply keeps_bind; [solve [auto 10 with keeps] |]. intros failed.
    apply keeps_if; solve [auto 10 with keeps].
Qed.

Lemma attempt_sent (p : Index.provider) (url : string) (format quality : value)
    (platform : string) (fr le : value) (st : state) :
  truthy fr = false ->
  sent (snd (Index.attempt p url format quality platform fr le st))
  = sent (snd (Index.run p url format quality platform
                 (logged ("Trying provider: " ++ Index.name p) st))).
Proof.
  intros Hfr. unfold Index.attempt. rewrite Hfr.
  rewrite try_sent by (intros e; solve [auto with keeps]).
  unfold bind at 1. unfold push at 1.
  apply bind_sent. intros result.
  apply keeps_bind.
  - intros s. rewrite usable_run. reflexivity.
  - intros good. apply keeps_if; [solve [auto with keeps] |].
    apply keeps_bind; [solve [auto 10 with keeps] |]. intros c.
    apply keeps_if; solve [auto 10 with keeps].
Qed.

(** When the loop body does not break, [finalResult] is as it was. *)
Lemma attempt_continues (p : Index.provider) (url : string) (format quality : value)
    (platform : string) (fr le : value) (st : state) :
  truthy fr = false ->
  exists stop fr' le' st',
    Index.attempt p url format quality platform fr le st
    = (Ret (stop, (fr', le')), st')
    /\ (stop = false -> fr' = fr).
Proof.
  intros Hfr. unfold Index.attempt, try_catch. rewrite Hfr.
  unfold bind at 1. unfold push at 1.
  destruct (Index.run p url format quality platform
              (logged ("Trying provider: " ++ Index.name p) st)) as [[r | e] s1] eqn:Hrun.
  2:{ unfold bind at 1. rewrite Hrun. simpl.
      do 4 eexists. split; [reflexivity | reflexivity]. }
  rewrite (bind_run _ _ _ _ _ Hrun).
  rewrite (bind_run _ _ _ _ _ (usable_run r s1)).
  destruct (accepted r) eqn:Hok.
  { simpl. do 4 eexists. split; [reflexivity | discriminate]. }
  destruct (truthy r) eqn:Hr.
  2:{ unfold andM, bind, ret. rewrite Hr. simpl. rewrite Hr.
      do 4 eexists. split; [reflexivity | reflexivity]. }
  pose proof (truthy_not_nullish _ Hr) as Hobj.
  pure_goal. unfold and_then. rewrite Hr.
  destruct (truthy (peek r "text")) eqn:Ht.
  2:{ do 4 eexists. split; [reflexivity | reflexivity]. }
  pure_goal. unfold str. rewrite bind_lift.
  destruct (to_string (peek r "text")) as [shown | e] eqn:Hshown;
    simpl; do 4 eexists; (split; [reflexivity | reflexivity]).
Qed.

Lemma tikwm_run_sent (url : string) (format quality : value) (platform : string)
    (st : state) :
  sent (snd (Index.providerTikwm url format quality platform st))
  = (sent st ++ (if (platform =? "tiktok")%string
                 then tikwm_post url :: (if retried url st && negb (lone_surrogate url)
                                     then [tikwm_get url] else [])
                 else []))%list.
Proof.
  destruct (platform =? "tiktok")%string eqn:E.
  - apply String.eqb_eq in E. subst platform.
    rewrite providerTikwm_state. apply tikwm_sent.
  - unfold Index.providerTikwm. rewrite E. simpl. rewrite app_nil_r. reflexivity.
Qed.

Lemma snaptik_run_sent (url : string) (format quality : value) (platform : string)
    (st : state) :
  sent (snd (Index.providerSnaptik url format quality platform st))
  = (sent st ++ (if (platform =? "tiktok")%string then [snaptik_post url] else []))%list.
Proof.
  destruct (platform =? "tiktok")%string eqn:E.
  - apply String.eqb_eq in E. subst platform. apply snaptik_sent.
  - unfold Index.providerSnaptik. rewrite E. simpl. rewrite app_nil_r. reflexivity.
Qed.

Lemma resolve_sent (req : http_request) (url : string) (format quality : value)
    (st : state) :
  exists l,
    sent (snd (Index.resolve req url format quality st)) = (sent st ++ l)%list
    /\ In l (request_patterns url).
Proof.
  unfold Index.resolve.
  unfold bind at 1. unfold new_log at 1. fold (fresh st).
  rewrite bind_sent.
  2:{ intros r. cbv zeta. apply keeps_if.
      - apply keeps_bind; [| solve [auto with keeps]].
        intros s. rewrite attach_debug_run. reflexivity.
      - apply keeps_bind; [solve [auto 10 with keeps] |]. intros reason.
        apply keeps_bind; [| solve [auto with keeps]].
        intros s. rewrite attach_debug_run. reflexivity. }
  unfold Index.providers. cbn [Index.chain].
  set (platform := Index.detectPlatform url).
  set (T := {| Index.name := "providerTikwm"; Index.run := Index.providerTikwm |}).
  set (S := {| Index.name := "providerSnaptik"; Index.run := Index.providerSnaptik |}).
  destruct (attempt_continues T url format quality platform VNull (VStr "") (fresh st)
              eq_refl) as (stop & fr1 & le1 & s1 & Hfirst & Hsame).
  pose proof (attempt_sent T url format quality platform VNull (VStr "") (fresh st)
                eq_refl) as Hsent1.
  rewrite Hfirst in Hsent1. cbn [snd] in Hsent1.
  change (Index.run T) with Index.providerTikwm in Hsent1.
  rewrite tikwm_run_sent in Hsent1.
  change (sent (logged ("Trying provider: " ++ Index.name T) (fresh st)))
    with (sent st) in Hsent1.
  rewrite (bind_run _ _ _ _ _ Hfirst). cbn [fst snd].
  set (again := retried url (logged ("Trying provider: " ++ Index.name T) (fresh st))
                && negb (lone_surrogate url)) in *.
  destruct stop.
  - cbn [ret snd]. rewrite Hsent1. eexists. split; [reflexivity |].
    unfold request_patterns.
    destruct (platform =? "tiktok")%string; [| simpl; tauto].
    destruct again; simpl; tauto.
  - rewrite (Hsame eq_refl).
    destruct (attempt_continues S url format quality platform VNull le1 s1 eq_refl)
      as (stop2 & fr2 & le2 & s2 & Hsecond & _).
    pose proof (attempt_sent S url format quality platform VNull le1 s1 eq_refl)
      as Hsent2.
    rewrite Hsecond in Hsent2. cbn [snd] in Hsent2.
    change (Index.run S) with Index.providerSnaptik in Hsent2.
    rewrite snaptik_run_sent in Hsent2.
    change (sent (logged ("Trying provider: " ++ Index.name S) s1))
      with (sent s1) in Hsent2.
    rewrite (bind_run _ _ _ _ _ Hsecond). cbn [fst snd].
    assert (Hfinal : sent s2
                     = (sent st ++
                        (if (platform =? "tiktok")%string
                         then tikwm_post url :: (if again then [tikwm_get url] else [])
                         else []) ++
                        (if (platform =? "tiktok")%string then [snaptik_post url]
                         else []))%list).
    { rewrite Hsent2, Hsent1, <- app_assoc. reflexivity. }
    exists ((if (platform =? "tiktok")%string
             then tikwm_post url :: (if again then [tikwm_get url] else [])
             else []) ++
            (if (platform =? "tiktok")%string then [snaptik_post url] else []))%list.
    split.
    + destruct stop2; cbn [ret snd]; exact Hfinal.
    + unfold request_patterns.
      destruct (platform =? "tiktok")%string; [| simpl; tauto].
      destruct again; simpl; tauto.
Qed.

(** X10. Whatever the request and whatever the network answers, one
    invocation of the resolver sends at most three requests, and only the
    adapters' own: TikWM's POST, then perhaps TikWM's GET, then perhaps
    Snaptik's POST.  Nothing is ever sent to the URL the client supplied. *)
Theorem resolver_requests_are_bounded (req : http_request) (st : state) :
  exists url l,
    sent (snd (Index.handler req st)) = (sent st ++ l)%list
    /\ In l [ [];
              [tikwm_post url];
              [tikwm_post url; tikwm_get url];
              [tikwm_post url; snaptik_post url];
              [tikwm_post url; tikwm_get url; snaptik_post url] ].
Proof.
  assert (Hnone : forall o : outcome http_response,
             sent (snd (o, st)) = (sent st ++ [])%list
             /\ In [] (request_patterns "")).
  { intros o. split; [simpl; rewrite app_nil_r; reflexivity | simpl; tauto]. }
  destruct (req_method req =? "POST")%string eqn:Hpost.
  - apply String.eqb_eq in Hpost. rewrite (handler_cases req st Hpost).
    destruct (fst (Index.read_input req st)) as [[[url [format quality]] |] | e].
    + destruct (resolve_sent req url format quality st) as (l & Hl & Hin).
      exists url, l. split; assumption.
    + exists "", []. apply Hnone.
    + exists "", []. apply Hnone.
  - unfold Index.handler.
    destruct (req_method req =? "OPTIONS")%string; [exists "", []; apply Hnone |].
    destruct (req_method req =? "GET")%string; [exists "", []; apply Hnone |].
    rewrite Hpost. exists "", []. apply Hnone.
Qed.

End RequestFacts2.

(** ** The size prober beyond the range fallback *)

Section ProberMore.
Context `{rt : Runtime}.

Lemma destructure_run (req : http_request) (url : value) (st : state) :
  get (req_query req) "url" = Ret url ->
  Filesize.destructure_url (req_query req) st = (Ret url, st).
Proof.
  intros Hget. unfold Filesize.destructure_url, prop, lift.
  destruct (req_query req); try discriminate Hget; rewrite Hget; reflexivity.
Qed.

(** X11. A probe without a [url] parameter (absent or empty) is answered
    400 with the error "URL parameter is required"; nothing is sent. *)
Theorem probe_without_url (req : http_request) (url : value) (st : state) :
  req_method req <> "OPTIONS" ->
  get (req_query req) "url" = Ret url ->
  truthy url = false ->
  Filesize.handler req st
  = (Ret (Filesize.json 400 (VObj [("error", VStr "URL parameter is required")])), st).
Proof.
  intros Hmethod Hget Hurl. unfold Filesize.handler.
  destruct (req_method req =? "OPTIONS")%string eqn:E;
    [apply String.eqb_eq in E; contradiction |].
  rewrite (bind_run _ _ _ _ _ (destructure_run req url st Hget)).
  rewrite Hurl. reflexivity.
Qed.

(** X12. When the HEAD request fails (network error, abort by the timer),
    the probe is answered 500 with the message of the failure, or
    "Server error" when it has none; the ranged GET is not tried. *)
Theorem probe_head_failure (req : http_request) (url : value) (target : string)
    (st : state) (e : exn) :
  req_method req <> "OPTIONS" ->
  get (req_query req) "url" = Ret url ->
  truthy url = true ->
  to_string url = Ret target ->
  network (sent st) (head_request target) = Rejected e ->
  Filesize.handler req st
  = (Ret (Filesize.json 500
            (VObj [("error", VStr (if (message e =? "")%string then "Server error"
                                   else message e))])),
     sending (head_request target) st).
Proof.
  intros Hmethod Hget Htruthy Htarget Hhead. unfold Filesize.handler.
  destruct (req_method req =? "OPTIONS")%string eqn:E;
    [apply String.eqb_eq in E; contradiction |].
  rewrite (bind_run _ _ _ _ _ (destructure_run req url st Hget)).
  rewrite Htruthy. cbn [negb].
  unfold try_catch.
  erewrite bind_yields by (apply yields_str, Htarget).
  fold (head_request target).
  erewrite bind_throw by (unfold fetch; rewrite Hhead; reflexivity).
  unfold or_else, ret.
  change (truthy (VStr (message e))) with (negb (message e =? "")%string).
  destruct (message e =? "")%string; reflexivity.
Qed.

(** The handler once the HEAD response is in and no fallback is due. *)
Lemma probe_direct (req : http_request) (url : value) (target : string)
    (st : state) (head : response) :
  req_method req <> "OPTIONS" ->
  get (req_query req) "url" = Ret url ->
  truthy url = true ->
  to_string url = Ret target ->
  network (sent st) (head_request target) = Resolved head ->
  negb (truthy (Filesize.header head "content-length")) && ok head = false ->
  exists formatted,
    Filesize.handler req st
    = (Ret (Filesize.json 200
              (probe_payload
                 (match Filesize.header head "content-length" with
                  | VStr s => if (s =? "")%string then VNull else parseInt s
                  | _ => VNull
                  end)
                 (Filesize.header head "content-type") formatted)),
       sending (head_request target) st)
    /\ (truthy (Filesize.header head "content-length") = false ->
        formatted = "Unknown")
    /\ (truthy (Filesize.header head "content-length") = true ->
        Filesize.formatBytes (Filesize.header head "content-length") = Ret formatted).
Proof.
  intros Hmethod Hget Htruthy Htarget Hhead Hdirect. unfold Filesize.handler.
  destruct (req_method req =? "OPTIONS")%string eqn:E;
    [apply String.eqb_eq in E; contradiction |].
  rewrite (bind_run _ _ _ _ _ (destructure_run req url st Hget)).
  rewrite Htruthy. cbn [negb].
  unfold try_catch at 1.
  erewrite bind_yields by (apply yields_str, Htarget).
  fold (head_request target).
  rewrite (bind_run _ _ _ _ _ (fetch_run _ _ _ Hhead)).
  cbv zeta. rewrite Hdirect.
  erewrite bind_yields by apply yields_ret.
  unfold Filesize.header in *.
  destruct (headers_get head "content-length") as [s |].
  - change (truthy (VStr s)) with (negb (s =? "")%string) in *.
    destruct (s =? "")%string; cbn [negb] in *.
    + exists "Unknown". split; [reflexivity |]. split; [reflexivity | discriminate].
    + destruct (formatBytes_of_string s) as [t Ht]. exists t.
      split; [| split; [discriminate | intros _; exact Ht]].
      pure_goal. unfold lift at 1. unfold bind at 1. rewrite Ht. reflexivity.
  - exists "Unknown". split; [reflexivity |]. split; [reflexivity | discriminate].
Qed.

(** X13. When the HEAD response carries a non-empty content-length, that
    header alone settles the answer, whatever the status of the response:
    one request goes out, the probe is answered 200, [size] is the header
    read by [parseInt] and [formatted] is [formatBytes] of the header. *)
Theorem probe_with_length (req : http_request) (url : value) (target : string)
    (st : state) (head : response) (length : string) :
  req_method req <> "OPTIONS" ->
  get (req_query req) "url" = Ret url ->
  truthy url = true ->
  to_string url = Ret target ->
  network (sent st) (head_request target) = Resolved head ->
  headers_get head "content-length" = Some length ->
  length <> "" ->
  exists formatted,
    Filesize.formatBytes (VStr length) = Ret formatted
    /\ Filesize.handler req st
       = (Ret (Filesize.json 200
                 (probe_payload (parseInt length) (Filesize.header head "content-type")
                    formatted)),
          sending (head_request target) st).
Proof.
  intros Hmethod Hget Htruthy Htarget Hhead Hlength Hfilled.
  assert (Hsize : Filesize.header head "content-length" = VStr length).
  { unfold Filesize.header. rewrite Hlength. reflexivity. }
  assert (Hne : (length =? "")%string = false) by (apply String.eqb_neq, Hfilled).
  assert (Hlen : truthy (VStr length) = true).
  { change (truthy (VStr length)) with (negb (length =? "")%string).
    rewrite Hne. reflexivity. }
  destruct (probe_direct req url target st head Hmethod Hget Htruthy Htarget Hhead)
    as (formatted & Hrun & _ & Hformat).
  { rewrite Hsize, Hlen. reflexivity. }
  rewrite Hsize, Hne in Hrun. rewrite Hsize in Hformat.
  exists formatted. split; [exact (Hformat Hlen) | exact Hrun].
Qed.

(** X14. When the HEAD response has an error status and no content-length
    (absent or empty), the probe is still answered 200, with a null size
    and the text "Unknown"; the ranged GET is not tried. *)
Theorem probe_head_not_ok (req : http_request) (url : value) (target : string)
    (st : state) (head : response) :
  req_method req <> "OPTIONS" ->
  get (req_query req) "url" = Ret url ->
  truthy url = true ->
  to_string url = Ret target ->
  network (sent st) (head_request target) = Resolved head ->
  ok head = false ->
  truthy (Filesize.header head "content-length") = false ->
  Filesize.handler req st
  = (Ret (Filesize.json 200
            (probe_payload VNull (Filesize.header head "content-type") "Unknown")),
     sending (head_request target) st).
Proof.
  intros Hmethod Hget Htruthy Htarget Hhead Hok Hlength.
  destruct (probe_direct req url target st head Hmethod Hget Htruthy Htarget Hhead)
    as (formatted & Hrun & Hunknown & _).
  { rewrite Hok. apply andb_false_r. }
  rewrite (Hunknown Hlength) in Hrun. rewrite Hrun.
  unfold Filesize.header in *.
  destruct (headers_get head "content-length") as [s |]; [| reflexivity].
  change (truthy (VStr s)) with (negb (s =? "")%string) in Hlength.
  destruct (s =? "")%string; [reflexivity | discriminate Hlength].
Qed.

(** X15. A failure of the ranged GET (network error, abort by the timer)
    is swallowed: one line goes to the console, and the probe is answered
    200 with a null size and the text "Unknown", after two requests. *)
Theorem probe_fallback_failure (req : http_request) (url : value) (target : string)
    (st : state) (head : response) (e : exn) :
  req_method req <> "OPTIONS" ->
  get (req_query req) "url" = Ret url ->
  truthy url = true ->
  to_string url = Ret target ->
  network (sent st) (head_request target) = Resolved head ->
  ok head = true ->
  truthy (Filesize.header head "content-length") = false ->
  network (sent st ++ [head_request target]) (range_request target) = Rejected e ->
  Filesize.handler req st
  = (Ret (Filesize.json 200
            (probe_payload VNull (Filesize.header head "content-type") "Unknown")),
     printed "Range fallback failed:" (message e)
       (sending (range_request target) (sending (head_request target) st))).
Proof.
  intros Hmethod Hget Htruthy Htarget Hhead Hok Hlength Hranged.
  unfold Filesize.handler.
  destruct (req_method req =? "OPTIONS")%string eqn:E;
    [apply String.eqb_eq in E; contradiction |].
  rewrite (bind_run _ _ _ _ _ (destructure_run req url st Hget)).
  rewrite Htruthy. cbn [negb].
  unfold try_catch at 1.
  erewrite bind_yields by (apply yields_str, Htarget).
  fold (head_request target).
  rewrite (bind_run _ _ _ _ _ (fetch_run _ _ _ Hhead)).
  cbv zeta. rewrite Hlength, Hok. cbn [negb andb].
  fold (range_request target).
  change (sent (sending (head_request target) st))
    with (sent st ++ [head_request target])%list in *.
  match goal with
  | |- (let (_, _) := bind ?c ?k ?s in _) = _ =>
      assert (Hinner : c s
                       = (Ret (Filesize.header head "content-length"),
                          printed "Range fallback failed:" (message e)
                            (sending (range_request target) s)))
  end.
  { unfold try_catch, bind, fetch.
    change (sent (sending (head_request target) st))
      with (sent st ++ [head_request target])%list.
    rewrite Hranged. reflexivity. }
  rewrite (bind_run _ _ _ _ _ Hinner). rewrite Hlength. reflexivity.
Qed.

End ProberMore.

(** ** Sizes: the content-range total, [parseInt] and [formatBytes] *)

Section SizeFacts.
Context `{rt : Runtime}.

Lemma digit_not_space (c : ascii) (l : list ascii) :
  is_digit c = true -> strip_any white_space (c :: l) = None.
Proof.
  intros H. destruct c as [[] [] [] [] [] [] [] []];
    vm_compute in H; try discriminate H; reflexivity.
Qed.

Lemma digit_not_space_end (c : ascii) (l : list ascii) :
  is_digit c = true -> strip_any (map (@rev ascii) white_space) (c :: l) = None.
Proof.
  intros H. destruct c as [[] [] [] [] [] [] [] []];
    vm_compute in H; try discriminate H; reflexivity.
Qed.

Lemma all_digits_app (l m : list ascii) :
  all_digits (l ++ m) = all_digits l && all_digits m.
Proof.
  induction l as [| c l IH]; simpl; [reflexivity |].
  rewrite IH. apply andb_assoc.
Qed.

Lemma all_digits_rev (l : list ascii) : all_digits (rev l) = all_digits l.
Proof.
  induction l as [| c l IH]; simpl; [reflexivity |].
  rewrite all_digits_app, IH. simpl. rewrite andb_true_r. apply andb_comm.
Qed.

Lemma trimStart_digits (l : list ascii) :
  all_digits l = true -> trimStart_bytes l = l.
Proof.
  destruct l as [| c l]; [reflexivity |]. simpl. intros H.
  apply andb_prop in H. destruct H as [Hc _].
  unfold trimStart_bytes. cbn [List.length drop_leading].
  rewrite (digit_not_space c l Hc). reflexivity.
Qed.

Lemma trimEnd_digits (l : list ascii) :
  all_digits l = true -> trimEnd_bytes l = l.
Proof.
  intros H. unfold trimEnd_bytes. rewrite <- all_digits_rev in H.
  rewrite <- (length_rev l).
  destruct (rev l) as [| c m] eqn:E.
  - simpl. rewrite <- (rev_involutive l), E. reflexivity.
  - simpl in H. apply andb_prop in H. destruct H as [Hc _].
    cbn [List.length drop_leading]. rewrite (digit_not_space_end c m Hc).
    rewrite <- E. apply rev_involutive.
Qed.

Lemma digit_value (c : ascii) :
  is_digit c = true -> 0 <= Z.of_nat (nat_of_ascii c) - 48 <= 9.
Proof.
  unfold is_digit. intros H. apply andb_prop in H. destruct H as [Hlow Hhigh].
  apply Nat.leb_le in Hlow, Hhigh.
  lia.
Qed.

Lemma leading_digits_some (l : list ascii) (a : Z) :
  all_digits l = true -> 0 <= a ->
  exists n, leading_digits (Some a) l = Some n /\ 0 <= n.
Proof.
  revert a. induction l as [| c l IH]; intros a H Ha.
  - exists a. split; [reflexivity | exact Ha].
  - simpl in H. apply andb_prop in H. destruct H as [Hc Hl].
    cbn [leading_digits]. rewrite Hc. cbv zeta. pose proof (digit_value c Hc).
    apply IH; [exact Hl | lia].
Qed.

Lemma leading_digits_none (l : list ascii) :
  all_digits l = true -> l <> [] ->
  exists n, leading_digits None l = Some n /\ 0 <= n.
Proof.
  destruct l as [| c l]; [congruence |]. intros H _.
  simpl in H. apply andb_prop in H. destruct H as [Hc Hl].
  cbn [leading_digits]. rewrite Hc. cbv zeta. pose proof (digit_value c Hc).
  apply leading_digits_some; [exact Hl | lia].
Qed.

Lemma digit_no_sign (c : ascii) (l : list ascii) :
  is_digit c = true ->
  match c :: l with
  | "-"%char :: t' => (true, t')
  | "+"%char :: t' => (false, t')
  | _ => (false, c :: l)
  end = (false, c :: l).
Proof.
  intros H. destruct c as [[] [] [] [] [] [] [] []];
    vm_compute in H; try discriminate H; reflexivity.
Qed.

Lemma list_of_filled (d : string) : d <> "" -> list_ascii_of_string d <> [].
Proof. destruct d; [congruence | discriminate]. Qed.

Lemma leading_digits_fold (l : list ascii) (a : Z) :
  all_digits l = true ->
  leading_digits (Some a) l
  = Some (fold_left (fun a c => 10 * a + (Z.of_nat (nat_of_ascii c) - 48)) l a).
Proof.
  revert a. induction l as [| c l IH]; intros a H; [reflexivity |].
  simpl in H. apply andb_prop in H. destruct H as [Hc Hl].
  cbn [leading_digits fold_left]. rewrite Hc. cbv zeta. apply IH, Hl.
Qed.

Lemma leading_digits_spelled (d : string) :
  d <> "" -> all_digits (list_ascii_of_string d) = true ->
  leading_digits None (list_ascii_of_string d) = Some (spelled d).
Proof.
  intros Hfilled Hdigits. unfold spelled.
  destruct (list_ascii_of_string d) as [| c l] eqn:E.
  { exfalso. apply (list_of_filled d Hfilled E). }
  simpl in Hdigits. apply andb_prop in Hdigits. destruct Hdigits as [Hc Hl].
  cbn [leading_digits fold_left]. rewrite Hc. cbv zeta.
  rewrite (leading_digits_fold l _ Hl). rewrite Z.mul_0_r, Z.add_0_l. reflexivity.
Qed.

Lemma spelled_nonneg (d : string) :
  d <> "" -> all_digits (list_ascii_of_string d) = true -> 0 <= spelled d.
Proof.
  intros Hfilled Hdigits.
  destruct (leading_digits_none _ Hdigits (list_of_filled d Hfilled)) as (n & Hn & Hpos).
  rewrite (leading_digits_spelled d Hfilled Hdigits) in Hn.
  injection Hn as ->. exact Hpos.
Qed.

Lemma digit_is_no_letter (c : ascii) (l : list ascii) :
  is_digit c = true ->
  (string_of_list_ascii (c :: l) =? "Infinity")%string = false.
Proof.
  intros H. destruct c as [[] [] [] [] [] [] [] []];
    vm_compute in H; try discriminate H; reflexivity.
Qed.

(** What [parseInt] and ToNumber make of a run of digits. *)
Lemma digits_read (d : string) :
  d <> "" -> all_digits (list_ascii_of_string d) = true ->
  parseInt d = from_integer false (spelled d)
  /\ string_to_number d = Some (from_integer false (spelled d)).
Proof.
  intros Hfilled Hdigits.
  pose proof (leading_digits_spelled d Hfilled Hdigits) as Hn.
  unfold parseInt, string_to_number.
  rewrite (trimStart_digits _ Hdigits), (trimEnd_digits _ Hdigits).
  destruct (list_ascii_of_string d) as [| c l] eqn:E.
  { exfalso. apply (list_of_filled d Hfilled E). }
  assert (Hc : is_digit c = true).
  { simpl in Hdigits. apply andb_prop in Hdigits. tauto. }
  rewrite (digit_no_sign c l Hc), Hn, Hdigits, Hc, (digit_is_no_letter c l Hc).
  split; reflexivity.
Qed.

Lemma to_double_small (n : Z) : n < 2 ^ 53 -> to_double n = Some n.
Proof.
  intros H. unfold to_double.
  destruct (n <? 2 ^ 53) eqn:E; [reflexivity | apply Z.ltb_ge in E; lia].
Qed.

(** Rounding to a double keeps a positive integer positive. *)
Lemma to_double_positive (n m : Z) : 0 < n -> to_double n = Some m -> 0 < m.
Proof.
  intros Hn. unfold to_double.
  destruct (n <? 2 ^ 53) eqn:E; [intros [= <-]; exact Hn |].
  apply Z.ltb_ge in E. cbv zeta.
  set (e := Z.log2 n - 52).
  assert (Hlog : 53 <= Z.log2 n).
  { rewrite <- (Z.log2_pow2 53) by lia. apply Z.log2_le_mono, E. }
  assert (He : 0 < 2 ^ e) by (apply Z.pow_pos_nonneg; lia).
  assert (Hle : 2 ^ e <= n).
  { apply Z.le_trans with (2 ^ Z.log2 n).
    - apply Z.pow_le_mono_r; lia.
    - apply Z.log2_spec, Hn. }
  assert (Hq : 1 <= n / 2 ^ e) by (apply Z.div_le_lower_bound; lia).
  match goal with
  | |- context [if ?b then n / 2 ^ e + 1 else n / 2 ^ e] =>
      set (q := if b then n / 2 ^ e + 1 else n / 2 ^ e);
      assert (Hq' : 1 <= q) by (unfold q; destruct b; lia)
  end.
  destruct (q * 2 ^ e <? 2 ^ 1024); [| discriminate].
  intros [= <-]. apply Z.mul_pos_pos; lia.
Qed.

Lemma from_integer_small (n : Z) : n < 2 ^ 53 -> from_integer false n = VNum n.
Proof. intros H. unfold from_integer. rewrite (to_double_small n H). reflexivity. Qed.

Lemma slash_is_no_digit (pre d : string) :
  all_digits (list_ascii_of_string (pre ++ String "/" d)) = false.
Proof.
  induction pre as [| c pre IH]; simpl; [reflexivity |].
  rewrite IH. apply andb_false_r.
Qed.

Lemma match_total_suffix (pre d : string) :
  d <> "" -> all_digits (list_ascii_of_string d) = true ->
  Filesize.match_total (pre ++ "/" ++ d) = Some d.
Proof.
  intros Hfilled Hdigits. induction pre as [| c pre IH].
  - simpl. rewrite Hdigits.
    destruct (d =? "")%string eqn:E; [apply String.eqb_eq in E; contradiction |].
    reflexivity.
  - cbn [String.append Filesize.match_total].
    change ("/" ++ d)%string with (String "/" d) in *.
    rewrite slash_is_no_digit, andb_false_r. exact IH.
Qed.

(** X16. The pattern of line 54 finds a total exactly in the texts that
    end in a slash followed by one or more digits, and the total is that
    final run of digits. *)
Theorem match_total_spec (s d : string) :
  Filesize.match_total s = Some d
  <-> exists pre, s = (pre ++ "/" ++ d)%string
                  /\ d <> "" /\ all_digits (list_ascii_of_string d) = true.
Proof.
  split.
  - induction s as [| c s IH]; [discriminate |].
    cbn [Filesize.match_total].
    destruct (Ascii.eqb c "/" && negb (s =? "")%string
              && all_digits (list_ascii_of_string s)) eqn:E.
    + intros [= <-]. apply andb_prop in E. destruct E as [E Hdigits].
      apply andb_prop in E. destruct E as [Hc Hfilled].
      apply Ascii.eqb_eq in Hc. subst c.
      exists "". split; [reflexivity |]. split; [| exact Hdigits].
      apply String.eqb_neq. destruct (s =? "")%string; [discriminate | reflexivity].
    + intros H. destruct (IH H) as (pre & -> & Hfilled & Hdigits).
      exists (String c pre). auto.
  - intros (pre & -> & Hfilled & Hdigits). apply match_total_suffix; assumption.
Qed.

(** [formatBytes] on a string that reads as the number [v]. *)
Lemma formatBytes_reads (d : string) (v : value) :
  d <> "" -> string_to_number d = Some v ->
  Filesize.formatBytes (VStr d)
  = (if truthy v then Filesize.formatBytes v else Ret "NaN undefined").
Proof.
  intros Hfilled Hnumber. unfold Filesize.formatBytes.
  change (truthy (VStr d)) with (negb (d =? "")%string).
  destruct (d =? "")%string eqn:E; [apply String.eqb_eq in E; contradiction |].
  cbn [negb strict_eq to_number]. rewrite Hnumber.
  assert (Hshape : (exists n, v = VNum n) \/ v = VNaN \/ exists b, v = VInf b).
  { unfold string_to_number in Hnumber.
    destruct (trimEnd_bytes _) as [| c t]; [injection Hnumber as <-; eauto |].
    destruct (negb _); [injection Hnumber as <-; auto |].
    destruct (match c :: t with
              | "-"%char :: t' => (true, t')
              | "+"%char :: t' => (false, t')
              | _ => (false, c :: t)
              end) as [negative ds].
    destruct (_ =? "Infinity")%string; [injection Hnumber as <-; eauto |].
    destruct ds; [discriminate |].
    destruct (all_digits _); [| discriminate].
    destruct (leading_digits None _); [| discriminate].
    injection Hnumber as <-. unfold from_integer.
    destruct (to_double _); eauto. }
  destruct Hshape as [[n ->] | [-> | [b ->]]]; try reflexivity.
  cbn [truthy to_number strict_eq].
  destruct (n =? 0) eqn:Hz; cbn [negb].
  - apply Z.eqb_eq in Hz. subst n. reflexivity.
  - reflexivity.
Qed.

(** X17. On a non-empty run of decimal digits, [parseInt] gives the double
    nearest to the integer the digits spell: that integer itself below
    2^53, and [Infinity] beyond the largest double.  [formatBytes] of the
    string reads the same number, so [size] and [formatted] agree; the
    guard for [0] never fires on a string, and the text for the digits of
    zero is "NaN undefined". *)
Theorem digits_format (d : string) :
  d <> "" -> all_digits (list_ascii_of_string d) = true ->
  0 <= spelled d
  /\ parseInt d = from_integer false (spelled d)
  /\ (spelled d < 2 ^ 53 -> parseInt d = VNum (spelled d))
  /\ Filesize.formatBytes (VStr d)
     = (if spelled d =? 0 then Ret "NaN undefined"
        else Filesize.formatBytes (from_integer false (spelled d))).
Proof.
  intros Hfilled Hdigits.
  destruct (digits_read d Hfilled Hdigits) as [Hparse Hnumber].
  pose proof (spelled_nonneg d Hfilled Hdigits) as Hpos.
  split; [exact Hpos |]. split; [exact Hparse |].
  split; [intros Hsmall; rewrite Hparse; apply from_integer_small, Hsmall |].
  rewrite (formatBytes_reads d _ Hfilled Hnumber).
  destruct (spelled d =? 0) eqn:Hz.
  - apply Z.eqb_eq in Hz. rewrite Hz. reflexivity.
  - apply Z.eqb_neq in Hz. unfold from_integer.
    destruct (to_double (spelled d)) as [m |] eqn:Hm; [| reflexivity].
    pose proof (to_double_positive (spelled d) m ltac:(lia) Hm) as Hm'.
    cbn [truthy]. destruct (m =? 0) eqn:Hm0; [apply Z.eqb_eq in Hm0; lia |].
    reflexivity.
Qed.

(** X18. Below 1024 the text is the number itself followed by "Bytes". *)
Theorem formatBytes_below_1024 (n : Z) :
  0 < n < 1024 ->
  Filesize.formatBytes (VNum n) = Ret (string_of_Z n ++ " Bytes").
Proof.
  intros Hn. unfold Filesize.formatBytes. cbn [truthy strict_eq to_number].
  destruct (n =? 0) eqn:Hz; [apply Z.eqb_eq in Hz; lia |].
  cbn [negb]. cbv zeta.
  destruct (0 <? n) eqn:Hpos; [| apply Z.ltb_ge in Hpos; lia].
  destruct (n <? 2 ^ 49) eqn:Hzone; [| apply Z.ltb_ge in Hzone; lia].
  assert (Hlog : Z.log2 n / Z.log2 1024 = 0).
  { change (Z.log2 1024) with 10. apply Z.div_small.
    split; [apply Z.log2_nonneg |].
    apply Z.log2_lt_pow2; [lia |]. change (2 ^ 10) with 1024. lia. }
  rewrite Hlog. change (2 <? 0) with false. cbn iota.
  change (1024 ^ 0) with 1. change (Z.to_nat 0) with 0%nat.
  change (Z.to_nat 2) with 2%nat.
  assert (Hfixed : Filesize.toFixed n 1 2 = 100 * n).
  { unfold Filesize.toFixed. change (10 ^ 2) with 100.
    replace (2 * n * 100 + 1) with (1 + (100 * n) * (2 * 1)) by lia.
    rewrite Z.div_add by lia. reflexivity. }
  rewrite Hfixed. unfold Filesize.show_decimal.
  assert (Hshort : Filesize.shorten (100 * n) 2 = (n, 0%nat)).
  { cbn [Filesize.shorten].
    replace ((100 * n) mod 10) with 0
      by (symmetry; apply Z.mod_divide; [lia | exists (10 * n); lia]).
    cbn [Z.eqb].
    replace (100 * n / 10) with (10 * n)
      by (apply Z.div_unique_exact; lia).
    replace ((10 * n) mod 10) with 0
      by (symmetry; apply Z.mod_divide; [lia | exists n; lia]).
    cbn [Z.eqb].
    replace (10 * n / 10) with n by (apply Z.div_unique_exact; lia).
    reflexivity. }
  rewrite Hshort. cbn [Z.of_nat]. change (10 ^ 0) with 1. rewrite Z.div_1_r.
  reflexivity.
Qed.

End SizeFacts.

(** ** The range fallback on any content-range total *)

Section TotalFacts.
Context `{rt : Runtime}.

Lemma fallback_total (ranged : response) (pre d : string) :
  ok ranged = true ->
  headers_get ranged "content-range" = Some (pre ++ "/" ++ d)%string ->
  d <> "" -> all_digits (list_ascii_of_string d) = true ->
  fallback_size (Resolved ranged) = VStr d.
Proof.
  intros Hok Hrange Hfilled Hdigits. unfold fallback_size.
  rewrite Hok, Hrange. cbv zeta.
  rewrite (match_total_suffix pre d Hfilled Hdigits).
  assert (Hs : ((pre ++ "/" ++ d) =? "")%string = false) by (destruct pre; reflexivity).
  rewrite Hs.
  change (truthy (VStr d)) with (negb (d =? "")%string).
  destruct (d =? "")%string eqn:E; [apply String.eqb_eq in E; contradiction |].
  reflexivity.
Qed.

(** X19. When the HEAD response is ok without a content-length and the
    ranged GET is answered ok with a content-range that ends in a slash
    and a run of digits, the probe reports as [size] the number those
    digits spell (the integer itself below 2^53, the nearest double
    beyond), whatever precedes the slash and whatever content-length the
    ranged response carries; [formatted] is the text for the same number
    ("NaN undefined" for a total of zero). *)
Theorem content_range_total (req : http_request) (url : value) (target : string)
    (st : state) (head ranged : response) (pre d : string) :
  req_method req <> "OPTIONS" ->
  get (req_query req) "url" = Ret url ->
  truthy url = true ->
  to_string url = Ret target ->
  network (sent st) (head_request target) = Resolved head ->
  ok head = true ->
  headers_get head "content-length" = None ->
  network (sent st ++ [head_request target]) (range_request target) = Resolved ranged ->
  ok ranged = true ->
  headers_get ranged "content-range" = Some (pre ++ "/" ++ d)%string ->
  d <> "" ->
  all_digits (list_ascii_of_string d) = true ->
  exists formatted,
    (if spelled d =? 0 then Ret "NaN undefined"
     else Filesize.formatBytes (from_integer false (spelled d))) = Ret formatted
    /\ fst (Filesize.handler req st)
       = Ret (Filesize.json 200
                (probe_payload (from_integer false (spelled d))
                   (Filesize.header head "content-type") formatted))
    /\ (spelled d < 2 ^ 53 -> from_integer false (spelled d) = VNum (spelled d)).
Proof.
  intros Hmethod Hget Htruthy Htarget Hhead Hok Hlength Hranged Hok2 Hrange
    Hfilled Hdigits.
  destruct (digits_read d Hfilled Hdigits) as [Hparse Hnumber].
  pose proof (spelled_nonneg d Hfilled Hdigits) as Hpos.
  destruct (formatBytes_of_string d) as [formatted Htext].
  exists formatted.
  split; [| split; [| apply from_integer_small]].
  { rewrite <- Htext, (formatBytes_reads d _ Hfilled Hnumber).
    destruct (spelled d =? 0) eqn:Hz.
    - apply Z.eqb_eq in Hz. rewrite Hz. reflexivity.
    - apply Z.eqb_neq in Hz. unfold from_integer.
      destruct (to_double (spelled d)) as [m |] eqn:Hm; [| reflexivity].
      pose proof (to_double_positive (spelled d) m ltac:(lia) Hm) as Hm'.
      cbn [truthy]. destruct (m =? 0) eqn:Hm0; [apply Z.eqb_eq in Hm0; lia |].
      reflexivity. }
  unfold Filesize.handler.
  destruct (req_method req =? "OPTIONS")%string eqn:E;
    [apply String.eqb_eq in E; contradiction |].
  rewrite (bind_run _ _ _ _ _ (destructure_run req url st Hget)).
  rewrite Htruthy. cbn [negb].
  unfold try_catch at 1.
  erewrite bind_yields by (apply yields_str, Htarget).
  fold (head_request target).
  rewrite (bind_run _ _ _ _ _ (fetch_run _ _ _ Hhead)).
  cbv zeta.
  assert (Hsize : Filesize.header head "content-length" = VNull).
  { unfold Filesize.header. rewrite Hlength. reflexivity. }
  rewrite Hsize, Hok. cbn [truthy negb andb].
  fold (range_request target).
  destruct (fallback_run target (sending (head_request target) st))
    as (st1 & Hfallback & _).
  rewrite (bind_run _ _ _ _ _ Hfallback).
  change (sent (sending (head_request target) st))
    with (sent st ++ [head_request target])%list.
  rewrite Hranged, (fallback_total ranged pre d Hok2 Hrange Hfilled Hdigits).
  change (truthy (VStr d)) with (negb (d =? "")%string).
  destruct (d =? "")%string eqn:E2; [apply String.eqb_eq in E2; contradiction |].
  cbn [negb]. pure_goal.
  unfold lift at 1. unfold bind at 1. rewrite Htext, Hparse. reflexivity.
Qed.

End TotalFacts.

(** ** The Snaptik adapter when it declines *)

Section SnaptikMore.
Context `{rt : Runtime}.

(** The adapter up to the parsed payload. *)
Lemma snaptik_parsed (url : string) (format quality : value) (st : state)
    (body : string) :
  fetched_text (network (sent st) (snaptik_post url)) = VStr body ->
  body <> "" ->
  Index.providerSnaptik url format quality "tiktok" st
  = match JSON_parse body with
    | Throw _ =>
        (Ret VNull, sending (snaptik_post url) (logged "Snaptik(tik.fail) trying" st))
    | Ret data =>
        (failed <- (if negb (truthy data) then ret true
                    else status <- prop data "status" ;;
                         ret (negb (strict_eq status (VStr "success")))) ;;
         if failed : bool then
           status <- prop_opt data "status" ||| ret (VStr "unknown") ;;
           status <- str status ;;
           push ("Snaptik failed: " ++ status) ;;
           ret VNull
         else
           url <- prop data "video" ||| prop data "nwm_video_url" ||| ret (VStr "") ;;
           title <- prop data "desc" ||| ret (VStr "TikTok Video") ;;
           ret (VObj [("status", VStr "tunnel");
                      ("url", url);
                      ("filename", VStr "tiktok_snaptik.mp4");
                      ("title", title)]))%js
          (sending (snaptik_post url) (logged "Snaptik(tik.fail) trying" st))
    end.
Proof.
  intros Hbody Hfilled.
  unfold Index.providerSnaptik. cbn [negb String.eqb Ascii.eqb Bool.eqb]. cbv zeta.
  unfold bind at 1. unfold push at 1.
  erewrite bind_run by apply fetchUrl_run.
  fold snaptik_endpoint. fold (snaptik_post url).
  change (sent (logged "Snaptik(tik.fail) trying" st)) with (sent st).
  rewrite Hbody.
  change (truthy (VStr body)) with (negb (body =? "")%string).
  destruct (body =? "")%string eqn:E; [apply String.eqb_eq in E; contradiction |].
  cbn [negb].
  rewrite (bind_run _ _ _ _ _ (try_parse_run _ _)).
  cbn [to_string]. destruct (JSON_parse body); reflexivity.
Qed.

(** X20. When Snaptik cannot be reached, answers with an empty body, or
    answers with text that is not JSON, the adapter returns [null] and
    says nothing more in the log than that it tried. *)
Theorem snaptik_fails_silently (url : string) (format quality : value) (st : state) :
  truthy (fetched_text (network (sent st) (snaptik_post url))) = false
  \/ (exists body e,
        fetched_text (network (sent st) (snaptik_post url)) = VStr body
        /\ JSON_parse body = Throw e) ->
  Index.providerSnaptik url format quality "tiktok" st
  = (Ret VNull, sending (snaptik_post url) (logged "Snaptik(tik.fail) trying" st)).
Proof.
  intros [Hnone | (body & e & Hbody & Hparse)].
  - unfold Index.providerSnaptik. cbn [negb String.eqb Ascii.eqb Bool.eqb]. cbv zeta.
    unfold bind at 1. unfold push at 1.
    erewrite bind_run by apply fetchUrl_run.
    fold snaptik_endpoint. fold (snaptik_post url).
    change (sent (logged "Snaptik(tik.fail) trying" st)) with (sent st).
    rewrite Hnone. reflexivity.
  - destruct (body =? "")%string eqn:E.
    + apply String.eqb_eq in E. subst body.
      unfold Index.providerSnaptik. cbn [negb String.eqb Ascii.eqb Bool.eqb]. cbv zeta.
      unfold bind at 1. unfold push at 1.
      erewrite bind_run by apply fetchUrl_run.
      fold snaptik_endpoint. fold (snaptik_post url).
      change (sent (logged "Snaptik(tik.fail) trying" st)) with (sent st).
      rewrite Hbody. reflexivity.
    + apply String.eqb_neq in E.
      rewrite (snaptik_parsed url format quality st body Hbody E), Hparse.
      reflexivity.
Qed.

(** X21. When Snaptik's payload is falsy or its status is not "success",
    the adapter logs "Snaptik failed: " followed by the string form of the
    status, or by "unknown" when the payload is [null] or has no (or a
    falsy) status, and returns [null].  When the status has no string form
    (an object with a field named toString), building the line throws,
    and the adapter throws that TypeError without logging it. *)
Theorem snaptik_logs_refusal (url : string) (format quality : value) (st : state)
    (body : string) (data : value) :
  fetched_text (network (sent st) (snaptik_post url)) = VStr body ->
  body <> "" ->
  JSON_parse body = Ret data ->
  truthy data = false \/ peek data "status" <> VStr "success" ->
  let tried := sending (snaptik_post url) (logged "Snaptik(tik.fail) trying" st) in
  Index.providerSnaptik url format quality "tiktok" st
  = match to_string (or_else (if nullish data then VUndefined else peek data "status")
                             (VStr "unknown")) with
    | Ret shown => (Ret VNull, logged ("Snaptik failed: " ++ shown) tried)
    | Throw e => (Throw e, tried)
    end.
Proof.
  intros Hbody Hfilled Hparse Hrefused tried.
  rewrite (snaptik_parsed url format quality st body Hbody Hfilled), Hparse.
  fold tried.
  assert (Hfailed : forall s,
             (if negb (truthy data) then ret true
              else status <- prop data "status" ;;
                   ret (negb (strict_eq status (VStr "success"))))%js s
             = (Ret true, s)).
  { intros s. destruct (truthy data) eqn:Hdata; cbn [negb]; [| reflexivity].
    pose proof (truthy_not_nullish _ Hdata) as Hobj.
    pure_goal. destruct Hrefused as [H | H]; [discriminate H |].
    destruct (peek data "status") as [| | | | | | t | |]; try reflexivity.
    cbn [strict_eq].
    destruct (t =? "success")%string eqn:E; [| reflexivity].
    apply String.eqb_eq in E. subst t. contradiction. }
  rewrite (bind_run _ _ _ _ _ (Hfailed _)).
  assert (Hstatus : forall s,
             yields (prop_opt data "status" ||| ret (VStr "unknown"))%js s
               (or_else (if nullish data then VUndefined else peek data "status")
                        (VStr "unknown"))).
  { intros s. unfold yields. destruct data; cbn [nullish]; reflexivity ||
      (unfold orM, bind, prop_opt, lift, get_opt, get, peek, or_else, ret;
       match goal with
       | |- context [lookup ?k ?f] => destruct (lookup k f)
       end; cbn [truthy];
       match goal with
       | |- context [truthy ?v] => destruct (truthy v)
       | _ => idtac
       end; reflexivity). }
  erewrite bind_yields by apply Hstatus.
  unfold str. rewrite bind_lift.
  destruct (to_string _); reflexivity.
Qed.

End SnaptikMore.

(** ** The headers [fetchUrl] sends *)

Section HeaderFacts.

Lemma lookup_app {A} (k : string) (l m : list (string * A)) :
  lookup k (l ++ m)
  = match lookup k l with Some v => Some v | None => lookup k m end.
Proof.
  induction l as [| [k0 v0] l IH]; simpl; [reflexivity |].
  destruct (k =? k0)%string; [reflexivity | exact IH].
Qed.

Lemma lookup_assign {A} (k k' : string) (x : A) (fields : list (string * A)) :
  lookup k' (assign k x fields)
  = if (k' =? k)%string then Some x else lookup k' fields.
Proof.
  destruct (k' =? k)%string eqn:E.
  - apply String.eqb_eq in E. subst k'.
    induction fields as [| [k0 v0] rest IH]; simpl.
    + rewrite String.eqb_refl. reflexivity.
    + destruct (k =? k0)%string eqn:E0; simpl.
      * rewrite String.eqb_refl. reflexivity.
      * rewrite E0. exact IH.
  - apply lookup_assign_other, E.
Qed.

(** [{ ...a, ...b }]: a key of [b] wins over the same key of [a]. *)
Lemma lookup_spread (k : string) (a b : list (string * string)) :
  lookup k (Index.spread a b)
  = match lookup k (rev b) with Some v => Some v | None => lookup k a end.
Proof.
  unfold Index.spread. revert a.
  induction b as [| [k0 v0] b IH]; intros a; simpl; [reflexivity |].
  rewrite IH, lookup_app, lookup_assign. simpl.
  destruct (lookup k (rev b)); [reflexivity |].
  destruct (k =? k0)%string; reflexivity.
Qed.

Lemma assign_key_in {A} (k0 k : string) (x : A) (a : list (string * A)) :
  In k (map fst (assign k0 x a)) -> k = k0 \/ In k (map fst a).
Proof.
  induction a as [| [k1 v1] a IH]; simpl.
  - intros [H | []]; auto.
  - destruct (k0 =? k1)%string eqn:E; simpl.
    + apply String.eqb_eq in E. subst k1. tauto.
    + intros [H | H]; [tauto |]. destruct (IH H); tauto.
Qed.

Lemma assign_keys {A} (k0 : string) (x : A) (a : list (string * A)) :
  NoDup (map fst a) -> NoDup (map fst (assign k0 x a)).
Proof.
  induction a as [| [k1 v1] a IH]; simpl; intros Ha.
  - constructor; [intros [] | constructor].
  - inversion Ha as [| ? ? Hnot Hrest]; subst.
    destruct (k0 =? k1)%string eqn:E; simpl.
    + apply String.eqb_eq in E. subst k1. constructor; assumption.
    + constructor; [| apply IH; exact Hrest].
      intros H. destruct (assign_key_in _ _ _ _ H) as [-> | H'].
      * rewrite String.eqb_refl in E. discriminate E.
      * apply Hnot, H'.
Qed.

Lemma spread_keys (a b : list (string * string)) :
  NoDup (map fst a) -> NoDup (map fst (Index.spread a b)).
Proof.
  unfold Index.spread. revert a.
  induction b as [| [k0 v0] b IH]; intros a Ha; simpl; [exact Ha |].
  apply IH, assign_keys, Ha.
Qed.

(** X22. Every request [fetchUrl] makes follows redirects and carries
    each header name once; a header the caller passes wins over the
    default of the same name, and the default User-Agent is sent
    otherwise.  So the TikWM POST goes out under the caller's shorter
    User-Agent, the TikWM GET and the Snaptik POST under the default one. *)
Theorem fetchUrl_merges_headers (url : string) (options : Index.fetch_options)
    (target : string) :
  let sent_headers := rq_headers (Index.finalOptions url options) in
  let passed := match Index.headers options with Some h => h | None => [] end in
  rq_redirect (Index.finalOptions url options) = Some "follow"
  /\ NoDup (map fst sent_headers)
  /\ (forall name,
        lookup name sent_headers
        = match lookup name (rev passed) with
          | Some v => Some v
          | None => if (name =? "User-Agent")%string then Some Index.chrome_agent
                    else None
          end)
  /\ lookup "User-Agent" (rq_headers (tikwm_post target))
     = Some "Mozilla/5.0 (Windows NT 10.0; Win64; x64) AppleWebKit/537.36"
  /\ lookup "User-Agent" (rq_headers (tikwm_get target)) = Some Index.chrome_agent
  /\ lookup "User-Agent" (rq_headers (snaptik_post target)) = Some Index.chrome_agent.
Proof.
  intros sent_headers passed. split; [reflexivity |]. split; [| split].
  - unfold sent_headers, Index.finalOptions. cbn [rq_headers].
    apply spread_keys. simpl. constructor; [intros [] | constructor].
  - intros name. unfold sent_headers, Index.finalOptions. cbn [rq_headers].
    fold passed. rewrite lookup_spread. reflexivity.
  - repeat split; reflexivity.
Qed.

End HeaderFacts.

(** ** The size prober on every request *)

Section ProberTotal.
Context `{rt : Runtime}.

Lemma header_shape (r : response) (name : string) :
  Filesize.header r name = VNull \/ exists s, Filesize.header r name = VStr s.
Proof.
  unfold Filesize.header. destruct (headers_get r name); [right; eexists | left]; reflexivity.
Qed.

(** The fallback block of lines 36 to 62, entered with any [size]. *)
Lemma fallback_any (target : string) (size0 : value) (st : state) :
  (size0 = VNull \/ exists s, size0 = VStr s) ->
  exists r st',
    try_catch
      (rangeResponse <- fetch (range_request target) ;;
       if ok rangeResponse then
         let contentRange := Filesize.header rangeResponse "content-range" in
         let size :=
           match contentRange with
           | VStr s =>
               if truthy contentRange then
                 match Filesize.match_total s with
                 | Some total => VStr total
                 | None => size0
                 end
               else size0
           | _ => size0
           end in
         let size := if negb (truthy size)
                     then Filesize.header rangeResponse "content-length"
                     else size in
         ret size
       else ret size0)
      (fun e => console_error "Range fallback failed:" (message e) ;; ret size0) st
    = (Ret r, st')
    /\ (r = VNull \/ exists s, r = VStr s)
    /\ sent st' = (sent st ++ [range_request target])%list.
Proof.
  intros Hsize. unfold try_catch, bind, fetch.
  destruct (network (sent st) (range_request target)) as [e | ranged].
  - do 2 eexists. split; [reflexivity |]. split; [exact Hsize | reflexivity].
  - destruct (ok ranged); [| do 2 eexists; split; [reflexivity |];
                              split; [exact Hsize | reflexivity]].
    cbv zeta. do 2 eexists. split; [reflexivity |]. split; [| reflexivity].
    match goal with
    | |- context [if ?b then _ else _] => destruct b
    end; [apply header_shape |].
    destruct (Filesize.header ranged "content-range"); try exact Hsize.
    match goal with
    | |- context [if ?b then _ else _] => destruct b
    end; [| exact Hsize].
    destruct (Filesize.match_total _); [right; eexists; reflexivity | exact Hsize].
Qed.

(** X23. Unless [req.query] is missing, the prober answers every request:
    with its CORS headers, with status 200, 400 or 500 (400 exactly when
    the method is not OPTIONS and the [url] parameter is absent or empty),
    and after at most two requests: none, or the HEAD, or the HEAD and
    then the ranged GET, each to the string form of the [url] parameter. *)
Theorem prober_always_answers (req : http_request) (st : state) :
  req_method req = "OPTIONS" \/ nullish (req_query req) = false ->
  exists res st' l,
    Filesize.handler req st = (Ret res, st')
    /\ res_headers res = Filesize.cors
    /\ In (res_status res) [200; 400; 500]
    /\ (res_status res = 400
        <-> req_method req <> "OPTIONS"
            /\ truthy (peek (req_query req) "url") = false)
    /\ sent st' = (sent st ++ l)%list
    /\ (l = []
        \/ exists target,
             to_string (peek (req_query req) "url") = Ret target
             /\ (l = [head_request target]
                 \/ l = [head_request target; range_request target])).
Proof.
  intros Hquery. unfold Filesize.handler.
  destruct (req_method req =? "OPTIONS")%string eqn:E.
  { apply String.eqb_eq in E.
    exists (Filesize.finish 200), st, []. split; [reflexivity |].
    split; [reflexivity |]. split; [simpl; tauto |].
    split; [| split; [symmetry; apply app_nil_r | left; reflexivity]].
    split; [discriminate | intros [H _]; contradiction]. }
  apply String.eqb_neq in E.
  destruct Hquery as [Hquery | Hquery]; [contradiction |].
  rewrite (bind_run _ _ _ _ _
             (destructure_run req _ st (get_peek _ "url" Hquery))).
  destruct (truthy (peek (req_query req) "url")) eqn:Hurl; cbn [negb].
  2:{ eexists _, st, []. split; [reflexivity |].
      split; [reflexivity |]. split; [simpl; tauto |].
      split; [| split; [symmetry; apply app_nil_r | left; reflexivity]].
      split; [intros _; split; [exact E | reflexivity] | reflexivity]. }
  assert (Hnot400 : forall n : Z,
             n <> 400 ->
             n = 400 <-> req_method req <> "OPTIONS" /\ true = false).
  { intros n Hn. split; [contradiction | intros [_ H]; discriminate H]. }
  unfold try_catch at 1.
  destruct (to_string (peek (req_query req) "url")) as [target | e] eqn:Htarget.
  2:{ unfold str. rewrite bind_lift, Htarget.
      eexists _, st, []. split; [reflexivity |].
      split; [reflexivity |]. split; [simpl; tauto |].
      split; [apply Hnot400; discriminate |].
      split; [symmetry; apply app_nil_r | left; reflexivity]. }
  erewrite bind_yields by (apply yields_str, Htarget).
  fold (head_request target).
  destruct (network (sent st) (head_request target)) as [e | head] eqn:Hhead.
  { erewrite bind_throw by (unfold fetch; rewrite Hhead; reflexivity).
    eexists _, _, [head_request target]. split; [reflexivity |].
    split; [reflexivity |]. split; [simpl; tauto |].
    split; [apply Hnot400; discriminate |].
    split; [reflexivity | right; exists target; auto]. }
  rewrite (bind_run _ _ _ _ _ (fetch_run _ _ _ Hhead)).
  cbv zeta.
  destruct (negb (truthy (Filesize.header head "content-length")) && ok head)
    eqn:Hfallback.
  - fold (range_request target).
    destruct (fallback_any target (Filesize.header head "content-length")
                (sending (head_request target) st)
                (header_shape head "content-length"))
      as (r & s1 & Hrun & Hshape & Hsent).
    rewrite (bind_run _ _ _ _ _ Hrun).
    destruct (size_answer r (Filesize.header head "content-type") s1 Hshape)
      as [formatted Hanswer].
    rewrite Hanswer.
    eexists _, s1, [head_request target; range_request target].
    split; [reflexivity |]. split; [reflexivity |]. split; [simpl; tauto |].
    split; [apply Hnot400; discriminate |].
    split; [| right; exists target; auto].
    rewrite Hsent. simpl. rewrite <- app_assoc. reflexivity.
  - erewrite bind_yields by apply yields_ret.
    destruct (size_answer (Filesize.header head "content-length")
                (Filesize.header head "content-type")
                (sending (head_request target) st)
                (header_shape head "content-length"))
      as [formatted Hanswer].
    rewrite Hanswer.
    eexists _, _, [head_request target].
    split; [reflexivity |]. split; [reflexivity |]. split; [simpl; tauto |].
    split; [apply Hnot400; discriminate |].
    split; [reflexivity | right; exists target; auto].
Qed.

(** X24. The destructuring of [req.query] precedes the [try] block: for a
    request other than OPTIONS whose [query] is [undefined] or [null] the
    prober throws a TypeError and answers nothing. *)
Theorem probe_without_query_throws (req : http_request) (st : state) :
  req_method req <> "OPTIONS" ->
  nullish (req_query req) = true ->
  Filesize.handler req st
  = (Throw (TypeError ("Cannot destructure property 'url' of 'req.query' as it is "
                       ++ nullish_name (req_query req) ++ ".")), st).
Proof.
  intros Hmethod Hquery. unfold Filesize.handler.
  destruct (req_method req =? "OPTIONS")%string eqn:E;
    [apply String.eqb_eq in E; contradiction |].
  destruct (req_query req); try discriminate Hquery; reflexivity.
Qed.

End ProberTotal.

(** ** The trace and the CORS headers of the resolver *)

Section TraceFacts.
Context `{rt : Runtime}.

Lemma peek_set_same (fields : list (string * value)) (k : string) (x : value) :
  peek (set (VObj fields) k x) k = x.
Proof. simpl. rewrite lookup_assign, String.eqb_refl. reflexivity. Qed.

Lemma accepted_object (r : value) : accepted r = true -> exists fields, r = VObj fields.
Proof.
  unfold accepted. intros H.
  destruct r; try (eexists; reflexivity);
    cbn [peek truthy] in H; rewrite ?andb_false_r in H; discriminate H.
Qed.

(** [resolve] with the payload before the trace is attached. *)
Lemma resolve_traced (req : http_request) (url : string) (format quality : value)
    (st : state) :
  exists fields st',
    Index.resolve req url format quality st
    = (Ret (Index.json 200 (with_debug req (debugLog st') (VObj fields))), st').
Proof.
  unfold Index.resolve.
  unfold bind at 1. unfold new_log at 1. fold (fresh st).
  destruct (chain_returns url format quality (Index.detectPlatform url)
              Index.providers VNull (VStr "") (fresh st) (printable_str ""))
    as (fr & le & s1 & Hrun & [shown Hle] & Hfr).
  rewrite (bind_run _ _ _ _ _ Hrun). cbv zeta. cbn [fst snd].
  destruct (truthy fr) eqn:Htruthy.
  - rewrite (bind_run _ _ _ _ _ (attach_debug_run req fr _)).
    destruct Hfr as [-> | Hacc]; [discriminate Htruthy |].
    destruct (accepted_object fr Hacc) as [fields ->].
    do 2 eexists. reflexivity.
  - unfold str. rewrite bind_lift.
    assert (Hreason : exists reason,
               to_string (or_else le (VStr "Server sibuk atau timeout")) = Ret reason).
    { unfold or_else. destruct (truthy le); [exists shown; exact Hle | eexists; reflexivity]. }
    destruct Hreason as [reason ->].
    rewrite (bind_run _ _ _ _ _ (attach_debug_run req _ _)).
    do 2 eexists. reflexivity.
Qed.

(** X25. Once the input is read, a request with a truthy [debug] query
    parameter is answered with a [debug] field that lists exactly the
    lines of the log as it stands at the end of the run, in order, whether
    a provider succeeded or none did. *)
Theorem debug_trace_is_the_log (req : http_request) (url : string)
    (format quality : value) (st : state) :
  req_method req = "POST" ->
  Index.read_input req st = (Ret (Some (url, (format, quality))), st) ->
  debug_requested req = true ->
  exists payload st',
    Index.handler req st = (Ret (Index.json 200 payload), st')
    /\ peek payload "debug" = VArr (map VStr (debugLog st')).
Proof.
  intros Hpost Hinput Hdebug. rewrite (handler_cases req st Hpost), Hinput. cbn [fst].
  destruct (resolve_traced req url format quality st) as (fields & st' & Hrun).
  exists (with_debug req (debugLog st') (VObj fields)), st'.
  split; [exact Hrun |].
  unfold with_debug. rewrite Hdebug. apply peek_set_same.
Qed.

(** X26. Every answer of the resolver carries its three CORS headers,
    whatever the method and whatever happens inside. *)
Theorem resolver_answers_with_cors (req : http_request) (st : state) :
  exists res st',
    Index.handler req st = (Ret res, st')
    /\ res_headers res = Index.cors.
Proof.
  destruct (req_method req =? "POST")%string eqn:Hpost.
  - apply String.eqb_eq in Hpost. rewrite (handler_cases req st Hpost).
    destruct (fst (Index.read_input req st)) as [[[url [format quality]] |] | e].
    + destruct (resolve_traced req url format quality st) as (fields & st' & Hrun).
      rewrite Hrun. do 2 eexists. split; reflexivity.
    + do 2 eexists. split; reflexivity.
    + do 2 eexists. split; reflexivity.
  - unfold Index.handler.
    destruct (req_method req =? "OPTIONS")%string;
      [do 2 eexists; split; reflexivity |].
    destruct (req_method req =? "GET")%string;
      [do 2 eexists; split; reflexivity |].
    rewrite Hpost. do 2 eexists. split; reflexivity.
Qed.

End TraceFacts.

(** ** The further properties on sample runs *)

Import Trial.

(** X1 on a body that is a string of malformed JSON. *)
Lemma missing_url_is_rejected_witness :
  Index.handler (rt := offline) malformed_request initial
  = (Ret (Index.json 200 (Index.error_result "URL diperlukan")), initial).
Proof.
  apply (missing_url_is_rejected (rt := offline) malformed_request initial eq_refl).
  right. left. vm_compute. discriminate.
Defined.

(** X2 on a body whose [url] is the number 5. *)
Lemma non_string_url_is_server_error_witness :
  Index.handler (rt := offline) numeric_request initial
  = (Ret (Index.json 200
            (VObj [("status", VStr "error");
                   ("text", VStr "Server Error: input.url.trim is not a function");
                   ("stack", VUndefined)])),
     initial).
Proof.
  apply (non_string_url_is_server_error (rt := offline) numeric_request initial
           eq_refl eq_refl).
  intros s. vm_compute. discriminate.
Defined.

(** X3 on a YouTube link. *)
Lemma other_platforms_are_declined_witness :
  Index.detectPlatform youtube_url = "youtube"
  /\ Index.handler (rt := offline) youtube_request initial
     = (Ret (Index.json 200
               (VObj [("status", VStr "error");
                      ("text", VStr "Gagal memproses link. Server sibuk atau timeout.");
                      ("debug", VArr [VStr "Trying provider: providerTikwm";
                                      VStr "Trying provider: providerSnaptik"])])),
        logged "Trying provider: providerSnaptik"
          (logged "Trying provider: providerTikwm" initial))
  /\ sent (logged "Trying provider: providerSnaptik"
             (logged "Trying provider: providerTikwm" initial)) = [].
Proof.
  split; [reflexivity |].
  apply (other_platforms_are_declined (rt := offline) youtube_request youtube_url
           (VStr "auto") (VStr "720") initial eq_refl eq_refl).
  vm_compute. discriminate.
Defined.

(** X4 on a run where TikWM is down and Snaptik has the video. *)
Lemma second_provider_takes_over_witness :
  exists st',
    Index.handler (rt := snaptik_only) media_request initial
    = (Ret (Index.json 200
              (VObj [("status", VStr "tunnel");
                     ("url", VStr "https://v.example/b.mp4");
                     ("filename", VStr "tiktok_snaptik.mp4");
                     ("title", VStr "TikTok Video")])),
       st')
    /\ debugLog st'
       = ["Trying provider: providerTikwm";
          "TikWM trying POST";
          "TikWM POST failed/empty, trying GET";
          "Failed providerTikwm: TikWM no response";
          "Trying provider: providerSnaptik";
          "Snaptik(tik.fail) trying";
          "Success with providerSnaptik"].
Proof.
  eexists. split.
  - apply (second_provider_takes_over (rt := snaptik_only) media_request tiktok_url
             (VStr "auto") (VStr "720") (Failed "TikWM no response") initial
             (snd (Index.providerTikwm (rt := snaptik_only) tiktok_url (VStr "auto")
                     (VStr "720") "tiktok"
                     (logged "Trying provider: providerTikwm" initial)))
             (snd (Index.providerSnaptik (rt := snaptik_only) tiktok_url (VStr "auto")
                     (VStr "720") "tiktok"
                     (logged "Trying provider: providerSnaptik"
                        (after_failure "providerTikwm" (Failed "TikWM no response")
                           (snd (Index.providerTikwm (rt := snaptik_only) tiktok_url
                                   (VStr "auto") (VStr "720") "tiktok"
                                   (logged "Trying provider: providerTikwm"
                                      initial)))))))
             (VObj [("status", VStr "tunnel");
                    ("url", VStr "https://v.example/b.mp4");
                    ("filename", VStr "tiktok_snaptik.mp4");
                    ("title", VStr "TikTok Video")])
             eq_refl eq_refl); vm_compute; reflexivity.
  - vm_compute. reflexivity.
Defined.

(** X5 and X6 on a run where TikWM reports code 0 without data and
    Snaptik is down. *)
Lemma provider_exception_is_recorded_witness :
  exists st',
    Index.handler (rt := tikwm_empty) media_request initial
    = (Ret (Index.json 200
              (VObj [("status", VStr "error");
                     ("text",
                      VStr "Gagal memproses link. Cannot read properties of undefined (reading 'hdplay').")])),
       st').
Proof.
  eexists.
  apply (provider_exception_is_recorded (rt := tikwm_empty) media_request tiktok_url
           (VStr "auto") (VStr "720")
           (TypeError "Cannot read properties of undefined (reading 'hdplay')")
           Declined initial
           (snd (Index.providerTikwm (rt := tikwm_empty) tiktok_url (VStr "auto")
                   (VStr "720") "tiktok"
                   (logged "Trying provider: providerTikwm" initial)))
           (snd (Index.providerSnaptik (rt := tikwm_empty) tiktok_url (VStr "auto")
                   (VStr "720") "tiktok"
                   (logged "Trying provider: providerSnaptik"
                      (logged
                         "Exception providerTikwm: Cannot read properties of undefined (reading 'hdplay')"
                         (snd (Index.providerTikwm (rt := tikwm_empty) tiktok_url
                                 (VStr "auto") (VStr "720") "tiktok"
                                 (logged "Trying provider: providerTikwm"
                                    initial)))))))
           eq_refl eq_refl); vm_compute; reflexivity.
Defined.

Lemma tikwm_throws_without_data_witness :
  fst (Index.providerTikwm (rt := tikwm_empty) tiktok_url (VStr "auto") (VStr "720")
         "tiktok" initial)
  = Throw (TypeError "Cannot read properties of undefined (reading 'hdplay')").
Proof.
  rewrite (tikwm_throws_without_data (rt := tikwm_empty) tiktok_url (VStr "auto")
             (VStr "720") initial eq_refl eq_refl eq_refl).
  reflexivity.
Defined.

(** X8 and X9 on a payload with a play and a music URL. *)
Lemma tikwm_variant_shapes_witness :
  exists r st' vs,
    Index.providerTikwm (rt := tikwm_up) tiktok_url (VStr "auto") (VStr "720") "tiktok"
      initial = (Ret r, st')
    /\ peek r "variants" = VArr vs
    /\ map kind vs = ["video-hd"; "video-sd"; "audio"].
Proof.
  destruct (tikwm_variant_shapes (rt := tikwm_up) tiktok_url (VStr "auto") (VStr "720")
              "tiktok" initial _ _ eq_refl eq_refl) as (vs & Hvs & _).
  do 3 eexists. split; [reflexivity |]. split; [exact Hvs |].
  injection Hvs as <-. reflexivity.
Defined.

Lemma tikwm_primary_among_variants_witness :
  exists r st' vs v,
    Index.providerTikwm (rt := tikwm_up) tiktok_url (VStr "auto") (VStr "720") "tiktok"
      initial = (Ret r, st')
    /\ peek r "variants" = VArr vs
    /\ In v vs
    /\ peek v "url" = VStr "https://v.example/a.mp4"
    /\ peek r "url" = VStr "https://v.example/a.mp4".
Proof.
  destruct (tikwm_primary_among_variants (rt := tikwm_up) tiktok_url (VStr "auto")
              (VStr "720") "tiktok" initial _ _ eq_refl eq_refl)
    as (vs & v & Hvs & Hin & Hurl).
  exists (fst (match Index.providerTikwm (rt := tikwm_up) tiktok_url (VStr "auto")
                       (VStr "720") "tiktok" initial with
               | (Ret r, s) => (r, s)
               | (Throw _, s) => (VNull, s)
               end)).
  do 3 eexists. split; [vm_compute; reflexivity |].
  split; [exact Hvs |]. split; [exact Hin |].
  split; [rewrite Hurl |]; reflexivity.
Defined.

(** X11 on a probe without the [url] parameter. *)
Lemma probe_without_url_witness :
  Filesize.handler (rt := offline) bare_probe initial
  = (Ret (Filesize.json 400 (VObj [("error", VStr "URL parameter is required")])),
     initial).
Proof.
  apply (probe_without_url (rt := offline) bare_probe VUndefined initial);
    [discriminate | reflexivity | reflexivity].
Defined.

(** X12 on a probe while nothing can be reached. *)
Lemma probe_head_failure_witness :
  Filesize.handler (rt := offline) probe_request initial
  = (Ret (Filesize.json 500 (VObj [("error", VStr "fetch failed")])),
     sending (head_request file_url) initial).
Proof.
  apply (probe_head_failure (rt := offline) probe_request (VStr file_url) file_url
           initial (FetchError "fetch failed"));
    [discriminate | reflexivity | reflexivity | reflexivity | reflexivity].
Defined.

(** X13 on a HEAD answered 404 with a content-length of 2048. *)
Lemma probe_with_length_witness :
  Filesize.handler (rt := sized_error) probe_request initial
  = (Ret (Filesize.json 200 (probe_payload (VNum 2048) VNull "2 KB")),
     sending (head_request file_url) initial).
Proof.
  destruct (probe_with_length (rt := sized_error) probe_request (VStr file_url)
              file_url initial
              {| ok := false;
                 headers_get := fun name => lookup name [("content-length", "2048")];
                 text := Ret "" |}
              "2048" ltac:(discriminate) eq_refl eq_refl eq_refl eq_refl eq_refl
              ltac:(discriminate)) as (formatted & Hformat & Hrun).
  rewrite Hrun. injection Hformat as <-. reflexivity.
Defined.

(** X14 on a HEAD answered 404 without a content-length. *)
Lemma probe_head_not_ok_witness :
  Filesize.handler (rt := missing_file) probe_request initial
  = (Ret (Filesize.json 200 (probe_payload VNull (VStr "text/html") "Unknown")),
     sending (head_request file_url) initial).
Proof.
  apply (probe_head_not_ok (rt := missing_file) probe_request (VStr file_url)
           file_url initial
           {| ok := false;
              headers_get := fun name => lookup name [("content-type", "text/html")];
              text := Ret "" |});
    [discriminate | reflexivity | reflexivity | reflexivity | reflexivity
    | reflexivity | reflexivity].
Defined.

(** X15 on a HEAD without content-length followed by a ranged GET that
    cannot be made. *)
Lemma probe_fallback_failure_witness :
  Filesize.handler (rt := head_only) probe_request initial
  = (Ret (Filesize.json 200 (probe_payload VNull (VStr "video/mp4") "Unknown")),
     {| debugLog := [];
        sent := [head_request file_url; range_request file_url];
        console := ["Range fallback failed: fetch failed"] |}).
Proof.
  apply (probe_fallback_failure (rt := head_only) probe_request (VStr file_url)
           file_url initial
           {| ok := true;
              headers_get := fun name => lookup name [("content-type", "video/mp4")];
              text := Ret "" |}
           (FetchError "fetch failed"));
    [discriminate | reflexivity | reflexivity | reflexivity | reflexivity
    | reflexivity | reflexivity | reflexivity].
Defined.

(** X17 on the digits of 500000, and X18 on 512 bytes. *)
Lemma digits_format_witness :
  parseInt "500000" = VNum 500000
  /\ Filesize.formatBytes (rt := offline) (VStr "500000") = Ret "488.28 KB".
Proof.
  destruct (digits_format (rt := offline) "500000" ltac:(discriminate) eq_refl)
    as (_ & _ & Hparse & Hformat).
  split; [apply Hparse; reflexivity | rewrite Hformat; reflexivity].
Defined.

Lemma formatBytes_below_1024_witness :
  Filesize.formatBytes (rt := offline) (VNum 512) = Ret "512 Bytes".
Proof. apply (formatBytes_below_1024 (rt := offline) 512). lia. Defined.

(** X19 on a HEAD without content-length followed by a 206 with the
    content-range "bytes 0-0/500000". *)
Lemma content_range_total_witness :
  fst (Filesize.handler (rt := ranged_ok) probe_request initial)
  = Ret (Filesize.json 200 (probe_payload (VNum 500000) (VStr "video/mp4") "488.28 KB")).
Proof.
  destruct (content_range_total (rt := ranged_ok) probe_request (VStr file_url)
              file_url initial
              {| ok := true;
                 headers_get := fun name => lookup name [("content-type", "video/mp4")];
                 text := Ret "" |}
              {| ok := true;
                 headers_get := fun name =>
                   lookup name [("content-range", "bytes 0-0/500000")];
                 text := Ret "x" |}
              "bytes 0-0" "500000"
              ltac:(discriminate) eq_refl eq_refl eq_refl eq_refl eq_refl eq_refl
              eq_refl eq_refl eq_refl ltac:(discriminate) eq_refl)
    as (formatted & Hformat & Hrun & _).
  rewrite Hrun. injection Hformat as <-. reflexivity.
Defined.

(** X20 while nothing can be reached. *)
Lemma snaptik_fails_silently_witness :
  Index.providerSnaptik (rt := offline) tiktok_url (VStr "auto") (VStr "720") "tiktok"
    initial
  = (Ret VNull,
     {| debugLog := ["Snaptik(tik.fail) trying"];
        sent := [snaptik_post tiktok_url];
        console := [] |}).
Proof.
  apply (snaptik_fails_silently (rt := offline) tiktok_url (VStr "auto") (VStr "720")
           initial).
  left. reflexivity.
Defined.

(** X21 on a payload whose status is "error". *)
Lemma snaptik_logs_refusal_witness :
  Index.providerSnaptik (rt := snaptik_refuses) tiktok_url (VStr "auto") (VStr "720")
    "tiktok" initial
  = (Ret VNull,
     {| debugLog := ["Snaptik(tik.fail) trying"; "Snaptik failed: error"];
        sent := [snaptik_post tiktok_url];
        console := [] |}).
Proof.
  apply (snaptik_logs_refusal (rt := snaptik_refuses) tiktok_url (VStr "auto")
           (VStr "720") initial (Lab.q "{'status':'error'}")
           (VObj [("status", VStr "error")]));
    [reflexivity | discriminate | reflexivity | right; discriminate].
Defined.

(** X23 on the probe that falls back on the ranged GET. *)
Lemma prober_always_answers_witness :
  exists res st',
    Filesize.handler (rt := ranged_ok) probe_request initial = (Ret res, st')
    /\ res_headers res = Filesize.cors
    /\ res_status res = 200
    /\ sent st' = [head_request file_url; range_request file_url].
Proof.
  destruct (prober_always_answers (rt := ranged_ok) probe_request initial
              (or_intror eq_refl))
    as (res & st' & l & Hrun & Hcors & _).
  exists res, st'. split; [exact Hrun |]. split; [exact Hcors |].
  injection Hrun as <- <-. split; reflexivity.
Defined.

(** X24 on a probe without any query. *)
Lemma probe_without_query_throws_witness :
  Filesize.handler (rt := offline) queryless_probe initial
  = (Throw (TypeError
              "Cannot destructure property 'url' of 'req.query' as it is undefined."),
     initial).
Proof.
  apply (probe_without_query_throws (rt := offline) queryless_probe initial);
    [discriminate | reflexivity].
Defined.

(** X25 on a YouTube link with the trace asked for. *)
Lemma debug_trace_is_the_log_witness :
  exists payload st',
    Index.handler (rt := offline) youtube_request initial
    = (Ret (Index.json 200 payload), st')
    /\ peek payload "debug"
       = VArr [VStr "Trying provider: providerTikwm";
               VStr "Trying provider: providerSnaptik"].
Proof.
  destruct (debug_trace_is_the_log (rt := offline) youtube_request youtube_url
              (VStr "auto") (VStr "720") initial eq_refl eq_refl eq_refl)
    as (payload & st' & Hrun & Hdebug).
  exists payload, st'. split; [exact Hrun |].
  rewrite Hdebug. injection Hrun as _ <-. reflexivity.
Defined.
